(** * cpgrams: form-field mapping and hierarchical category manager

    A shallow embedding of the two command-line tools of the repository,
    [FormFieldMapping/main.py] and [category_manager/main.py] (with
    [category_manager/utils/db_connection.py]), and the properties their
    description states about them.

    Conventions of the embedding.
    - A Python [str] is a Rocq [string]; a character is a code point below
      256 (Latin-1), which is what [ascii] holds.  [str.lower], [str.strip],
      [str.isspace] and the regular-expression class [\s] are written out
      for that range.
    - A Python [int] is a [Z].
    - Terminal input is a list of pending lines; [input()] pops the head and
      raises [EOFError] on the empty list.
    - A PostgreSQL connection is a record with the rows already committed and
      the rows written by the open transaction.  Which rows the schema's
      constraints accept is not decided by this repository: it is a section
      variable. *)

From Stdlib Require Import List String Ascii Bool Arith ZArith Lia.
Import ListNotations.
Open Scope string_scope.
Open Scope list_scope.

(** ** Python string builtins on Latin-1 strings *)

Module PyStr.

(** [str.isspace] for one code point below 256; the class [\s] of [re] on
    [str] patterns is the same set. *)
Definition isspace (c : ascii) : bool :=
  let n := nat_of_ascii c in
  (((9 <=? n) && (n <=? 13)) || ((28 <=? n) && (n <=? 32))
   || (n =? 133) || (n =? 160))%nat.

(** [str.lower] for one code point below 256: A-Z, and the Latin-1 capitals
    0xC0-0xDE but for the multiplication sign 0xD7. *)
Definition lower_char (c : ascii) : ascii :=
  let n := nat_of_ascii c in
  if (((65 <=? n) && (n <=? 90))
      || ((192 <=? n) && (n <=? 222) && negb (n =? 215)))%nat
  then ascii_of_nat (n + 32) else c.

(** [str.lower] on a string of code points below 256: there it goes
    character by character.  (Beyond that range it does not: a capital
    sigma, U+03A3, is lowercased by its place in the word.) *)
Fixpoint lower (s : string) : string :=
  match s with
  | EmptyString => EmptyString
  | String c s' => String (lower_char c) (lower s')
  end.

Fixpoint lstrip (s : string) : string :=
  match s with
  | EmptyString => EmptyString
  | String c s' => if isspace c then lstrip s' else s
  end.

Fixpoint rstrip (s : string) : string :=
  match s with
  | EmptyString => EmptyString
  | String c s' =>
      match rstrip s' with
      | EmptyString => if isspace c then EmptyString else String c EmptyString
      | r => String c r
      end
  end.

(** [s.strip()] with no argument. *)
Definition strip (s : string) : string := rstrip (lstrip s).

(** Keep the characters on which [keep] holds: [re.sub(cls, '', s)] for a
    one-character class [cls], with [keep] the complement of the class. *)
Fixpoint filter (keep : ascii -> bool) (s : string) : string :=
  match s with
  | EmptyString => EmptyString
  | String c s' => if keep c then String c (filter keep s') else filter keep s'
  end.

(** [len(s)] *)
Definition len (s : string) : Z := Z.of_nat (String.length s).

(** Truthiness of a string: [not s] holds of the empty string only. *)
Definition is_empty (s : string) : bool :=
  match s with EmptyString => true | _ => false end.

(** Membership of a character in a literal set. *)
Fixpoint mem (c : ascii) (s : string) : bool :=
  match s with
  | EmptyString => false
  | String d s' => Ascii.eqb c d || mem c s'
  end.

End PyStr.

(** ** FormFieldMapping/main.py *)

Module FormFieldMapping.

Import PyStr.

(** The character class [[/\-_().,\s]] of [normalize_field_name]. *)
Definition special (c : ascii) : bool := mem c "/-_().," || isspace c.

(** [normalize_field_name] *)
Definition normalize_field_name (name : string) : string :=
  if is_empty name then ""
  else
    let normalized := filter (fun c => negb (special c)) (strip (lower name)) in
    normalized.

(** What the description says of [normalize_field_name]: the input
    lowercased, with every character [/ - _ ( ) . ,] and all whitespace
    removed. *)
Definition is_removed (c : ascii) : bool :=
  mem c "/-_().," || isspace c.

Definition lowercased_without_specials (s : string) : string :=
  filter (fun c => negb (is_removed c)) (lower s).

(** A row [(id, field_name)] of the form_fields table. *)
Definition field_row : Type := string * string.

(** The dicts of [get_all_fields]. *)
Record field := mkField {
  f_id : string;
  f_field_name : string;
  f_normalized_name : string
}.

(** The dicts [resolve_field_by_name] returns and [insert_mappings] reads. *)
Record resolved_field := mkResolved {
  r_id : string;
  r_field_name : string;
  r_input_name : string
}.

(** [get_all_fields], from the rows [cursor.fetchall()] returned: the loop
    that builds the list of dicts. *)
Fixpoint get_all_fields (results : list field_row) : list field :=
  match results with
  | [] => []
  | row :: rest =>
      mkField (fst row) (snd row) (normalize_field_name (snd row))
      :: get_all_fields rest
  end.

(** [resolve_field_by_name] *)
Fixpoint resolve_loop (all_fields : list field) (input_name normalized_input : string)
  : option resolved_field :=
  match all_fields with
  | [] => None
  | fld :: rest =>
      if f_normalized_name fld =? normalized_input
      then Some (mkResolved (f_id fld) (f_field_name fld) input_name)
      else resolve_loop rest input_name normalized_input
  end.

Definition resolve_field_by_name (all_fields : list field) (input_name : string)
  : option resolved_field :=
  let normalized_input := normalize_field_name input_name in
  resolve_loop all_fields input_name normalized_input.

(** [get_bulk_input]: the [while True] loop, on the pending input lines.
    [break] returns the lines collected and the input left unread;
    [EOFError] (no pending line) breaks as well. *)
Fixpoint get_bulk_input_loop (stdin : list string) (lines : list string)
  (empty_count : Z) : list string * list string :=
  match stdin with
  | [] => (lines, [])
  | line :: rest =>
      if strip line =? "" then
        let empty_count := (empty_count + 1)%Z in
        if (1 <=? empty_count)%Z then (lines, rest)
        else get_bulk_input_loop rest lines empty_count
      else
        let empty_count := 0%Z in
        get_bulk_input_loop rest (lines ++ [strip line]) empty_count
  end.

Definition get_bulk_input (stdin : list string) : list string * list string :=
  get_bulk_input_loop stdin [] 0%Z.

(** A line that [line.strip() == ""] holds of. *)
Definition blank (line : string) : bool := strip line =? "".

(** *** The mapping table and the connection *)

(** A row [(form_id, field_id, order_index)] of the mapping table. *)
Record mapping := mkMapping {
  m_form_id : string;
  m_field_id : string;
  m_order_index : Z
}.

Inductive db_call :=
| Execute (row : mapping)
| Commit
| Rollback.

(** A connection in its default mode (no autocommit): the committed rows of
    the mapping table, the rows inserted by the open transaction, and the
    calls made on the connection, oldest first. *)
Record conn := mkConn {
  committed : list mapping;
  pending : list mapping;
  calls : list db_call
}.

Section Transactions.

(** The constraints of the schema: whether a row may be inserted, given the
    rows the transaction sees. *)
Variable accepts : list mapping -> mapping -> bool.

(** Whether COMMIT succeeds, given the committed rows and the rows of the
    transaction. *)
Variable commit_ok : list mapping -> list mapping -> bool.

(** [cursor.execute(INSERT ...)]: [None] when psycopg2 raises. *)
Definition execute (c : conn) (row : mapping) : option conn :=
  if accepts (committed c ++ pending c) row
  then Some (mkConn (committed c) (pending c ++ [row]) (calls c ++ [Execute row]))
  else None.

(** [conn.commit()]: [None] when psycopg2 raises. *)
Definition commit (c : conn) : option conn :=
  if commit_ok (committed c) (pending c)
  then Some (mkConn (committed c ++ pending c) [] (calls c ++ [Commit]))
  else None.

(** [conn.rollback()] *)
Definition rollback (c : conn) : conn :=
  mkConn (committed c) [] (calls c ++ [Rollback]).

(** The [for index, field in enumerate(resolved_fields, start=1)] loop of
    [insert_mappings]; [inr c] is the connection when an insert raised. *)
Fixpoint insert_loop (form_id : string) (index : Z)
  (resolved_fields : list resolved_field) (c : conn) : conn + conn :=
  match resolved_fields with
  | [] => inl c
  | fld :: rest =>
      match execute c (mkMapping form_id (r_id fld) index) with
      | Some c' => insert_loop form_id (index + 1) rest c'
      | None => inr (mkConn (committed c) (pending c)
                       (calls c ++ [Execute (mkMapping form_id (r_id fld) index)]))
      end
  end.

(** [insert_mappings] *)
Definition insert_mappings (c : conn) (form_id : string)
  (resolved_fields : list resolved_field) : bool * conn :=
  match insert_loop form_id 1 resolved_fields c with
  | inl c1 =>
      match commit c1 with
      | Some c2 => (true, c2)
      | None => (false, rollback (mkConn (committed c1) (pending c1) (calls c1 ++ [Commit])))
      end
  | inr c1 => (false, rollback c1)
  end.

(** The rows [insert_mappings] writes: one per field, numbered from
    [index] in input order. *)
Fixpoint mappings_from (form_id : string) (index : Z)
  (resolved_fields : list resolved_field) : list mapping :=
  match resolved_fields with
  | [] => []
  | fld :: rest =>
      mkMapping form_id (r_id fld) index :: mappings_from form_id (index + 1) rest
  end.

(** Every row of [rows] is accepted when inserted after [seen] and the rows
    before it. *)
Fixpoint all_accepted (seen : list mapping) (rows : list mapping) : bool :=
  match rows with
  | [] => true
  | row :: rest => accepts seen row && all_accepted (seen ++ [row]) rest
  end.

End Transactions.

(** Two instances for the section variables: a schema that allows a field
    once per form, and a COMMIT that never fails. *)
Definition once_per_form (seen : list mapping) (row : mapping) : bool :=
  negb (existsb (fun m => (m_form_id m =? m_form_id row)
                          && (m_field_id m =? m_field_id row)) seen).

Definition always (_ _ : list mapping) : bool := true.

End FormFieldMapping.

(** ** category_manager: utils/db_connection.py and main.py *)

Module CategoryManager.

Import PyStr.

(** *** Values *)

(** An id the database generates ([RETURNING id]): the n-th id generated is
    modelled by [n]; the program only stores ids and hands them back. *)
Definition uuid : Type := nat.

(** A row of the category table. *)
Record category_row := mkRow {
  c_id : uuid;
  c_name : string;
  c_description : string;
  c_category_type : string;
  c_visibility_scope : string;
  c_entity_id : string;
  c_parent_category_id : option uuid
}.

(** A statement parameter. *)
Inductive sqlval :=
| SqlStr (s : string)
| SqlId (i : uuid)
| SqlNull.

(** The INSERT of [bulk_insert_categories]: the placeholder groups joined
    into its VALUES clause, and the flat parameter list. *)
Record insert_query := mkQuery {
  values_list : list string;
  params : list sqlval
}.

(** The dicts [{'id': ..., 'name': ...}] of [main.py]. *)
Record category := mkCategory {
  cat_id : uuid;
  cat_name : string
}.

(** What [get_yes_no] is asked: the subcategory question of
    [process_subcategories_depth_first], with its indentation and category
    name, or the commit question of [main]. *)
Inductive prompt :=
| SubcategoryPrompt (indent : string) (name : string)
| CommitPrompt.

(** What a run leaves behind, oldest first: the answers [get_yes_no]
    returned and the calls made on the psycopg2 connection. *)
Inductive event :=
| EvAsk (p : prompt) (answer : bool)
| EvExecute (q : insert_query) (result : option (list uuid))
| EvCommit
| EvRollback.

(** One action at the terminal: a line typed, or Ctrl-C at a prompt. *)
Inductive inp :=
| Line (s : string)
| CtrlC.

Inductive exn :=
| EOFError
| KeyboardInterrupt
| DbError          (* psycopg2.Error *)
| IndexError
| AttributeError.

(** [KeyboardInterrupt] is the one exception here that [except Exception]
    does not catch. *)
Definition is_Exception (e : exn) : bool :=
  match e with KeyboardInterrupt => false | _ => true end.

(** The [DatabaseConnection] object together with the server behind it. *)
Record database := mkDb {
  reachable : bool;               (* psycopg2.connect succeeds *)
  connected : bool;               (* self.connection is not None *)
  autocommit : bool;
  committed : list category_row;
  pending : list category_row;    (* written by the open transaction *)
  next_id : uuid
}.

Record world := mkWorld {
  stdin : list inp;
  db : database;
  trace : list event
}.

(** How a computation ends: a value, an exception, or the run cut off
    because the fuel that bounds the loops and the recursion ran out. *)
Inductive outcome (A : Type) :=
| Ret (a : A)
| Raise (e : exn)
| OutOfFuel.
Arguments Ret {A} a.
Arguments Raise {A} e.
Arguments OutOfFuel {A}.

Definition M (A : Type) : Type := world -> outcome A * world.

Definition ret {A} (a : A) : M A := fun w => (Ret a, w).

Definition bind {A B} (m : M A) (k : A -> M B) : M B :=
  fun w =>
    match m w with
    | (Ret a, w') => k a w'
    | (Raise e, w') => (Raise e, w')
    | (OutOfFuel, w') => (OutOfFuel, w')
    end.

Definition raise {A} (e : exn) : M A := fun w => (Raise e, w).

Notation "x <- m ;; k" := (bind m (fun x => k))
  (at level 61, m at next level, right associativity).
Notation "m ;;; k" := (bind m (fun _ => k))
  (at level 61, right associativity).

Definition set_stdin (l : list inp) (w : world) : world :=
  mkWorld l (db w) (trace w).

Definition set_db (d : database) (w : world) : world :=
  mkWorld (stdin w) d (trace w).

Definition log (evs : list event) (w : world) : world :=
  mkWorld (stdin w) (db w) (trace w ++ evs).

(** *** main.py: input helpers *)

Definition is_hex (c : ascii) : bool :=
  let n := nat_of_ascii c in
  (((48 <=? n) && (n <=? 57)) || ((97 <=? n) && (n <=? 102))
   || ((65 <=? n) && (n <=? 70)))%nat.

(** [[0-9a-fA-F]{n}] at the head of [s]: what follows it. *)
Fixpoint hex_run (n : nat) (s : string) : option string :=
  match n with
  | O => Some s
  | S n' =>
      match s with
      | String c s' => if is_hex c then hex_run n' s' else None
      | EmptyString => None
      end
  end.

Definition dash_then (n : nat) (s : string) : option string :=
  match s with
  | String c s' => if Ascii.eqb c "-" then hex_run n s' else None
  | EmptyString => None
  end.

Definition and_then {A B} (o : option A) (f : A -> option B) : option B :=
  match o with Some a => f a | None => None end.

(** [UUID_PATTERN.match(value)]; [$] also matches before a final newline. *)
Definition uuid_pattern_match (value : string) : bool :=
  match and_then (and_then (and_then (and_then (hex_run 8 value)
          (dash_then 4)) (dash_then 4)) (dash_then 4)) (dash_then 12) with
  | Some EmptyString => true
  | Some (String c EmptyString) => Ascii.eqb c "010"
  | _ => false
  end.

(** The loop the four input helpers share:
    [while True: value = input(prompt); if <accepted>: return <result>;
    print(<warning>)], on the pending input.  [parse] is the test and the
    result; [input()] raises [EOFError] when nothing is pending and
    [KeyboardInterrupt] on Ctrl-C. *)
Fixpoint prompt_until {A} (parse : string -> option A) (pending_input : list inp)
  : outcome A * list inp :=
  match pending_input with
  | [] => (Raise EOFError, [])
  | CtrlC :: rest => (Raise KeyboardInterrupt, rest)
  | Line s :: rest =>
      match parse s with
      | Some a => (Ret a, rest)
      | None => prompt_until parse rest
      end
  end.

Definition ask {A} (parse : string -> option A) : M A :=
  fun w =>
    let (r, rest) := prompt_until parse (stdin w) in
    (r, set_stdin rest w).

(** [get_valid_uuid] *)
Definition get_valid_uuid : M string :=
  ask (fun line =>
         let value := strip line in
         if uuid_pattern_match value then Some value else None).

(** [get_non_empty_string] *)
Definition get_non_empty_string : M string :=
  ask (fun line =>
         let value := strip line in
         if is_empty value then None else Some value).

(** [value in ('y', 'yes')] and [value in ('n', 'no')] *)
Definition yes_no_value (line : string) : option bool :=
  let value := lower (strip line) in
  if (value =? "y") || (value =? "yes") then Some true
  else if (value =? "n") || (value =? "no") then Some false
  else None.

(** [get_yes_no]; the answer returned is recorded in the trace. *)
Definition get_yes_no (p : prompt) : M bool :=
  answer <- ask yes_no_value ;;
  fun w => (Ret answer, log [EvAsk p answer] w).

(** [str.split()] with no argument: the maximal runs without whitespace. *)
Fixpoint split_ws (s : string) (word : string) : list string :=
  match s with
  | EmptyString => if is_empty word then [] else [word]
  | String c s' =>
      if isspace c
      then (if is_empty word then split_ws s' "" else word :: split_ws s' "")
      else split_ws s' (word ++ String c "")%string
  end.

Definition split (s : string) : list string := split_ws s "".

(** [sep.join(words)] *)
Fixpoint join (sep : string) (words : list string) : string :=
  match words with
  | [] => ""
  | [w] => w
  | w :: rest => (w ++ sep ++ join sep rest)%string
  end.

(** [generate_description] *)
Definition generate_description (category_name : string) : string :=
  let clean_name := lower (strip category_name) in
  let templates :=
    [ ("Category for managing " ++ clean_name ++ " related items")%string;
      ("Contains all " ++ clean_name ++ " related entries")%string;
      ("Handles " ++ clean_name ++ " classification and organization")%string;
      ("Groups items related to " ++ clean_name ++ " topic")%string;
      ("Organizes content under " ++ clean_name ++ " classification")%string ] in
  let index := (len clean_name mod Z.of_nat (List.length templates))%Z in
  let description := nth (Z.to_nat index) templates "" in
  let words := split description in
  if (10 <? Z.of_nat (List.length words))%Z
  then join " " (firstn 10 words)
  else description.

(** The inner [while True] loop of [collect_category_names_multiline]: the
    stripped lines up to the first blank line or the end of the input. *)
Fixpoint read_lines (pending_input : list inp) (lines : list string)
  (empty_line_count : Z) : outcome (list string) * list inp :=
  match pending_input with
  | [] => (Ret lines, [])
  | CtrlC :: rest => (Raise KeyboardInterrupt, rest)
  | Line line :: rest =>
      if strip line =? "" then
        let empty_line_count := (empty_line_count + 1)%Z in
        if (1 <=? empty_line_count)%Z then (Ret lines, rest)
        else read_lines rest lines empty_line_count
      else
        let empty_line_count := 0%Z in
        read_lines rest (lines ++ [strip line]) empty_line_count
  end.

Definition read_block : M (list string) :=
  fun w =>
    let (r, rest) := read_lines (stdin w) [] 0%Z in
    (r, set_stdin rest w).

(** [[line for line in lines if line]] *)
Definition non_empty (lines : list string) : list string :=
  List.filter (fun line => negb (is_empty line)) lines.

Section Tool.

(** [int(s)]: [None] when it raises [ValueError]. *)
Variable py_int : string -> option Z.

(** The constraints of the schema (keys, foreign keys, checks): whether a
    row may be inserted, given the rows the transaction sees. *)
Variable accepts : list category_row -> category_row -> bool.

(** [get_positive_integer] *)
Definition get_positive_integer : M Z :=
  ask (fun line =>
         match py_int (strip line) with
         | Some value => if (0 <? value)%Z then Some value else None
         | None => None
         end).

(** [collect_category_names_multiline]: one unit of fuel per round of the
    outer [while True]. *)
Fixpoint collect_category_names_multiline (fuel : nat) (count : Z)
  (indent : string) : M (list (string * string)) :=
  match fuel with
  | O => fun w => (OutOfFuel, w)
  | S fuel' =>
      lines <- read_block ;;
      let names := non_empty lines in
      if negb (Z.of_nat (List.length names) =? count)%Z
      then collect_category_names_multiline fuel' count indent
      else ret (map (fun name => (name, generate_description name)) names)
  end.


(** *** utils/db_connection.py *)

Definition values_template : string := "(%s, %s, %s, %s, %s, %s)".

Definition sql_of_parent (parent_category_id : option uuid) : sqlval :=
  match parent_category_id with
  | Some i => SqlId i
  | None => SqlNull
  end.

(** The [for name, description in categories] loop that builds the VALUES
    clause and the parameters. *)
Fixpoint build_values (categories : list (string * string)) (entity_id : string)
  (parent_category_id : option uuid) (values_list : list string)
  (params : list sqlval) : list string * list sqlval :=
  match categories with
  | [] => (values_list, params)
  | (name, description) :: rest =>
      build_values rest entity_id parent_category_id
        (values_list ++ [values_template])
        (params ++ [SqlStr name; SqlStr description; SqlStr "OTHER";
                    SqlStr "PUBLIC"; SqlStr entity_id;
                    sql_of_parent parent_category_id])
  end.

(** The server's reading of the statement.  Each placeholder group takes the
    next six parameters, for the columns (name, description, category_type,
    visibility_scope, entity_id, parent_category_id); the id is the server's
    to choose. *)
Definition decode_row (ps : list sqlval) : option (uuid -> category_row) :=
  match ps with
  | [SqlStr n; SqlStr d; SqlStr t; SqlStr v; SqlStr e; SqlNull] =>
      Some (fun i => mkRow i n d t v e None)
  | [SqlStr n; SqlStr d; SqlStr t; SqlStr v; SqlStr e; SqlId p] =>
      Some (fun i => mkRow i n d t v e (Some p))
  | _ => None
  end.

Fixpoint decode_values (groups : list string) (ps : list sqlval)
  : option (list (uuid -> category_row)) :=
  match groups with
  | [] => match ps with [] => Some [] | _ => None end
  | g :: groups' =>
      if g =? values_template then
        match decode_row (firstn 6 ps), decode_values groups' (skipn 6 ps) with
        | Some r, Some rs => Some (r :: rs)
        | _, _ => None
        end
      else None
  end.

(** The rows are inserted in the order of the VALUES clause, each with the
    next id; one row the constraints refuse fails the whole statement. *)
Fixpoint insert_rows (seen : list category_row) (id : uuid)
  (rows : list (uuid -> category_row)) : option (list category_row) :=
  match rows with
  | [] => Some []
  | r :: rest =>
      if accepts seen (r id) then
        match insert_rows (seen ++ [r id]) (S id) rest with
        | Some inserted => Some (r id :: inserted)
        | None => None
        end
      else None
  end.

(** Rows written by a statement: part of the open transaction, or committed
    at once under autocommit. *)
Definition add_rows (d : database) (rows : list category_row) : database :=
  if autocommit d
  then mkDb (reachable d) (connected d) (autocommit d)
         (committed d ++ rows) (pending d) (next_id d + List.length rows)
  else mkDb (reachable d) (connected d) (autocommit d)
         (committed d) (pending d ++ rows) (next_id d + List.length rows).

(** [cursor.execute(insert_query, params)] followed by [cursor.fetchall()]:
    the ids of the inserted rows in the order of the VALUES clause, or
    [None] when psycopg2 raises. *)
Definition execute (q : insert_query) (d : database)
  : option (list uuid * database) :=
  match values_list q with
  | [] => None
  | _ =>
      match decode_values (values_list q) (params q) with
      | None => None
      | Some rows =>
          match insert_rows (committed d ++ pending d) (next_id d) rows with
          | None => None
          | Some inserted => Some (map c_id inserted, add_rows d inserted)
          end
      end
  end.

(** [connection.commit()] and [connection.rollback()] on the server. *)
Definition server_commit (d : database) : database :=
  mkDb (reachable d) (connected d) (autocommit d)
    (committed d ++ pending d) [] (next_id d).

Definition server_rollback (d : database) : database :=
  mkDb (reachable d) (connected d) (autocommit d)
    (committed d) [] (next_id d).

(** [DatabaseConnection()] *)
Definition DatabaseConnection (w : world) : world :=
  let d := db w in
  set_db (mkDb (reachable d) false (autocommit d) (committed d) [] (next_id d)) w.

(** [DatabaseConnection.connect] *)
Definition connect (w : world) : bool * world :=
  let d := db w in
  if reachable d
  then (true,
        set_db (mkDb (reachable d) true false (committed d) [] (next_id d)) w)
  else (false, w).

(** [DatabaseConnection.disconnect]: closing the connection drops what the
    open transaction wrote. *)
Definition disconnect : M unit :=
  fun w =>
    if connected (db w)
    then (Ret tt, set_db (server_rollback (db w)) w)
    else (Ret tt, w).

(** [DatabaseConnection.commit] *)
Definition commit : M unit :=
  fun w =>
    if connected (db w)
    then (Ret tt, log [EvCommit] (set_db (server_commit (db w)) w))
    else (Ret tt, w).

(** [DatabaseConnection.rollback] *)
Definition rollback : M unit :=
  fun w =>
    if connected (db w)
    then (Ret tt, log [EvRollback] (set_db (server_rollback (db w)) w))
    else (Ret tt, w).

(** [DatabaseConnection.bulk_insert_categories] *)
Definition bulk_insert_categories (categories : list (string * string))
  (entity_id : string) (parent_category_id : option uuid) : M (list uuid) :=
  fun w =>
    match categories with
    | [] => (Ret [], w)
    | _ =>
        let (values_list, params) :=
          build_values categories entity_id parent_category_id [] [] in
        let insert_query := mkQuery values_list params in
        if negb (connected (db w)) then (Raise AttributeError, w)
        else
          match execute insert_query (db w) with
          | Some (generated_ids, d') =>
              (Ret generated_ids,
               log [EvExecute insert_query (Some generated_ids)] (set_db d' w))
          | None =>
              (Raise DbError,
               log [EvExecute insert_query None; EvRollback]
                 (set_db (server_rollback (db w)) w))
          end
    end.

(** *** main.py: the traversal *)

(** [s * n] on strings *)
Fixpoint str_repeat (s : string) (n : nat) : string :=
  match n with
  | O => ""
  | S n' => (s ++ str_repeat s n')%string
  end.

Definition indent_of (level : Z) : string := str_repeat "  " (Z.to_nat level).

(** The loop [for i, (name, desc) in enumerate(sub_categories)] that pairs
    every name with [sub_ids[i]]. *)
Fixpoint inserted_from (i : nat) (sub_categories : list (string * string))
  (sub_ids : list uuid) (inserted_subs : list category)
  : outcome (list category) :=
  match sub_categories with
  | [] => Ret inserted_subs
  | (name, desc) :: rest =>
      match nth_error sub_ids i with
      | Some sub_id =>
          inserted_from (S i) rest sub_ids
            (inserted_subs ++ [mkCategory sub_id name])
      | None => Raise IndexError
      end
  end.

Definition inserted (sub_categories : list (string * string))
  (sub_ids : list uuid) : M (list category) :=
  fun w => (inserted_from 0 sub_categories sub_ids [], w).

(** What [process_subcategories_depth_first] does for an answer [has_sub];
    [recurse] is the recursive call. *)
Definition expand (fuel : nat) (recurse : list category -> Z -> M unit)
  (entity_id : string) (cat : category) (level : Z) (has_sub : bool) : M unit :=
  let indent := indent_of level in
  if has_sub then
    sub_count <- get_positive_integer ;;
    sub_categories <- collect_category_names_multiline fuel sub_count indent ;;
    sub_ids <- bulk_insert_categories sub_categories entity_id (Some (cat_id cat)) ;;
    inserted_subs <- inserted sub_categories sub_ids ;;
    recurse inserted_subs (level + 1)%Z
  else ret tt.

(** The body of the [for idx, cat in enumerate(categories, 1)] loop. *)
Definition process_category (fuel : nat) (recurse : list category -> Z -> M unit)
  (entity_id : string) (cat : category) (level : Z) : M unit :=
  let indent := indent_of level in
  has_sub <- get_yes_no (SubcategoryPrompt indent (cat_name cat)) ;;
  expand fuel recurse entity_id cat level has_sub.

(** [process_subcategories_depth_first]: one unit of fuel per level of the
    recursion. *)
Fixpoint process_subcategories_depth_first (fuel : nat) (entity_id : string)
  (categories : list category) (level : Z) : M unit :=
  match fuel with
  | O => fun w => (OutOfFuel, w)
  | S fuel' =>
      (fix for_each (cats : list category) : M unit :=
         match cats with
         | [] => ret tt
         | cat :: rest =>
             process_category fuel'
               (process_subcategories_depth_first fuel' entity_id)
               entity_id cat level ;;;
             for_each rest
         end) categories
  end.

(** *** main.py: [main] *)

Inductive exit :=
| Finished
| SysExit (code : Z)
| Cut.                     (* the fuel ran out *)

(** The [try] block of [main]. *)
Definition main_body (fuel : nat) : M unit :=
  entity_id <- get_valid_uuid ;;
  top_count <- get_positive_integer ;;
  top_categories <- collect_category_names_multiline fuel top_count "" ;;
  top_ids <- bulk_insert_categories top_categories entity_id None ;;
  inserted_top <- inserted top_categories top_ids ;;
  process_subcategories_depth_first fuel entity_id inserted_top 1 ;;;
  confirm <- get_yes_no CommitPrompt ;;
  if confirm then commit else rollback.

(** [main] *)
Definition main (fuel : nat) (w : world) : exit * world :=
  let w := DatabaseConnection w in
  let (ok, w) := connect w in
  if negb ok then (SysExit 1, w)
  else
    match main_body fuel w with
    | (Ret _, w) => (Finished, snd (disconnect w))
    | (Raise KeyboardInterrupt, w) =>
        (Finished, snd (disconnect (snd (rollback w))))
    | (Raise _, w) =>
        (Finished, snd (disconnect (snd (rollback w))))
    | (OutOfFuel, w) => (Cut, w)
    end.

End Tool.

(** *** Vocabulary of the properties *)

(** An outcome of reading the terminal: a value, or one of the two
    exceptions [input()] raises. *)
Definition from_input {A} (r : outcome A) : Prop :=
  match r with
  | Ret _ => True
  | Raise EOFError => True
  | Raise KeyboardInterrupt => True
  | _ => False
  end.

(** One category as the server reads it back: the row, given its id. *)
Definition row_maker (entity_id : string) (parent : option uuid)
  (c : string * string) : uuid -> category_row :=
  fun i => mkRow i (fst c) (snd c) "OTHER" "PUBLIC" entity_id parent.

(** The six parameters of one category. *)
Definition category_params (entity_id : string) (parent_category_id : option uuid)
  (c : string * string) : list sqlval :=
  [SqlStr (fst c); SqlStr (snd c); SqlStr "OTHER"; SqlStr "PUBLIC";
   SqlStr entity_id; sql_of_parent parent_category_id].

(** The one statement that inserts [categories]. *)
Definition insert_query_for (categories : list (string * string))
  (entity_id : string) (parent_category_id : option uuid) : insert_query :=
  mkQuery (repeat values_template (List.length categories))
    (flat_map (category_params entity_id parent_category_id) categories).

(** The rows of [categories], with the ids from [id] on. *)
Fixpoint category_rows (id : uuid) (categories : list (string * string))
  (entity_id : string) (parent_category_id : option uuid) : list category_row :=
  match categories with
  | [] => []
  | c :: rest =>
      mkRow id (fst c) (snd c) "OTHER" "PUBLIC" entity_id parent_category_id
      :: category_rows (S id) rest entity_id parent_category_id
  end.

(** Every row of [rows] is accepted when inserted after [seen] and the rows
    before it. *)
Fixpoint rows_accepted (accepts : list category_row -> category_row -> bool)
  (seen rows : list category_row) : bool :=
  match rows with
  | [] => true
  | row :: rest => accepts seen row && rows_accepted accepts (seen ++ [row]) rest
  end.

(** The dicts for the names of [categories] and the ids returned for them. *)
Fixpoint categories_of (categories : list (string * string)) (ids : list uuid)
  : list category :=
  match categories, ids with
  | c :: rest, i :: ids' => mkCategory i (fst c) :: categories_of rest ids'
  | _, _ => []
  end.

(** The rows a statement wrote, from the statement and the ids returned. *)
Fixpoint with_ids (rows : list (uuid -> category_row)) (ids : list uuid)
  : list category_row :=
  match rows, ids with
  | r :: rows', i :: ids' => r i :: with_ids rows' ids'
  | _, _ => []
  end.

Definition rows_of (q : insert_query) (ids : list uuid) : list category_row :=
  match decode_values (values_list q) (params q) with
  | Some rows => with_ids rows ids
  | None => []
  end.

(** What one recorded call does to the database. *)
Definition apply_event (d : database) (e : event) : database :=
  match e with
  | EvAsk _ _ => d
  | EvExecute q (Some ids) => add_rows d (rows_of q ids)
  | EvExecute q None => d
  | EvCommit => server_commit d
  | EvRollback => server_rollback d
  end.

Definition replay (t : list event) (d : database) : database :=
  fold_left apply_event t d.

(** The rows the successful statements of a trace wrote. *)
Fixpoint inserted_rows (t : list event) : list category_row :=
  match t with
  | [] => []
  | EvExecute q (Some ids) :: t' => rows_of q ids ++ inserted_rows t'
  | _ :: t' => inserted_rows t'
  end.

Definition subcategory_question (level : Z) (cat : category) : prompt :=
  SubcategoryPrompt (indent_of level) (cat_name cat).

(** The trace of a depth-first traversal of [categories] at [level]: for
    each category in list order its question; after a yes the one statement
    that inserts its subcategories under it, then the whole traversal of
    these subcategories one level down; only then the next sibling. *)
Inductive depth_first (entity_id : string)
  : Z -> list category -> list event -> Prop :=
| df_done (level : Z) :
    depth_first entity_id level [] []
| df_no (level : Z) (cat : category) (rest : list category) (t : list event) :
    depth_first entity_id level rest t ->
    depth_first entity_id level (cat :: rest)
      (EvAsk (subcategory_question level cat) false :: t)
| df_yes (level : Z) (cat : category) (rest : list category)
    (subs : list (string * string)) (ids : list uuid)
    (t_sub t_rest : list event) :
    subs <> [] ->
    List.length ids = List.length subs ->
    depth_first entity_id (level + 1) (categories_of subs ids) t_sub ->
    depth_first entity_id level rest t_rest ->
    depth_first entity_id level (cat :: rest)
      (EvAsk (subcategory_question level cat) true
       :: EvExecute (insert_query_for subs entity_id (Some (cat_id cat))) (Some ids)
       :: t_sub ++ t_rest).

(** The trace of a run of [process_subcategories_depth_first] that may have
    stopped early, with how it ended. *)
Inductive df_run (entity_id : string)
  : Z -> list category -> outcome unit -> list event -> Prop :=
| run_done (level : Z) :
    df_run entity_id level [] (Ret tt) []
| run_cut (level : Z) (cats : list category) :
    df_run entity_id level cats OutOfFuel []
| run_unanswered (level : Z) (cat : category) (rest : list category) (e : exn) :
    e <> DbError ->
    df_run entity_id level (cat :: rest) (Raise e) []
| run_no (level : Z) (cat : category) (rest : list category)
    (r : outcome unit) (t : list event) :
    df_run entity_id level rest r t ->
    df_run entity_id level (cat :: rest) r
      (EvAsk (subcategory_question level cat) false :: t)
| run_yes_stopped (level : Z) (cat : category) (rest : list category)
    (r : outcome unit) :
    r <> Ret tt -> r <> Raise DbError ->
    df_run entity_id level (cat :: rest) r
      [EvAsk (subcategory_question level cat) true]
| run_yes_refused (level : Z) (cat : category) (rest : list category)
    (subs : list (string * string)) :
    subs <> [] ->
    df_run entity_id level (cat :: rest) (Raise DbError)
      [EvAsk (subcategory_question level cat) true;
       EvExecute (insert_query_for subs entity_id (Some (cat_id cat))) None;
       EvRollback]
| run_yes_below (level : Z) (cat : category) (rest : list category)
    (subs : list (string * string)) (ids : list uuid)
    (r : outcome unit) (t_sub : list event) :
    subs <> [] ->
    List.length ids = List.length subs ->
    r <> Ret tt ->
    df_run entity_id (level + 1) (categories_of subs ids) r t_sub ->
    df_run entity_id level (cat :: rest) r
      (EvAsk (subcategory_question level cat) true
       :: EvExecute (insert_query_for subs entity_id (Some (cat_id cat))) (Some ids)
       :: t_sub)
| run_yes (level : Z) (cat : category) (rest : list category)
    (subs : list (string * string)) (ids : list uuid)
    (r : outcome unit) (t_sub t_rest : list event) :
    subs <> [] ->
    List.length ids = List.length subs ->
    df_run entity_id (level + 1) (categories_of subs ids) (Ret tt) t_sub ->
    df_run entity_id level rest r t_rest ->
    df_run entity_id level (cat :: rest) r
      (EvAsk (subcategory_question level cat) true
       :: EvExecute (insert_query_for subs entity_id (Some (cat_id cat))) (Some ids)
       :: t_sub ++ t_rest).

(** How a call that did not return ends the run it is part of: with the
    exception it raised, or cut off as it was. *)
Definition stops {A B} (r : outcome A) (o : outcome B) : Prop :=
  match r, o with
  | Raise e, Raise e' => e = e'
  | OutOfFuel, OutOfFuel => True
  | _, _ => False
  end.

(** A depth-first traversal of [categories] at [level] as a run: from the
    world before it to how it ends and the world it leaves.  For each
    category in list order: the question is put to the terminal; on a no
    the run goes on with the next sibling; on a yes the number of
    subcategories and their names are read, the subcategories are inserted
    under the category in one call, the traversal of these subcategories,
    one level down, runs to its end, and only then the run goes on with the
    next sibling.  A call that raises ends the run there, with what it
    raised; [tr_cut] is the bound on the depth of the recursion, used up
    before the first question of a level. *)
Inductive traversal (py_int : string -> option Z)
  (accepts : list category_row -> category_row -> bool) (entity_id : string)
  : Z -> list category -> world -> outcome unit -> world -> Prop :=
| tr_done (level : Z) (w : world) :
    traversal py_int accepts entity_id level [] w (Ret tt) w
| tr_cut (level : Z) (cats : list category) (w : world) :
    traversal py_int accepts entity_id level cats w OutOfFuel w
| tr_unanswered (level : Z) (cat : category) (rest : list category)
    (r : outcome bool) (o : outcome unit) (w w1 : world) :
    get_yes_no (subcategory_question level cat) w = (r, w1) ->
    stops r o ->
    traversal py_int accepts entity_id level (cat :: rest) w o w1
| tr_no (level : Z) (cat : category) (rest : list category)
    (o : outcome unit) (w w1 w' : world) :
    get_yes_no (subcategory_question level cat) w = (Ret false, w1) ->
    traversal py_int accepts entity_id level rest w1 o w' ->
    traversal py_int accepts entity_id level (cat :: rest) w o w'
| tr_uncounted (level : Z) (cat : category) (rest : list category)
    (r : outcome Z) (o : outcome unit) (w w1 w2 : world) :
    get_yes_no (subcategory_question level cat) w = (Ret true, w1) ->
    get_positive_integer py_int w1 = (r, w2) ->
    stops r o ->
    traversal py_int accepts entity_id level (cat :: rest) w o w2
| tr_unnamed (level : Z) (cat : category) (rest : list category)
    (sub_count : Z) (rounds : nat) (r : outcome (list (string * string)))
    (o : outcome unit) (w w1 w2 w3 : world) :
    get_yes_no (subcategory_question level cat) w = (Ret true, w1) ->
    get_positive_integer py_int w1 = (Ret sub_count, w2) ->
    collect_category_names_multiline rounds sub_count (indent_of level) w2
    = (r, w3) ->
    stops r o ->
    traversal py_int accepts entity_id level (cat :: rest) w o w3
| tr_refused (level : Z) (cat : category) (rest : list category)
    (sub_count : Z) (rounds : nat) (subs : list (string * string))
    (r : outcome (list uuid)) (o : outcome unit) (w w1 w2 w3 w4 : world) :
    get_yes_no (subcategory_question level cat) w = (Ret true, w1) ->
    get_positive_integer py_int w1 = (Ret sub_count, w2) ->
    collect_category_names_multiline rounds sub_count (indent_of level) w2
    = (Ret subs, w3) ->
    bulk_insert_categories accepts subs entity_id (Some (cat_id cat)) w3
    = (r, w4) ->
    stops r o ->
    traversal py_int accepts entity_id level (cat :: rest) w o w4
| tr_below (level : Z) (cat : category) (rest : list category)
    (sub_count : Z) (rounds : nat) (subs : list (string * string))
    (ids : list uuid) (o : outcome unit) (w w1 w2 w3 w4 w5 : world) :
    get_yes_no (subcategory_question level cat) w = (Ret true, w1) ->
    get_positive_integer py_int w1 = (Ret sub_count, w2) ->
    collect_category_names_multiline rounds sub_count (indent_of level) w2
    = (Ret subs, w3) ->
    bulk_insert_categories accepts subs entity_id (Some (cat_id cat)) w3
    = (Ret ids, w4) ->
    List.length ids = List.length subs ->
    traversal py_int accepts entity_id (level + 1) (categories_of subs ids)
      w4 o w5 ->
    o <> Ret tt ->
    traversal py_int accepts entity_id level (cat :: rest) w o w5
| tr_yes (level : Z) (cat : category) (rest : list category)
    (sub_count : Z) (rounds : nat) (subs : list (string * string))
    (ids : list uuid) (o : outcome unit) (w w1 w2 w3 w4 w5 w' : world) :
    get_yes_no (subcategory_question level cat) w = (Ret true, w1) ->
    get_positive_integer py_int w1 = (Ret sub_count, w2) ->
    collect_category_names_multiline rounds sub_count (indent_of level) w2
    = (Ret subs, w3) ->
    bulk_insert_categories accepts subs entity_id (Some (cat_id cat)) w3
    = (Ret ids, w4) ->
    List.length ids = List.length subs ->
    traversal py_int accepts entity_id (level + 1) (categories_of subs ids)
      w4 (Ret tt) w5 ->
    traversal py_int accepts entity_id level rest w5 o w' ->
    traversal py_int accepts entity_id level (cat :: rest) w o w'.

(** Every statement of the trace comes right after a yes to the question
    about the category the statement inserts under. *)
Definition confirmed (entity_id : string) (t : list event) : Prop :=
  forall t1 q res t2,
    t = t1 ++ EvExecute q res :: t2 ->
    exists t0 level cat subs,
      t1 = t0 ++ [EvAsk (subcategory_question level cat) true] /\
      q = insert_query_for subs entity_id (Some (cat_id cat)).

(** The events of an open transaction: answers to subcategory questions
    and statements that succeeded. *)
Definition quiet_event (e : event) : Prop :=
  match e with
  | EvAsk (SubcategoryPrompt _ _) _ => True
  | EvExecute _ (Some _) => True
  | _ => False
  end.

(** The trace of a step before the commit question, by how the step ended:
    the transaction is still open, unless a statement was refused, and then
    the refused statement and the rollback come last. *)
Definition stage {A} (r : outcome A) (t : list event) : Prop :=
  match r with
  | Raise DbError =>
      exists t1 q,
        Forall quiet_event t1 /\ t = t1 ++ [EvExecute q None; EvRollback]
  | _ => Forall quiet_event t
  end.

(** The trace of the [try] block of [main]: when the block returns, the
    commit question and the commit or rollback that answers it come last. *)
Definition closing {A} (r : outcome A) (t : list event) : Prop :=
  match r with
  | Ret _ =>
      exists t1 a,
        Forall quiet_event t1 /\
        t = t1 ++ [EvAsk CommitPrompt a; if a then EvCommit else EvRollback]
  | _ => stage r t
  end.

(** A computation whose every run extends the trace by a [stage], the
    database following the trace. *)
Definition staged {A} (m : M A) : Prop :=
  forall w, exists t,
    trace (snd (m w)) = trace w ++ t /\
    db (snd (m w)) = replay t (db w) /\
    stage (fst (m w)) t.

Definition finishing {A} (m : M A) : Prop :=
  forall w, connected (db w) = true ->
    exists t,
      trace (snd (m w)) = trace w ++ t /\
      db (snd (m w)) = replay t (db w) /\
      closing (fst (m w)) t.


(** An instance for the constraints: category names are unique. *)
Definition unique_name (seen : list category_row) (row : category_row) : bool :=
  negb (existsb (fun x => c_name x =? c_name row) seen).

(** A session at the terminal, for the examples: two categories to go
    through, a database that holds nothing yet. *)
Definition demo_entity : string := "12345678-abcd-ABCD-0000-123456789012".

Definition demo_categories : list category :=
  [mkCategory 0 "Roads"; mkCategory 1 "Water"].

Definition demo_world (typed : list string) : world :=
  mkWorld (map Line typed) (mkDb true true false [] [] 2) [].

(** A reading of decimal numerals for [int]: digits only. *)
Fixpoint decimal_digits (s : string) (acc : Z) : option Z :=
  match s with
  | EmptyString => Some acc
  | String c s' =>
      let n := nat_of_ascii c in
      if ((48 <=? n) && (n <=? 57))%nat
      then decimal_digits s' (10 * acc + Z.of_nat (n - 48))%Z
      else None
  end.

Definition decimal (s : string) : option Z :=
  if is_empty s then None else decimal_digits s 0%Z.

End CategoryManager.

(** ** Vocabulary of the further properties *)

Module More.

Import PyStr.

(** Every character of [s] satisfies [P]. *)
Fixpoint all_chars (P : ascii -> Prop) (s : string) : Prop :=
  match s with
  | EmptyString => True
  | String c s' => P c /\ all_chars P s'
  end.

(** A COMMIT that always fails, for the examples. *)
Definition never (_ _ : list FormFieldMapping.mapping) : bool := false.

(** *** FormFieldMapping/main.py: the preview table *)

(** [s[:k]] *)
Definition slice_to (k : nat) (s : string) : string := substring 0 k s.

(** [s[:k] + "..." if len(s) > k else s] *)
Definition shorten (k : nat) (s : string) : string :=
  if (k <? String.length s)%nat then (slice_to k s ++ "...")%string else s.

(** The format [{s:<width}]: [s] padded with spaces on the right. *)
Definition ljust (s : string) (width : nat) : string :=
  (s ++ CategoryManager.str_repeat " " (width - String.length s))%string.

(** A line of the table in Field ID mode. *)
Definition preview_row_by_id (field : FormFieldMapping.resolved_field) : string :=
  let field_id_display := shorten 36 (FormFieldMapping.r_id field) in
  (ljust field_id_display 40 ++ " | "
   ++ ljust (FormFieldMapping.r_field_name field) 35)%string.

(** A line of the table in Field Name mode. *)
Definition preview_row_by_name (field : FormFieldMapping.resolved_field) : string :=
  let field_id_display := shorten 16 (FormFieldMapping.r_id field) in
  let input_display := shorten 22 (FormFieldMapping.r_input_name field) in
  let matched_display := shorten 27 (FormFieldMapping.r_field_name field) in
  (ljust input_display 25 ++ " | " ++ ljust matched_display 30 ++ " | "
   ++ ljust field_id_display 20)%string.

(** [display_preview_table]: the strings it prints, one per [print]. *)
Definition display_preview_table
  (resolved_fields : list FormFieldMapping.resolved_field) (input_mode : Z)
  : list string :=
  [(String "010" "" ++ CategoryManager.str_repeat "=" 80)%string;
   "Resolved Fields Preview";
   CategoryManager.str_repeat "=" 80]
  ++ (if (input_mode =? 1)%Z
      then [(ljust "Field ID" 40 ++ " | " ++ ljust "Field Name" 35)%string;
            CategoryManager.str_repeat "-" 80]
           ++ map preview_row_by_id resolved_fields
      else [(ljust "Input Name" 25 ++ " | " ++ ljust "Matched Field Name" 30
             ++ " | " ++ ljust "Field ID" 20)%string;
            CategoryManager.str_repeat "-" 80]
           ++ map preview_row_by_name resolved_fields)
  ++ [CategoryManager.str_repeat "=" 80].

(** A column of the table: the value, then spaces up to the width; a value
    longer than the width is not cut. *)
Definition padded (value : string) (width : nat) (col : string) : Prop :=
  exists pad,
    col = (value ++ pad)%string /\
    all_chars (fun c => c = " "%char) pad /\
    String.length col = Nat.max (String.length value) width.

(** A value as the table shows it: as it is up to [k] characters, else its
    first [k] characters and three dots. *)
Definition cut_to (k : nat) (s shown : string) : Prop :=
  (String.length s <= k /\ shown = s) \/
  (k < String.length s /\ shown = (substring 0 k s ++ "...")%string).

(** [[f for f in field_inputs if f]] in [main] *)
Definition keep_truthy (field_inputs : list string) : list string :=
  List.filter (fun f => negb (is_empty f)) field_inputs.

(** *** category_manager/main.py *)

(** The answers [get_yes_no] takes for a yes and for a no. *)
Definition says_yes (s : string) : Prop :=
  lower (strip s) = "y" \/ lower (strip s) = "yes".

Definition says_no (s : string) : Prop :=
  lower (strip s) = "n" \/ lower (strip s) = "no".

(** The last character of a string. *)
Fixpoint last_char (s : string) : option ascii :=
  match s with
  | EmptyString => None
  | String c s' =>
      match last_char s' with
      | Some d => Some d
      | None => Some c
      end
  end.

Definition hex_digits (n : nat) (s : string) : Prop :=
  String.length s = n /\
  all_chars (fun c => CategoryManager.is_hex c = true) s.

(** A word as [str.split()] yields them: not empty, no whitespace in it. *)
Definition is_word (w : string) : Prop :=
  w <> ""%string /\ all_chars (fun c => isspace c = false) w.

(** The words of its own that the template chosen for a name holds. *)
Definition template_words (clean_name : string) : nat :=
  nth (Z.to_nat (len clean_name mod 5)) [5; 4; 4; 5; 4] 0.

(** The [%s] placeholders of a piece of SQL text. *)
Fixpoint placeholders (s : string) : nat :=
  match s with
  | EmptyString => 0
  | String c s' =>
      match s' with
      | String d _ =>
          if (Ascii.eqb c "%" && Ascii.eqb d "s")%bool
          then S (placeholders s') else placeholders s'
      | EmptyString => 0
      end
  end.

(** A computation that never puts input back. *)
Definition shrinks {A} (m : CategoryManager.M A) : Prop :=
  forall w,
    List.length (CategoryManager.stdin (snd (m w)))
    <= List.length (CategoryManager.stdin w).

(** Two runs of one computation with different fuel, from [w]: they give
    the same, and when they are cut the input is used up. *)
Definition settled {A} (m m' : CategoryManager.M A) (w : CategoryManager.world)
  : Prop :=
  m' w = m w /\
  (fst (m w) = CategoryManager.OutOfFuel ->
   CategoryManager.stdin (snd (m w)) = []).

(** The questions of a trace. *)
Fixpoint questions (t : list CategoryManager.event) : nat :=
  match t with
  | [] => 0
  | CategoryManager.EvAsk _ _ :: t' => S (questions t')
  | _ :: t' => questions t'
  end.

(** Every row hangs under a category that is known when the row is
    written: one of [known], or a row written before it. *)
Fixpoint parents_known (known : list CategoryManager.uuid)
  (rows : list CategoryManager.category_row) : Prop :=
  match rows with
  | [] => True
  | r :: rest =>
      (exists p,
         CategoryManager.c_parent_category_id r = Some p /\ In p known) /\
      parents_known (CategoryManager.c_id r :: known) rest
  end.

(** The columns every row of a run shares. *)
Definition of_entity (entity_id : string)
  (r : CategoryManager.category_row) : Prop :=
  CategoryManager.c_entity_id r = entity_id /\
  CategoryManager.c_category_type r = "OTHER"%string /\
  CategoryManager.c_visibility_scope r = "PUBLIC"%string.

End More.

(** ** FormFieldMapping/main.py: the lookups and the wizard *)

Module Wizard.

Import PyStr FormFieldMapping.

(** The tool at work: the lines waiting at the terminal, the connection
    with the mapping table, and the two tables the tool only reads. *)
Record session := mkSession {
  s_stdin : list string;
  s_conn : conn;
  s_forms : list string;              (* the ids of the forms table *)
  s_form_fields : list field_row      (* the form_fields table *)
}.

Definition set_conn (c : conn) (s : session) : session :=
  mkSession (s_stdin s) c (s_forms s) (s_form_fields s).

(** How a piece of the loop body ends: it goes on with a value, runs into
    [continue] or [break], or [input()] raises [EOFError], which [main]
    does not catch. *)
Inductive flow (A : Type) :=
| Go (a : A)
| Continue
| Break
| Crash.
Arguments Go {A} a.
Arguments Continue {A}.
Arguments Break {A}.
Arguments Crash {A}.

Definition W (A : Type) : Type := session -> flow A * session.

Definition go {A} (a : A) : W A := fun s => (Go a, s).

Definition then_ {A B} (m : W A) (k : A -> W B) : W B :=
  fun s =>
    match m s with
    | (Go a, s') => k a s'
    | (Continue, s') => (Continue, s')
    | (Break, s') => (Break, s')
    | (Crash, s') => (Crash, s')
    end.

Notation "x <~ m ;; k" := (then_ m (fun x => k))
  (at level 61, m at next level, right associativity).

Definition continue_ {A} : W A := fun s => (Continue, s).
Definition break_ {A} : W A := fun s => (Break, s).

(** [input(...)] *)
Definition input : W string :=
  fun s =>
    match s_stdin s with
    | [] => (Crash, s)
    | line :: rest =>
        (Go line, mkSession rest (s_conn s) (s_forms s) (s_form_fields s))
    end.

(** A call that works on the connection only. *)
Definition on_conn {A} (f : conn -> A * conn) : W A :=
  fun s => let (a, c) := f (s_conn s) in (Go a, set_conn c s).

Section Tool.

(** [int(s)]: [None] when it raises [ValueError]. *)
Variable py_int : string -> option Z.

Variable accepts : list mapping -> mapping -> bool.
Variable commit_ok : list mapping -> list mapping -> bool.

(** Whether a SELECT with these parameters succeeds (a text that is no id
    of the column's type makes psycopg2 raise). *)
Variable query_ok : list string -> bool.

(** The end of the four lookups: [conn.commit()] after the SELECT, and the
    [except] branch with [conn.rollback()] when the SELECT or the commit
    raised. *)
Definition lookup {A} (params : list string) (result failure : A) (c : conn)
  : A * conn :=
  if query_ok params then
    match commit commit_ok c with
    | Some c' => (result, c')
    | None =>
        (failure,
         rollback (mkConn (committed c) (pending c) (calls c ++ [Commit])))
    end
  else (failure, rollback c).

(** [validate_form_exists] *)
Definition validate_form_exists (forms : list string) (form_id : string)
  (c : conn) : bool * conn :=
  lookup [form_id] (existsb (fun id => id =? form_id) forms) false c.

(** [get_field_by_id] *)
Definition get_field_by_id (form_fields : list field_row) (field_id : string)
  (c : conn) : option field_row * conn :=
  lookup [field_id] (find (fun row => fst row =? field_id) form_fields) None c.

(** [get_all_fields], with its query *)
Definition get_all_fields (form_fields : list field_row) (c : conn)
  : list field * conn :=
  lookup [] (FormFieldMapping.get_all_fields form_fields) [] c.

(** [check_existing_mapping] *)
Definition check_existing_mapping (form_id field_id : string) (c : conn)
  : bool * conn :=
  lookup [form_id; field_id]
    (existsb (fun m => (m_form_id m =? form_id) && (m_field_id m =? field_id))
       (committed c ++ pending c))
    false c.

(** The three lists the resolution fills. *)
Record resolution := mkResolution {
  resolved_fields : list resolved_field;
  unresolved_inputs : list string;
  duplicate_mappings : list string
}.

(** The loop of [main] that resolves the inputs by field id. *)
Fixpoint resolve_by_id (form_fields : list field_row) (form_id : string)
  (field_inputs : list string) (r : resolution) (c : conn) : resolution * conn :=
  match field_inputs with
  | [] => (r, c)
  | field_input :: rest =>
      let (field, c1) := get_field_by_id form_fields field_input c in
      match field with
      | Some row =>
          let (dup, c2) := check_existing_mapping form_id (fst row) c1 in
          if dup then
            resolve_by_id form_fields form_id rest
              (mkResolution (resolved_fields r) (unresolved_inputs r)
                 (duplicate_mappings r ++ [field_input])) c2
          else
            resolve_by_id form_fields form_id rest
              (mkResolution
                 (resolved_fields r ++ [mkResolved (fst row) (snd row) field_input])
                 (unresolved_inputs r) (duplicate_mappings r)) c2
      | None =>
          resolve_by_id form_fields form_id rest
            (mkResolution (resolved_fields r)
               (unresolved_inputs r ++ [field_input]) (duplicate_mappings r)) c1
      end
  end.

(** The loop of [main] that resolves the inputs by field name. *)
Fixpoint resolve_by_name (all_fields : list field) (form_id : string)
  (field_inputs : list string) (r : resolution) (c : conn) : resolution * conn :=
  match field_inputs with
  | [] => (r, c)
  | field_input :: rest =>
      match resolve_field_by_name all_fields field_input with
      | Some field =>
          let (dup, c1) := check_existing_mapping form_id (r_id field) c in
          if dup then
            resolve_by_name all_fields form_id rest
              (mkResolution (resolved_fields r) (unresolved_inputs r)
                 (duplicate_mappings r ++ [field_input])) c1
          else
            resolve_by_name all_fields form_id rest
              (mkResolution (resolved_fields r ++ [field])
                 (unresolved_inputs r) (duplicate_mappings r)) c1
      | None =>
          resolve_by_name all_fields form_id rest
            (mkResolution (resolved_fields r)
               (unresolved_inputs r ++ [field_input]) (duplicate_mappings r)) c
      end
  end.

Definition is_nil {A} (l : list A) : bool :=
  match l with [] => true | _ => false end.

(** [input(...).strip().lower()] compared with ['y'] *)
Definition answered_y (line : string) : bool := lower (strip line) =? "y".

(** One round of the [while True] loop of [main]; what it prints is left
    out. *)
Definition round : W unit :=
  line <~ input ;;
  let form_id := strip line in
  if is_empty form_id then continue_ else
  valid <~ (fun s => on_conn (validate_form_exists (s_forms s) form_id) s) ;;
  if negb valid then continue_ else
  line <~ input ;;
  match py_int (strip line) with
  | None => continue_
  | Some num_fields =>
  if (num_fields <=? 0)%Z then continue_ else
  line <~ input ;;
  match py_int (strip line) with
  | None => continue_
  | Some input_mode =>
  if negb ((input_mode =? 1)%Z || (input_mode =? 2)%Z) then continue_ else
  field_inputs <~ (fun s =>
                     let (lines, rest) := get_bulk_input (s_stdin s) in
                     (Go lines,
                      mkSession rest (s_conn s) (s_forms s) (s_form_fields s))) ;;
  let field_inputs := More.keep_truthy field_inputs in
  if negb (Z.of_nat (List.length field_inputs) =? num_fields)%Z then continue_ else
  r <~ (if (input_mode =? 1)%Z then
          fun s =>
            on_conn (resolve_by_id (s_form_fields s) form_id field_inputs
                       (mkResolution [] [] [])) s
        else
          all_fields <~ (fun s => on_conn (get_all_fields (s_form_fields s)) s) ;;
          if is_nil all_fields then continue_ else
          on_conn (resolve_by_name all_fields form_id field_inputs
                     (mkResolution [] [] []))) ;;
  if negb (is_nil (unresolved_inputs r)) then continue_ else
  if negb (is_nil (duplicate_mappings r)) then continue_ else
  confirm <~ input ;;
  if negb (answered_y confirm) then
    retry <~ input ;;
    if answered_y retry then continue_ else break_
  else
  inserted <~ on_conn (fun c =>
                         insert_mappings accepts commit_ok c form_id
                           (resolved_fields r)) ;;
  another <~ input ;;
  if negb (answered_y another) then break_ else go tt
  end end.

(** How [main] ends. *)
Inductive ending :=
| Closed           (* the loop was left and the connection closed *)
| NoConnection     (* [get_connection] returned [None] *)
| Uncaught         (* [EOFError] out of [input()] *)
| Cut.             (* the fuel ran out *)

(** The [while True] loop of [main], one unit of fuel per round. *)
Fixpoint rounds (fuel : nat) (s : session) : ending * session :=
  match fuel with
  | O => (Cut, s)
  | S fuel' =>
      match round s with
      | (Go _, s') => rounds fuel' s'
      | (Continue, s') => rounds fuel' s'
      | (Break, s') => (Closed, s')
      | (Crash, s') => (Uncaught, s')
      end
  end.

(** [main]; [reachable] tells whether [get_connection] succeeds.  The
    [conn.close()] after the loop is left out: the connection record has no
    closed state. *)
Definition main (fuel : nat) (reachable : bool) (s : session)
  : ending * session :=
  if negb reachable then (NoConnection, s) else rounds fuel s.

End Tool.

(** Instances for the examples: every SELECT succeeds; a session with one
    form and two fields. *)
Definition any_query (_ : list string) : bool := true.

Definition demo_session (typed : list string) : session :=
  mkSession typed (mkConn [] [] []) ["form-9"]
    [("f-1", "first_name"); ("f-2", "E-Mail")].

(** A resolved field that is a row of the form_fields table. *)
Definition listed (form_fields : list field_row) (f : resolved_field) : Prop :=
  In (r_id f, r_field_name f) form_fields.

(** What a round may add to the mapping table: the rows, numbered from 1,
    of fields of the form_fields table for a form of the forms table. *)
Definition batch (s : session) (rows : list mapping) : Prop :=
  exists form_id fields,
    fields <> [] /\
    rows = mappings_from form_id 1 fields /\
    In form_id (s_forms s) /\
    Forall (listed (s_form_fields s)) fields.

(** How a resolved field comes from the line typed for it: in Field ID
    mode (1) the line is the id of the first such row of the form_fields
    table; in Field Name mode [resolve_field_by_name] finds it among all
    the fields of the table. *)
Definition resolves (input_mode : Z) (form_fields : list field_row)
  (f : resolved_field) : Prop :=
  if (input_mode =? 1)%Z
  then find (fun row => fst row =? r_input_name f) form_fields
       = Some (r_id f, r_field_name f)
  else resolve_field_by_name (FormFieldMapping.get_all_fields form_fields)
         (r_input_name f) = Some f.

(** The lines of a round that writes: the form id, the number of fields,
    the mode, the block of field lines up to its blank line, and the [y]
    that confirms.  The fields are those of the lines of the block, one
    for one and in their order. *)
Definition entered (py_int : string -> option Z) (s : session)
  (form_id : string) (fields : list resolved_field) : Prop :=
  exists l0 l1 l2 block input_mode,
    s_stdin s = l0 :: l1 :: l2 :: block /\
    form_id = strip l0 /\
    py_int (strip l1) = Some (Z.of_nat (List.length fields)) /\
    py_int (strip l2) = Some input_mode /\
    (input_mode = 1 \/ input_mode = 2)%Z /\
    map r_input_name fields = More.keep_truthy (fst (get_bulk_input block)) /\
    Forall (resolves input_mode (s_form_fields s)) fields /\
    exists confirm rest,
      snd (get_bulk_input block) = confirm :: rest /\
      answered_y confirm = true.

(** Nothing has been written since [s0]: same tables, same committed rows,
    no transaction open. *)
Definition untouched (s0 s : session) : Prop :=
  s_forms s = s_forms s0 /\
  s_form_fields s = s_form_fields s0 /\
  pending (s_conn s) = [] /\
  committed (s_conn s) = committed (s_conn s0).

(** At most one batch has been written since [s0]. *)
Definition one_batch (s0 s : session) : Prop :=
  s_forms s = s_forms s0 /\
  s_form_fields s = s_form_fields s0 /\
  pending (s_conn s) = [] /\
  (committed (s_conn s) = committed (s_conn s0) \/
   exists rows,
     batch s0 rows /\
     committed (s_conn s) = committed (s_conn s0) ++ rows).

(** Batches have been written since [s0], and nothing else. *)
Definition batches (s0 s : session) : Prop :=
  s_forms s = s_forms s0 /\
  s_form_fields s = s_form_fields s0 /\
  pending (s_conn s) = [] /\
  exists bs,
    Forall (batch s0) bs /\
    committed (s_conn s) = committed (s_conn s0) ++ List.concat bs.

End Wizard.

(** ** Properties of the string builtins *)

Module PyStrFacts.

Import PyStr.

Lemma lower_char_idem (c : ascii) : lower_char (lower_char c) = lower_char c.
Proof. destruct c as [[] [] [] [] [] [] [] []]; reflexivity. Qed.

Lemma lower_idem (s : string) : lower (lower s) = lower s.
Proof.
  induction s as [|c s IH]; simpl; [reflexivity|].
  now rewrite lower_char_idem, IH.
Qed.

(** Lowercasing keeps whitespace whitespace, and nothing else becomes one. *)
Lemma isspace_lower_char (c : ascii) : isspace (lower_char c) = isspace c.
Proof. destruct c as [[] [] [] [] [] [] [] []]; reflexivity. Qed.

Section Filter.

Variable keep : ascii -> bool.
Hypothesis keep_drops_space : forall c, isspace c = true -> keep c = false.

Lemma filter_lstrip (s : string) : filter keep (lstrip s) = filter keep s.
Proof.
  induction s as [|c s IH]; simpl; [reflexivity|].
  destruct (isspace c) eqn:E; [|reflexivity].
  now rewrite (keep_drops_space _ E).
Qed.

Lemma filter_rstrip (s : string) : filter keep (rstrip s) = filter keep s.
Proof.
  induction s as [|c s IH]; simpl; [reflexivity|].
  destruct (rstrip s) as [|d r] eqn:R.
  - simpl in IH. rewrite <- IH.
    destruct (isspace c) eqn:E; simpl; [|reflexivity].
    now rewrite (keep_drops_space _ E).
  - cbn [filter]. cbn [filter] in IH. now rewrite IH.
Qed.

Lemma filter_strip (s : string) : filter keep (strip s) = filter keep s.
Proof. unfold strip. now rewrite filter_rstrip, filter_lstrip. Qed.

End Filter.

Lemma filter_idem (keep : ascii -> bool) (s : string) :
  filter keep (filter keep s) = filter keep s.
Proof.
  induction s as [|c s IH]; simpl; [reflexivity|].
  destruct (keep c) eqn:E; simpl; [|assumption].
  now rewrite E, IH.
Qed.

Lemma lower_filter_lower (keep : ascii -> bool) (s : string) :
  lower (filter keep (lower s)) = filter keep (lower s).
Proof.
  induction s as [|c s IH]; simpl; [reflexivity|].
  destruct (keep (lower_char c)); simpl; [|assumption].
  now rewrite lower_char_idem, IH.
Qed.

(** [strip] leaves no whitespace at either end; in particular the result is
    empty exactly when the line holds whitespace only. *)
Lemma rstrip_nil_iff (s : string) :
  rstrip s = "" <-> filter (fun c => negb (isspace c)) s = "".
Proof.
  induction s as [|c s IH]; simpl; [tauto|].
  destruct (rstrip s) as [|d r] eqn:R.
  - destruct (isspace c); simpl; [tauto|]. split; discriminate.
  - destruct (isspace c); simpl.
    + split; [discriminate|]. intros H. apply IH in H. discriminate.
    + split; discriminate.
Qed.

Lemma strip_nil_iff (s : string) :
  strip s = "" <-> filter (fun c => negb (isspace c)) s = "".
Proof.
  unfold strip. rewrite rstrip_nil_iff.
  rewrite filter_lstrip; [tauto|].
  intros c ->. reflexivity.
Qed.

End PyStrFacts.

(** ** FormFieldMapping: field names *)

Module FormFieldMappingFacts.

Import PyStr PyStrFacts FormFieldMapping.

Lemma special_space (c : ascii) : isspace c = true -> negb (special c) = false.
Proof. intros H. unfold special. rewrite H, orb_true_r. reflexivity. Qed.

(** The [strip()] and the guard on the empty string change nothing: the
    class removed holds all whitespace already. *)
Lemma normalize_field_name_eq (s : string) :
  normalize_field_name s = filter (fun c => negb (special c)) (lower s).
Proof.
  unfold normalize_field_name. destruct s as [|c s]; [reflexivity|].
  cbn [is_empty]. apply filter_strip. exact special_space.
Qed.

Lemma resolve_loop_none (fields : list field) (input n : string) :
  Forall (fun f => f_normalized_name f <> n) fields ->
  resolve_loop fields input n = None.
Proof.
  induction 1 as [|f fs Hf _ IH]; simpl; [reflexivity|].
  destruct (String.eqb_spec (f_normalized_name f) n); [contradiction|exact IH].
Qed.

Lemma resolve_loop_first (before after : list field) (f : field) (input n : string) :
  Forall (fun g => f_normalized_name g <> n) before ->
  f_normalized_name f = n ->
  resolve_loop (before ++ f :: after) input n
  = Some (mkResolved (f_id f) (f_field_name f) input).
Proof.
  induction 1 as [|g gs Hg _ IH]; simpl; intros Hf.
  - rewrite Hf, String.eqb_refl. reflexivity.
  - destruct (String.eqb_spec (f_normalized_name g) n); [contradiction|auto].
Qed.

(** Every list splits at its first element that satisfies a test, if any. *)
Lemma first_match {A} (test : A -> bool) (l : list A) :
  (exists before x after,
     l = before ++ x :: after /\
     Forall (fun y => test y = false) before /\ test x = true)
  \/ Forall (fun y => test y = false) l.
Proof.
  induction l as [|a l IH].
  - right. constructor.
  - destruct (test a) eqn:E.
    + left. exists [], a, l. repeat split; [constructor|exact E].
    + destruct IH as [(before & x & after & -> & Hb & Hx)|Hall].
      * left. exists (a :: before), x, after.
        repeat split; [constructor; assumption|exact Hx].
      * right. constructor; assumption.
Qed.

Lemma get_all_fields_app (l1 l2 : list field_row) :
  get_all_fields (l1 ++ l2) = get_all_fields l1 ++ get_all_fields l2.
Proof. induction l1 as [|r l1 IH]; simpl; [reflexivity|now rewrite IH]. Qed.

Lemma get_all_fields_Forall (P : string -> Prop) (rows : list field_row) :
  Forall (fun r => P (normalize_field_name (snd r))) rows ->
  Forall (fun f => P (f_normalized_name f)) (get_all_fields rows).
Proof. induction 1; simpl; constructor; assumption. Qed.

(** C5: [normalize_field_name] returns the input lowercased with every
    occurrence of [/ - _ ( ) . ,] and all whitespace removed, and the empty
    string for the empty input; on the fields [get_all_fields] built from
    the stored rows, [resolve_field_by_name] returns the first one whose
    stored name normalizes to the same string as the input, and [None] when
    no stored name does. *)
Theorem normalize_and_resolve_by_name :
  (forall s, normalize_field_name s = lowercased_without_specials s) /\
  normalize_field_name "" = "" /\
  (forall (rows : list field_row) (input : string),
     (exists before row after,
        rows = before ++ row :: after /\
        Forall (fun r => normalize_field_name (snd r)
                         <> normalize_field_name input) before /\
        normalize_field_name (snd row) = normalize_field_name input /\
        resolve_field_by_name (get_all_fields rows) input
        = Some (mkResolved (fst row) (snd row) input))
     \/
     (Forall (fun r => normalize_field_name (snd r)
                       <> normalize_field_name input) rows /\
      resolve_field_by_name (get_all_fields rows) input = None)).
Proof.
  split; [exact normalize_field_name_eq|].
  split; [reflexivity|].
  intros rows input.
  set (n := normalize_field_name input).
  set (test := fun r : field_row => normalize_field_name (snd r) =? n).
  assert (Hneq : forall l, Forall (fun y => test y = false) l ->
                 Forall (fun r => normalize_field_name (snd r) <> n) l).
  { intros l H. eapply Forall_impl; [|exact H].
    intros r Hr. unfold test in Hr. now apply String.eqb_neq. }
  destruct (first_match test rows) as [(before & row & after & -> & Hb & Hx)|Hall].
  - left. exists before, row, after.
    apply Hneq in Hb. apply String.eqb_eq in Hx.
    repeat split; try assumption.
    unfold resolve_field_by_name. fold n.
    rewrite get_all_fields_app. cbn [get_all_fields].
    apply (resolve_loop_first (get_all_fields before) (get_all_fields after)
             (mkField (fst row) (snd row) (normalize_field_name (snd row)))).
    + apply (get_all_fields_Forall (fun s => s <> n)). exact Hb.
    + exact Hx.
  - right. apply Hneq in Hall. split; [exact Hall|].
    unfold resolve_field_by_name. fold n.
    apply resolve_loop_none.
    apply (get_all_fields_Forall (fun s => s <> n)). exact Hall.
Qed.

(** C8: [normalize_field_name] is idempotent. *)
Theorem normalize_field_name_idempotent (s : string) :
  normalize_field_name (normalize_field_name s) = normalize_field_name s.
Proof.
  rewrite !normalize_field_name_eq.
  rewrite lower_filter_lower. apply filter_idem.
Qed.

(** *** [get_bulk_input] *)

Lemma get_bulk_input_loop_eof (pre lines : list string) (n : Z) :
  Forall (fun l => blank l = false) pre ->
  get_bulk_input_loop pre lines n = (lines ++ map strip pre, []).
Proof.
  intros H. revert lines n.
  induction H as [|l pre Hl _ IH]; intros lines n; simpl.
  - now rewrite app_nil_r.
  - unfold blank in Hl. rewrite Hl, IH, <- app_assoc. reflexivity.
Qed.

Lemma get_bulk_input_loop_blank (pre lines : list string) (b : string)
  (post : list string) (n : Z) :
  (0 <= n)%Z ->
  Forall (fun l => blank l = false) pre ->
  blank b = true ->
  get_bulk_input_loop (pre ++ b :: post) lines n = (lines ++ map strip pre, post).
Proof.
  intros Hn H Hb. revert lines n Hn.
  induction H as [|l pre Hl _ IH]; intros lines n Hn; simpl.
  - unfold blank in Hb. rewrite Hb, app_nil_r.
    destruct (Z.leb_spec 1 (n + 1)); [reflexivity|lia].
  - unfold blank in Hl. rewrite Hl, IH, <- app_assoc by lia. reflexivity.
Qed.

Lemma map_strip_nonempty (pre : list string) :
  Forall (fun l => blank l = false) pre -> ~ In "" (map strip pre).
Proof.
  induction 1 as [|l pre Hl _ IH]; simpl; [tauto|].
  intros [E|E]; [|tauto].
  unfold blank in Hl. rewrite E in Hl. discriminate.
Qed.

(** C10: [get_bulk_input] returns exactly the stripped lines entered before
    the first blank line, which all are non-empty: the end of the input or a
    single blank line ends the collection, what follows the blank line is
    left unread, and the result never holds the empty string. *)
Theorem get_bulk_input_lines :
  (forall pre,
     Forall (fun l => blank l = false) pre ->
     get_bulk_input pre = (map strip pre, [])) /\
  (forall pre b post,
     Forall (fun l => blank l = false) pre ->
     blank b = true ->
     get_bulk_input (pre ++ b :: post) = (map strip pre, post)) /\
  (forall stdin, ~ In "" (fst (get_bulk_input stdin))).
Proof.
  assert (A : forall pre, Forall (fun l => blank l = false) pre ->
                          get_bulk_input pre = (map strip pre, [])).
  { intros pre H. unfold get_bulk_input. now rewrite get_bulk_input_loop_eof. }
  assert (B : forall pre b post, Forall (fun l => blank l = false) pre ->
              blank b = true ->
              get_bulk_input (pre ++ b :: post) = (map strip pre, post)).
  { intros pre b post H Hb. unfold get_bulk_input.
    now rewrite get_bulk_input_loop_blank by (assumption || lia). }
  repeat split; [exact A|exact B|].
  intros stdin.
  destruct (first_match blank stdin) as [(pre & b & post & -> & Hpre & Hb)|Hall].
  - rewrite B by assumption. now apply map_strip_nonempty.
  - rewrite A by assumption. now apply map_strip_nonempty.
Qed.

Lemma get_bulk_input_lines_witness :
  get_bulk_input ["  Applicant Name "; "e-mail"; "   "; "phone"; ""]
  = (["Applicant Name"; "e-mail"], ["phone"; ""]).
Proof.
  apply (proj1 (proj2 get_bulk_input_lines)
           ["  Applicant Name "; "e-mail"] "   " ["phone"; ""]).
  - repeat constructor.
  - reflexivity.
Defined.

(** *** [insert_mappings] *)

Section Transactions.

Variable accepts : list mapping -> mapping -> bool.
Variable commit_ok : list mapping -> list mapping -> bool.

Lemma mappings_from_length (form_id : string) (fields : list resolved_field) (index : Z) :
  List.length (mappings_from form_id index fields) = List.length fields.
Proof.
  revert index. induction fields as [|f fs IH]; intros index; simpl;
    [reflexivity|now rewrite IH].
Qed.

Lemma mappings_from_nth (form_id : string) (fields : list resolved_field) :
  forall (index : Z) (k : nat) (fld : resolved_field),
    nth_error fields k = Some fld ->
    nth_error (mappings_from form_id index fields) k
    = Some (mkMapping form_id (r_id fld) (index + Z.of_nat k)).
Proof.
  induction fields as [|f fs IH]; intros index k fld H.
  - destruct k; discriminate.
  - destruct k as [|k]; simpl in *.
    + injection H as ->. now rewrite Z.add_0_r.
    + rewrite (IH _ _ _ H). do 2 f_equal. lia.
Qed.

Lemma insert_loop_accepted (form_id : string) (fields : list resolved_field) :
  forall (index : Z) (c : conn),
    all_accepted accepts (committed c ++ pending c)
      (mappings_from form_id index fields) = true ->
    insert_loop accepts form_id index fields c
    = inl (mkConn (committed c)
             (pending c ++ mappings_from form_id index fields)
             (calls c ++ map Execute (mappings_from form_id index fields))).
Proof.
  induction fields as [|f fs IH]; intros index c H; simpl.
  - rewrite !app_nil_r. now destruct c.
  - simpl in H. apply andb_prop in H as [Ha Hrest].
    unfold execute. rewrite Ha.
    rewrite IH; cbn [committed pending calls].
    + now rewrite <- !app_assoc.
    + now rewrite app_assoc.
Qed.

Lemma insert_loop_refused (form_id : string) (fields : list resolved_field) :
  forall (index : Z) (c : conn),
    all_accepted accepts (committed c ++ pending c)
      (mappings_from form_id index fields) = false ->
    exists attempted c1,
      insert_loop accepts form_id index fields c = inr c1 /\
      committed c1 = committed c /\
      calls c1 = calls c ++ map Execute attempted.
Proof.
  induction fields as [|f fs IH]; intros index c H; simpl in *; [discriminate|].
  unfold execute.
  destruct (accepts (committed c ++ pending c) _) eqn:Ha; simpl in H.
  - destruct (IH (index + 1)%Z
                (mkConn (committed c)
                   (pending c ++ [mkMapping form_id (r_id f) index])
                   (calls c ++ [Execute (mkMapping form_id (r_id f) index)])))
      as (attempted & c1 & E & Hc & Hl).
    + cbn [committed pending]. now rewrite app_assoc.
    + exists (mkMapping form_id (r_id f) index :: attempted), c1.
      cbn [committed calls] in *. rewrite E, Hc, Hl, <- app_assoc.
      repeat split.
  - exists [mkMapping form_id (r_id f) index]. eexists.
    repeat split.
Qed.

(** C1: when no insert and not the commit is refused, [insert_mappings]
    inserts one row per field, in input order, the row of the k-th field
    (from 1) with [order_index] k, commits, and returns [True]. *)
Theorem insert_mappings_order_index (c : conn) (form_id : string)
  (fields : list resolved_field) :
  let rows := mappings_from form_id 1 fields in
  all_accepted accepts (committed c ++ pending c) rows = true ->
  commit_ok (committed c) (pending c ++ rows) = true ->
  insert_mappings accepts commit_ok c form_id fields
  = (true, mkConn (committed c ++ pending c ++ rows) []
             (calls c ++ map Execute rows ++ [Commit])) /\
  List.length rows = List.length fields /\
  (forall (k : nat) (fld : resolved_field),
     nth_error fields k = Some fld ->
     nth_error rows k
     = Some (mkMapping form_id (r_id fld) (Z.of_nat k + 1))).
Proof.
  intros rows Hacc Hcommit. split; [|split].
  - unfold insert_mappings. fold rows.
    rewrite (insert_loop_accepted _ _ _ _ Hacc). fold rows.
    unfold commit. cbn [committed pending calls].
    rewrite Hcommit. now rewrite <- !app_assoc.
  - apply mappings_from_length.
  - intros k fld H. unfold rows.
    rewrite (mappings_from_nth _ _ _ _ _ H). do 2 f_equal. lia.
Qed.

(** [insert_mappings] returns [True] on no other run. *)
Lemma insert_mappings_true_inv (c c' : conn) (form_id : string)
  (fields : list resolved_field) :
  insert_mappings accepts commit_ok c form_id fields = (true, c') ->
  all_accepted accepts (committed c ++ pending c)
    (mappings_from form_id 1 fields) = true /\
  commit_ok (committed c) (pending c ++ mappings_from form_id 1 fields) = true.
Proof.
  intros H.
  destruct (all_accepted accepts (committed c ++ pending c)
              (mappings_from form_id 1 fields)) eqn:Hacc.
  - split; [reflexivity|].
    unfold insert_mappings in H.
    rewrite (insert_loop_accepted _ _ _ _ Hacc) in H.
    unfold commit in H. cbn [committed pending calls] in H.
    destruct (commit_ok _ _); [reflexivity|discriminate].
  - apply insert_loop_refused in Hacc as (attempted & c1 & E & _).
    unfold insert_mappings in H. rewrite E in H. discriminate.
Qed.

(** C2: when one of the inserts is refused, [insert_mappings] rolls the
    transaction back and returns [False]: the committed rows are those from
    before the call, nothing is left pending, and the call made last is the
    rollback. *)
Theorem insert_mappings_all_or_nothing (c : conn) (form_id : string)
  (fields : list resolved_field) :
  all_accepted accepts (committed c ++ pending c)
    (mappings_from form_id 1 fields) = false ->
  exists attempted,
    insert_mappings accepts commit_ok c form_id fields
    = (false, mkConn (committed c) []
                (calls c ++ map Execute attempted ++ [Rollback])).
Proof.
  intros H.
  apply insert_loop_refused in H as (attempted & c1 & E & Hc & Hl).
  exists attempted. unfold insert_mappings. rewrite E.
  unfold rollback. rewrite Hc, Hl, <- app_assoc. reflexivity.
Qed.

(** A refused commit ends the same way. *)
Lemma insert_mappings_commit_refused (c : conn) (form_id : string)
  (fields : list resolved_field) :
  let rows := mappings_from form_id 1 fields in
  all_accepted accepts (committed c ++ pending c) rows = true ->
  commit_ok (committed c) (pending c ++ rows) = false ->
  insert_mappings accepts commit_ok c form_id fields
  = (false, mkConn (committed c) []
              (calls c ++ map Execute rows ++ [Commit; Rollback])).
Proof.
  intros rows Hacc Hcommit. unfold insert_mappings. fold rows.
  rewrite (insert_loop_accepted _ _ _ _ Hacc). fold rows.
  unfold commit, rollback. cbn [committed pending calls].
  rewrite Hcommit. now rewrite <- !app_assoc.
Qed.

End Transactions.

Lemma insert_mappings_order_index_witness :
  insert_mappings once_per_form always
    (mkConn [mkMapping "form-7" "f-1" 1] [] []) "form-9"
    [mkResolved "f-1" "Name" "name"; mkResolved "f-2" "E-mail" "email"]
  = (true,
     mkConn [mkMapping "form-7" "f-1" 1; mkMapping "form-9" "f-1" 1;
             mkMapping "form-9" "f-2" 2] []
       [Execute (mkMapping "form-9" "f-1" 1);
        Execute (mkMapping "form-9" "f-2" 2); Commit]).
Proof.
  apply (insert_mappings_order_index once_per_form always
           (mkConn [mkMapping "form-7" "f-1" 1] [] []) "form-9"
           [mkResolved "f-1" "Name" "name"; mkResolved "f-2" "E-mail" "email"]);
    reflexivity.
Defined.

Lemma insert_mappings_all_or_nothing_witness :
  exists attempted,
    insert_mappings once_per_form always
      (mkConn [mkMapping "form-9" "f-2" 1] [] []) "form-9"
      [mkResolved "f-1" "Name" "name"; mkResolved "f-2" "E-mail" "email"]
    = (false,
       mkConn [mkMapping "form-9" "f-2" 1] []
         ([] ++ map Execute attempted ++ [Rollback])).
Proof.
  apply (insert_mappings_all_or_nothing once_per_form always
           (mkConn [mkMapping "form-9" "f-2" 1] [] []) "form-9"
           [mkResolved "f-1" "Name" "name"; mkResolved "f-2" "E-mail" "email"]).
  reflexivity.
Defined.

End FormFieldMappingFacts.

(** ** category_manager: the input helpers and the bulk insert *)

Module CategoryManagerFacts.

Import PyStr CategoryManager.

Lemma prompt_until_run {A} (parse : string -> option A) (l : list inp) :
  from_input (fst (prompt_until parse l)) /\
  (forall a, fst (prompt_until parse l) = Ret a -> exists s, parse s = Some a).
Proof.
  induction l as [|[s|] l IH]; simpl.
  - split; [exact I|discriminate].
  - destruct (parse s) as [a|] eqn:E; [|exact IH].
    split; [exact I|]. intros b [= <-]. now exists s.
  - split; [exact I|discriminate].
Qed.

Lemma ask_run {A} (parse : string -> option A) (w : world) :
  exists r rest,
    ask parse w = (r, set_stdin rest w) /\ from_input r /\
    (forall a, r = Ret a -> exists s, parse s = Some a).
Proof.
  unfold ask. destruct (prompt_until_run parse (stdin w)) as [H1 H2].
  destruct (prompt_until parse (stdin w)) as [r rest].
  exists r, rest. auto.
Qed.

Lemma get_yes_no_run (p : prompt) (w : world) :
  (exists a rest,
     get_yes_no p w = (Ret a, log [EvAsk p a] (set_stdin rest w)))
  \/ (exists e rest,
        get_yes_no p w = (Raise e, set_stdin rest w) /\ e <> DbError).
Proof.
  unfold get_yes_no, bind.
  destruct (ask_run yes_no_value w) as (r & rest & -> & Hr & _).
  destruct r as [a|e|]; [| |contradiction].
  - left. now exists a, rest.
  - right. exists e, rest. split; [reflexivity|].
    intros ->. exact Hr.
Qed.

Lemma read_lines_run (l : list inp) (lines : list string) (n : Z) :
  (exists ls, fst (read_lines l lines n) = Ret ls)
  \/ fst (read_lines l lines n) = Raise KeyboardInterrupt.
Proof.
  revert lines n. induction l as [|[s|] l IH]; intros lines n; simpl.
  - left. now exists lines.
  - destruct (strip s =? ""); [|apply IH].
    destruct (1 <=? n + 1)%Z; [|apply IH]. left. now exists lines.
  - now right.
Qed.

Section Tool.

Variable py_int : string -> option Z.
Variable accepts : list category_row -> category_row -> bool.

Lemma get_positive_integer_run (w : world) :
  (exists v rest,
     get_positive_integer py_int w = (Ret v, set_stdin rest w) /\ (0 < v)%Z)
  \/ (exists e rest,
        get_positive_integer py_int w = (Raise e, set_stdin rest w) /\
        e <> DbError).
Proof.
  unfold get_positive_integer.
  match goal with |- context [ask ?f w] =>
    destruct (ask_run f w) as (r & rest & -> & Hr & Hv) end.
  destruct r as [v|e|]; [| |contradiction].
  - left. exists v, rest. split; [reflexivity|].
    destruct (Hv v eq_refl) as (s & Hs).
    destruct (py_int (strip s)) as [v'|]; [|discriminate].
    destruct (Z.ltb_spec 0 v'); [|discriminate].
    now injection Hs as <-.
  - right. exists e, rest. split; [reflexivity|]. intros ->. exact Hr.
Qed.

(** [collect_category_names_multiline] only reads the terminal, and what it
    returns has [count] entries. *)
Lemma collect_run (fuel : nat) (count : Z) (indent : string) (w : world) :
  exists r rest,
    collect_category_names_multiline fuel count indent w = (r, set_stdin rest w) /\
    r <> Raise DbError /\
    (forall cats, r = Ret cats -> Z.of_nat (List.length cats) = count).
Proof.
  revert w. induction fuel as [|fuel IH]; intros w; simpl.
  - exists OutOfFuel, (stdin w). destruct w. repeat split; discriminate.
  - unfold bind, read_block.
    destruct (read_lines_run (stdin w) [] 0) as [(ls & H)|H];
      destruct (read_lines (stdin w) [] 0) as [r rest]; simpl in H; subst r.
    + destruct (Z.eqb_spec (Z.of_nat (List.length (non_empty ls))) count) as [E|E];
        simpl.
      * eexists _, rest. split; [reflexivity|]. split; [discriminate|].
        intros cats [= <-]. now rewrite length_map.
      * destruct (IH (set_stdin rest w)) as (r & rest' & -> & Hr).
        now exists r, rest'.
    + exists (Raise KeyboardInterrupt), rest.
      repeat split; discriminate.
Qed.

(** *** The statement [bulk_insert_categories] builds *)

Lemma build_values_eq (cats : list (string * string)) (entity_id : string)
  (parent : option uuid) :
  forall vl ps,
    build_values cats entity_id parent vl ps
    = (vl ++ repeat values_template (List.length cats),
       ps ++ flat_map (category_params entity_id parent) cats).
Proof.
  induction cats as [|[name description] cats IH]; intros vl ps; simpl.
  - now rewrite !app_nil_r.
  - rewrite IH, <- !app_assoc. reflexivity.
Qed.

Lemma decode_values_for (cats : list (string * string)) (entity_id : string)
  (parent : option uuid) :
  decode_values (repeat values_template (List.length cats))
    (flat_map (category_params entity_id parent) cats)
  = Some (map (row_maker entity_id parent) cats).
Proof.
  induction cats as [|c cats IH]; [reflexivity|].
  cbn [List.length repeat decode_values flat_map].
  rewrite String.eqb_refl.
  cbn [category_params app firstn skipn]. rewrite IH.
  destruct parent; reflexivity.
Qed.

Lemma insert_rows_eq (cats : list (string * string)) (entity_id : string)
  (parent : option uuid) :
  forall seen id,
    insert_rows accepts seen id (map (row_maker entity_id parent) cats)
    = if rows_accepted accepts seen (category_rows id cats entity_id parent)
      then Some (category_rows id cats entity_id parent) else None.
Proof.
  induction cats as [|c cats IH]; intros seen id; [reflexivity|].
  cbn [map insert_rows category_rows rows_accepted].
  unfold row_maker at 1 2.
  destruct (accepts seen _); [|reflexivity].
  cbn [andb]. unfold row_maker at 1. rewrite IH.
  destruct (rows_accepted _ _ _); reflexivity.
Qed.

Lemma category_rows_ids (cats : list (string * string)) (entity_id : string)
  (parent : option uuid) :
  forall id,
    map c_id (category_rows id cats entity_id parent) = seq id (List.length cats).
Proof.
  induction cats as [|c cats IH]; intros id; simpl; [reflexivity|].
  now rewrite IH.
Qed.

Lemma with_ids_rows (cats : list (string * string)) (entity_id : string)
  (parent : option uuid) :
  forall id,
    with_ids (map (row_maker entity_id parent) cats)
      (map c_id (category_rows id cats entity_id parent))
    = category_rows id cats entity_id parent.
Proof.
  induction cats as [|c cats IH]; intros id; simpl; [reflexivity|].
  now rewrite IH.
Qed.

Lemma rows_of_insert_query (cats : list (string * string)) (entity_id : string)
  (parent : option uuid) (id : uuid) :
  rows_of (insert_query_for cats entity_id parent)
    (map c_id (category_rows id cats entity_id parent))
  = category_rows id cats entity_id parent.
Proof.
  unfold rows_of, insert_query_for. cbn [values_list params].
  rewrite decode_values_for. apply with_ids_rows.
Qed.

Lemma category_rows_nth (cats : list (string * string)) (entity_id : string)
  (parent : option uuid) :
  forall id k c,
    nth_error cats k = Some c ->
    nth_error (category_rows id cats entity_id parent) k
    = Some (mkRow (id + k) (fst c) (snd c) "OTHER" "PUBLIC" entity_id parent).
Proof.
  induction cats as [|c0 cats IH]; intros id k c H.
  - destruct k; discriminate.
  - destruct k as [|k]; simpl in *.
    + injection H as ->. now rewrite Nat.add_0_r.
    + rewrite (IH _ _ _ H). now rewrite Nat.add_succ_r.
Qed.

(** The three ways a call of [bulk_insert_categories] on a non-empty list
    ends. *)
Lemma bulk_insert_categories_run (cats : list (string * string))
  (entity_id : string) (parent : option uuid) (w : world) :
  cats <> [] ->
  let q := insert_query_for cats entity_id parent in
  let rows := category_rows (next_id (db w)) cats entity_id parent in
  bulk_insert_categories accepts cats entity_id parent w
  = if negb (connected (db w)) then (Raise AttributeError, w)
    else if rows_accepted accepts (committed (db w) ++ pending (db w)) rows
    then (Ret (map c_id rows),
          log [EvExecute q (Some (map c_id rows))]
            (set_db (add_rows (db w) rows) w))
    else (Raise DbError,
          log [EvExecute q None; EvRollback]
            (set_db (server_rollback (db w)) w)).
Proof.
  intros Hne q rows. unfold bulk_insert_categories.
  destruct cats as [|c cats]; [contradiction|].
  rewrite build_values_eq. cbn [app].
  fold (insert_query_for (c :: cats) entity_id parent). fold q.
  destruct (connected (db w)); [|reflexivity]. cbn [negb].
  unfold execute.
  replace (values_list q) with (values_template :: repeat values_template (List.length cats))
    by reflexivity.
  change (values_template :: repeat values_template (List.length cats))
    with (values_list q).
  unfold q at 1 2, insert_query_for. cbn [values_list params].
  rewrite decode_values_for, insert_rows_eq. fold rows.
  destruct (rows_accepted _ _ rows); reflexivity.
Qed.

(** C9: on the empty list [bulk_insert_categories] returns the empty list;
    it executes no statement and leaves the database as it was. *)
Theorem bulk_insert_categories_empty (entity_id : string)
  (parent : option uuid) (w : world) :
  bulk_insert_categories accepts [] entity_id parent w = (Ret [], w).
Proof. reflexivity. Qed.

(** C7: on a non-empty list that the constraints accept,
    [bulk_insert_categories] executes one INSERT statement, with one
    placeholder group and six parameters per category, which writes one row
    per (name, description) pair, and returns one id per category in input
    order: the k-th id is the id of the row of the k-th pair. *)
Theorem bulk_insert_categories_ids (cats : list (string * string))
  (entity_id : string) (parent : option uuid) (w : world) :
  cats <> [] ->
  connected (db w) = true ->
  let rows := category_rows (next_id (db w)) cats entity_id parent in
  rows_accepted accepts (committed (db w) ++ pending (db w)) rows = true ->
  exists ids,
    bulk_insert_categories accepts cats entity_id parent w
    = (Ret ids,
       log [EvExecute (insert_query_for cats entity_id parent) (Some ids)]
         (set_db (add_rows (db w) rows) w)) /\
    List.length ids = List.length cats /\
    (forall k name description,
       nth_error cats k = Some (name, description) ->
       exists id,
         nth_error ids k = Some id /\
         nth_error rows k
         = Some (mkRow id name description "OTHER" "PUBLIC" entity_id parent)).
Proof.
  intros Hne Hconn rows Hacc. exists (map c_id rows).
  split; [|split].
  - rewrite bulk_insert_categories_run by assumption.
    rewrite Hconn. cbn [negb]. fold rows. now rewrite Hacc.
  - unfold rows. now rewrite category_rows_ids, length_seq.
  - intros k name description Hk.
    exists (next_id (db w) + k). unfold rows. split.
    + rewrite category_rows_ids. rewrite nth_error_seq.
      assert (k < List.length cats) by (apply nth_error_Some; congruence).
      destruct (Nat.ltb_spec k (List.length cats)); [reflexivity|lia].
    + exact (category_rows_nth cats entity_id parent _ _ _ Hk).
Qed.

(** *** One category of the traversal *)

Lemma inserted_from_eq (cats : list (string * string)) :
  forall (seen ids : list uuid) (acc : list category),
    List.length ids = List.length cats ->
    inserted_from (List.length seen) cats (seen ++ ids) acc
    = Ret (acc ++ categories_of cats ids).
Proof.
  induction cats as [|[name desc] cats IH]; intros seen ids acc H.
  - destruct ids; [|discriminate]. simpl. now rewrite app_nil_r.
  - destruct ids as [|i ids]; [discriminate|]. injection H as H.
    cbn [inserted_from categories_of fst].
    rewrite nth_error_app2, Nat.sub_diag by lia. cbn [nth_error].
    replace (S (List.length seen)) with (List.length (seen ++ [i]))
      by (rewrite length_app; simpl; lia).
    replace (seen ++ i :: ids) with ((seen ++ [i]) ++ ids)
      by (now rewrite <- app_assoc).
    rewrite IH by assumption. now rewrite <- app_assoc.
Qed.

Lemma inserted_run (cats : list (string * string)) (ids : list uuid) (w : world) :
  List.length ids = List.length cats ->
  inserted cats ids w = (Ret (categories_of cats ids), w).
Proof.
  intros H. unfold inserted.
  pose proof (inserted_from_eq cats [] ids [] H) as E.
  simpl in E. now rewrite E.
Qed.

Lemma trace_log (evs : list event) (w : world) :
  trace (log evs w) = trace w ++ evs.
Proof. reflexivity. Qed.

Ltac stopped :=
  cbn [fst snd]; repeat split; solve [discriminate | congruence | assumption].

(** The five ways the body of the loop goes on one category. *)
Lemma process_category_run (fuel : nat) (recurse : list category -> Z -> M unit)
  (entity_id : string) (cat : category) (level : Z) (w : world) :
  let run := process_category py_int accepts fuel recurse entity_id cat level w in
  let p := subcategory_question level cat in
  (exists e, fst run = Raise e /\ e <> DbError /\ trace (snd run) = trace w)
  \/ (fst run = Ret tt /\ trace (snd run) = trace w ++ [EvAsk p false] /\
      db (snd run) = db w)
  \/ (fst run <> Ret tt /\ fst run <> Raise DbError /\
      trace (snd run) = trace w ++ [EvAsk p true])
  \/ (exists subs,
        subs <> [] /\ fst run = Raise DbError /\
        trace (snd run)
        = trace w ++ [EvAsk p true;
                      EvExecute (insert_query_for subs entity_id (Some (cat_id cat)))
                        None;
                      EvRollback] /\
        pending (db (snd run)) = [])
  \/ (exists subs ids w1,
        subs <> [] /\ List.length ids = List.length subs /\
        trace w1
        = trace w ++ [EvAsk p true;
                      EvExecute (insert_query_for subs entity_id (Some (cat_id cat)))
                        (Some ids)] /\
        run = recurse (categories_of subs ids) (level + 1)%Z w1).
Proof.
  intros run p. subst run. unfold process_category, expand, bind.
  fold (subcategory_question level cat). fold p.
  destruct (get_yes_no_run p w) as [(a & rest & ->)|(e & rest & -> & He)].
  2:{ left. exists e. repeat split; assumption. }
  right. destruct a.
  2:{ left. repeat split. }
  right. cbv beta iota.
  set (w1 := log [EvAsk p true] (set_stdin rest w)).
  destruct (get_positive_integer_run w1)
    as [(v & rest1 & -> & Hv)|(e & rest1 & -> & He)].
  2:{ left. stopped. }
  destruct (collect_run fuel v (indent_of level) (set_stdin rest1 w1))
    as (r & rest2 & -> & Hr & Hlen).
  destruct r as [subs|e|].
  2:{ left. stopped. }
  2:{ left. stopped. }
  assert (Hsubs : subs <> []).
  { intros ->. specialize (Hlen [] eq_refl). simpl in Hlen. lia. }
  rewrite (bulk_insert_categories_run subs entity_id
             (Some (cat_id cat)) _ Hsubs).
  set (w2 := set_stdin rest2 (set_stdin rest1 w1)).
  destruct (connected (db w2)); cbn [negb].
  2:{ left. stopped. }
  destruct (rows_accepted _ _ _).
  - right. right.
    set (rows := category_rows (next_id (db w2)) subs entity_id (Some (cat_id cat))).
    assert (Hids : List.length (map c_id rows) = List.length subs).
    { unfold rows. now rewrite category_rows_ids, length_seq. }
    exists subs, (map c_id rows). eexists.
    split; [exact Hsubs|]. split; [exact Hids|].
    split; [|rewrite (inserted_run _ _ _ Hids); reflexivity].
    cbn. now rewrite <- app_assoc.
  - right. left. exists subs. split; [exact Hsubs|]. split; [reflexivity|].
    split; [|reflexivity]. cbn. now rewrite <- app_assoc.
Qed.

Lemma process_nil (fuel : nat) (entity_id : string) (level : Z) :
  process_subcategories_depth_first py_int accepts (S fuel) entity_id [] level
  = ret tt.
Proof. reflexivity. Qed.

Lemma process_cons (fuel : nat) (entity_id : string) (cat : category)
  (rest : list category) (level : Z) :
  process_subcategories_depth_first py_int accepts (S fuel) entity_id
    (cat :: rest) level
  = (process_category py_int accepts fuel
       (process_subcategories_depth_first py_int accepts fuel entity_id)
       entity_id cat level ;;;
     process_subcategories_depth_first py_int accepts (S fuel) entity_id
       rest level).
Proof. reflexivity. Qed.

(** Every run of the traversal, however it ends, leaves a trace of the
    shape [df_run]. *)
Lemma process_shape (fuel : nat) (entity_id : string) :
  forall (cats : list category) (level : Z) (w : world),
  exists t,
    trace (snd (process_subcategories_depth_first py_int accepts fuel
                  entity_id cats level w)) = trace w ++ t /\
    df_run entity_id level cats
      (fst (process_subcategories_depth_first py_int accepts fuel
              entity_id cats level w)) t.
Proof.
  induction fuel as [|fuel IHfuel]; intros cats level w.
  - exists []. simpl. rewrite app_nil_r. split; [reflexivity|constructor].
  - revert w. induction cats as [|cat rest IHcats]; intros w.
    + exists []. rewrite process_nil. simpl. rewrite app_nil_r.
      split; [reflexivity|constructor].
    + rewrite process_cons. unfold bind.
      destruct (process_category_run fuel
                  (process_subcategories_depth_first py_int accepts fuel entity_id)
                  entity_id cat level w)
        as [(e & Hr & He & Ht)|[(Hr & Ht & _)|[(Hr & Hd & Ht)
            |[(subs & Hsubs & Hr & Ht & _)
            |(subs & ids & w1 & Hsubs & Hlen & Ht1 & Hrun)]]]].
      * destruct (process_category _ _ _ _ _ _ _ w) as [r w']; simpl in *.
        subst r. exists []. rewrite app_nil_r. split; [assumption|].
        now constructor.
      * destruct (process_category _ _ _ _ _ _ _ w) as [r w']; simpl in *.
        subst r. destruct (IHcats w') as (t & Ht' & Hdf).
        exists (EvAsk (subcategory_question level cat) false :: t).
        split; [|now constructor].
        rewrite Ht', Ht, <- app_assoc. reflexivity.
      * destruct (process_category _ _ _ _ _ _ _ w) as [r w']; simpl in *.
        exists [EvAsk (subcategory_question level cat) true].
        destruct r as [[]|e|]; [contradiction| |];
          (split; [assumption|now constructor]).
      * destruct (process_category _ _ _ _ _ _ _ w) as [r w']; simpl in *.
        subst r. eexists. split; [eassumption|now constructor].
      * rewrite Hrun.
        destruct (IHfuel (categories_of subs ids) (level + 1)%Z w1)
          as (t_sub & Hts & Hdf).
        destruct (process_subcategories_depth_first _ _ fuel _ _ _ w1)
          as [r w2]; simpl in *.
        destruct r as [[]|e|].
        -- destruct (IHcats w2) as (t_rest & Htr & Hdfr).
           eexists. split; [|eapply run_yes; eassumption].
           rewrite Htr, Hts, Ht1, <- !app_assoc. reflexivity.
        -- eexists. split; [|eapply run_yes_below; try eassumption; discriminate].
           simpl. rewrite Hts, Ht1, <- !app_assoc. reflexivity.
        -- eexists. split; [|eapply run_yes_below; try eassumption; discriminate].
           simpl. rewrite Hts, Ht1, <- !app_assoc. reflexivity.
Qed.

(** *** Depth first *)

Lemma df_run_complete (entity_id : string) (level : Z) (cats : list category)
  (r : outcome unit) (t : list event) :
  df_run entity_id level cats r t -> r = Ret tt ->
  depth_first entity_id level cats t.
Proof.
  induction 1; intros E; try discriminate; try contradiction.
  - constructor.
  - constructor. auto.
  - constructor; auto.
Qed.

(** What [bulk_insert_categories] returns has one id per category. *)
Lemma bulk_insert_categories_length (cats : list (string * string))
  (entity_id : string) (parent : option uuid) (w w' : world) (ids : list uuid) :
  bulk_insert_categories accepts cats entity_id parent w = (Ret ids, w') ->
  List.length ids = List.length cats.
Proof.
  destruct cats as [|c cats].
  - simpl. now intros [= <- _].
  - rewrite bulk_insert_categories_run by discriminate.
    destruct (negb _); [discriminate|].
    destruct (rows_accepted _ _ _); [|discriminate].
    intros [= <- _]. simpl. now rewrite category_rows_ids, length_seq.
Qed.

(** Every run is a [traversal]: it did, in this order, what the relation
    says, up to where it ended. *)
Lemma process_traversal (fuel : nat) (entity_id : string) :
  forall (cats : list category) (level : Z) (w : world),
    traversal py_int accepts entity_id level cats w
      (fst (process_subcategories_depth_first py_int accepts fuel entity_id
              cats level w))
      (snd (process_subcategories_depth_first py_int accepts fuel entity_id
              cats level w)).
Proof.
  induction fuel as [|fuel IHfuel]; intros cats level w; [apply tr_cut|].
  revert w. induction cats as [|cat rest IHcats]; intros w.
  - rewrite process_nil. apply tr_done.
  - rewrite process_cons. unfold process_category, expand, bind.
    destruct (get_yes_no (SubcategoryPrompt (indent_of level) (cat_name cat)) w)
      as [[[|]|e|] w1] eqn:Eask; cbn [fst snd];
      [ |eapply tr_no; [exact Eask|apply IHcats]
        |eapply tr_unanswered; [exact Eask|reflexivity]
        |eapply tr_unanswered; [exact Eask|exact I]].
    destruct (get_positive_integer py_int w1) as [[sub_count|e|] w2] eqn:Ecount;
      cbn [fst snd];
      [ |eapply tr_uncounted; [exact Eask|exact Ecount|reflexivity]
        |eapply tr_uncounted; [exact Eask|exact Ecount|exact I]].
    destruct (collect_category_names_multiline fuel sub_count (indent_of level) w2)
      as [[subs|e|] w3] eqn:Enames; cbn [fst snd];
      [ |eapply tr_unnamed; [exact Eask|exact Ecount|exact Enames|reflexivity]
        |eapply tr_unnamed; [exact Eask|exact Ecount|exact Enames|exact I]].
    destruct (bulk_insert_categories accepts subs entity_id (Some (cat_id cat)) w3)
      as [[ids|e|] w4] eqn:Eins; cbn [fst snd];
      [ |eapply tr_refused;
           [exact Eask|exact Ecount|exact Enames|exact Eins|reflexivity]
        |eapply tr_refused;
           [exact Eask|exact Ecount|exact Enames|exact Eins|exact I]].
    pose proof (bulk_insert_categories_length _ _ _ _ _ _ Eins) as Hlen.
    rewrite (inserted_run subs ids w4 Hlen).
    pose proof (IHfuel (categories_of subs ids) (level + 1)%Z w4) as Hsub.
    destruct (process_subcategories_depth_first py_int accepts fuel entity_id
                (categories_of subs ids) (level + 1) w4)
      as [[[]|e|] w5] eqn:Erec; cbn [fst snd] in Hsub |- *.
    + eapply tr_yes; [exact Eask|exact Ecount|exact Enames|exact Eins
                      |exact Hlen|exact Hsub|apply IHcats].
    + eapply tr_below; [exact Eask|exact Ecount|exact Enames|exact Eins
                        |exact Hlen|exact Hsub|discriminate].
    + eapply tr_below; [exact Eask|exact Ecount|exact Enames|exact Eins
                        |exact Hlen|exact Hsub|discriminate].
Qed.

Lemma process_traversal_returns (fuel : nat) (entity_id : string)
  (cats : list category) (level : Z) (w w' : world) :
  process_subcategories_depth_first py_int accepts fuel entity_id cats level w
  = (Ret tt, w') ->
  traversal py_int accepts entity_id level cats w (Ret tt) w'.
Proof.
  intros H. pose proof (process_traversal fuel entity_id cats level w) as T.
  now rewrite H in T.
Qed.

(** C3: [process_subcategories_depth_first] goes through the categories
    depth first.  Every run, however it ends, is a [traversal] from the
    world it started in to the outcome and the world it ends with: for
    each category in list order it put the question to the terminal, on a
    yes read the count and the names, inserted the subcategories under the
    category and went through all of them (and theirs) one level down, and
    only then went on to the next sibling.  Its trace has the shape
    [df_run] of such a run, and when the run returns the trace is the
    whole [depth_first] trace of the categories. *)
Theorem process_subcategories_depth_first_order (fuel : nat)
  (entity_id : string) (cats : list category) (level : Z) (w : world) :
  let run := process_subcategories_depth_first py_int accepts fuel entity_id
               cats level w in
  traversal py_int accepts entity_id level cats w (fst run) (snd run) /\
  exists t,
    trace (snd run) = trace w ++ t /\
    df_run entity_id level cats (fst run) t /\
    (fst run = Ret tt -> depth_first entity_id level cats t).
Proof.
  intros run. split; [apply process_traversal|].
  destruct (process_shape fuel entity_id cats level w) as (t & Ht & Hdf).
  fold run in Ht, Hdf.
  exists t. split; [exact Ht|]. split; [exact Hdf|].
  intros H. rewrite H in Hdf.
  now apply (df_run_complete _ _ _ _ _ Hdf).
Qed.

(** *** Confirmed by the user *)

Lemma app_eq_middle {A} (a b t1 t2 : list A) (e : A) :
  a ++ b = t1 ++ e :: t2 ->
  (exists t2', a = t1 ++ e :: t2' /\ t2 = t2' ++ b)
  \/ (exists t1', t1 = a ++ t1' /\ b = t1' ++ e :: t2).
Proof.
  revert t1. induction a as [|x a IH]; intros t1 H.
  - right. now exists t1.
  - destruct t1 as [|y t1]; simpl in H; injection H as -> H.
    + left. now exists a.
    + destruct (IH _ H) as [(t2' & -> & ->)|(t1' & -> & ->)].
      * left. now exists t2'.
      * right. now exists t1'.
Qed.

Lemma confirmed_nil (entity_id : string) : confirmed entity_id [].
Proof. intros [|] ? ? ? H; discriminate. Qed.

Lemma confirmed_app (entity_id : string) (a b : list event) :
  confirmed entity_id a -> confirmed entity_id b -> confirmed entity_id (a ++ b).
Proof.
  intros Ha Hb t1 q res t2 H.
  destruct (app_eq_middle _ _ _ _ _ H) as [(t2' & E & _)|(t1' & -> & E)].
  - exact (Ha _ _ _ _ E).
  - destruct (Hb _ _ _ _ E) as (t0 & level & cat & subs & -> & Hq).
    exists (a ++ t0), level, cat, subs. now rewrite app_assoc.
Qed.

Lemma confirmed_ask (entity_id : string) (p : prompt) (a : bool) :
  confirmed entity_id [EvAsk p a].
Proof.
  intros [|x [|]] ? ? ? H; discriminate.
Qed.

Lemma confirmed_yes (entity_id : string) (level : Z) (cat : category)
  (subs : list (string * string)) (res : option (list uuid)) (t : list event) :
  confirmed entity_id t ->
  confirmed entity_id
    (EvAsk (subcategory_question level cat) true
     :: EvExecute (insert_query_for subs entity_id (Some (cat_id cat))) res :: t).
Proof.
  intros Ht t1 q r t2 H.
  destruct t1 as [|x [|y t1]]; simpl in H.
  - discriminate.
  - injection H as <- <- _ _.
    now exists [], level, cat, subs.
  - injection H as <- <- H.
    destruct (Ht _ _ _ _ H) as (t0 & level' & cat' & subs' & -> & Hq).
    eexists (_ :: _ :: t0), level', cat', subs'. split; [reflexivity|exact Hq].
Qed.

Lemma confirmed_rollback (entity_id : string) : confirmed entity_id [EvRollback].
Proof.
  intros [|x [|]] ? ? ? H; discriminate.
Qed.

Lemma df_run_confirmed (entity_id : string) (level : Z) (cats : list category)
  (r : outcome unit) (t : list event) :
  df_run entity_id level cats r t -> confirmed entity_id t.
Proof.
  induction 1.
  - apply confirmed_nil.
  - apply confirmed_nil.
  - apply confirmed_nil.
  - apply (confirmed_app _ [_]); [apply confirmed_ask|assumption].
  - apply confirmed_ask.
  - apply confirmed_yes. apply confirmed_rollback.
  - now apply confirmed_yes.
  - apply confirmed_yes. now apply confirmed_app.
Qed.

(** C4: subcategories are inserted only on a yes.  In the trace of any run
    of [process_subcategories_depth_first], every statement comes right
    after a yes to the question about the category it inserts under; and
    when the answer for a category is no, the database is left as it was
    and the run goes on with the next sibling. *)
Theorem subcategories_only_when_confirmed :
  (forall fuel entity_id cats level w t,
     trace (snd (process_subcategories_depth_first py_int accepts fuel
                   entity_id cats level w)) = trace w ++ t ->
     confirmed entity_id t) /\
  (forall fuel entity_id cat rest level w w1,
     get_yes_no (subcategory_question level cat) w = (Ret false, w1) ->
     db w1 = db w /\
     trace w1 = trace w ++ [EvAsk (subcategory_question level cat) false] /\
     process_subcategories_depth_first py_int accepts (S fuel) entity_id
       (cat :: rest) level w
     = process_subcategories_depth_first py_int accepts (S fuel) entity_id
         rest level w1).
Proof.
  split.
  - intros fuel entity_id cats level w t H.
    destruct (process_shape fuel entity_id cats level w) as (t' & Ht & Hdf).
    rewrite H in Ht. apply app_inv_head in Ht. subst t'.
    exact (df_run_confirmed _ _ _ _ _ Hdf).
  - intros fuel entity_id cat rest level w w1 H.
    destruct (get_yes_no_run (subcategory_question level cat) w)
      as [(a & rest_in & E)|(e & rest_in & E & _)];
      rewrite E in H; [|discriminate].
    injection H as -> <-.
    split; [reflexivity|]. split; [reflexivity|].
    rewrite process_cons. unfold bind at 1, process_category, bind at 1.
    fold (subcategory_question level cat). rewrite E. reflexivity.
Qed.

(** *** One transaction *)

Lemma replay_app (a b : list event) (d : database) :
  replay (a ++ b) d = replay b (replay a d).
Proof. apply fold_left_app. Qed.

Lemma replay_connected (t : list event) (d : database) :
  connected (replay t d) = connected d.
Proof.
  revert d. induction t as [|e t IH]; intros d; [reflexivity|].
  simpl. change (fold_left apply_event t (apply_event d e))
    with (replay t (apply_event d e)).
  rewrite IH. destruct e as [p a|q [ids|]| |]; try reflexivity.
  simpl. unfold add_rows. destruct (autocommit d); reflexivity.
Qed.

Lemma inserted_rows_app (a b : list event) :
  inserted_rows (a ++ b) = inserted_rows a ++ inserted_rows b.
Proof.
  induction a as [|e a IH]; [reflexivity|].
  destruct e as [p x|q [ids|]| |]; simpl; rewrite IH;
    [reflexivity|now rewrite app_assoc|reflexivity..].
Qed.

(** While the transaction is open the committed rows stay as they are, and
    the pending rows are those the statements wrote. *)
Lemma replay_quiet (t : list event) :
  forall d,
    autocommit d = false ->
    Forall quiet_event t ->
    replay t d
    = mkDb (reachable d) (connected d) false (committed d)
        (pending d ++ inserted_rows t)
        (next_id d + List.length (inserted_rows t)).
Proof.
  induction t as [|e t IH]; intros d Hd Hq.
  - simpl. rewrite app_nil_r, Nat.add_0_r. destruct d; simpl in *. now subst.
  - inversion Hq as [|? ? He Ht]; subst.
    change (replay (e :: t) d) with (replay t (apply_event d e)).
    destruct e as [[indent name|] a|q [ids|]| |]; try contradiction.
    + simpl apply_event. now rewrite IH.
    + simpl apply_event. unfold add_rows. rewrite Hd.
      rewrite IH by (reflexivity || assumption).
      cbn [reachable connected committed pending next_id inserted_rows].
      rewrite length_app, <- app_assoc, Nat.add_assoc. reflexivity.
Qed.



Lemma stage_app {A B} (a : A) (r : outcome B) (t1 t2 : list event) :
  stage (Ret a) t1 -> stage r t2 -> stage r (t1 ++ t2).
Proof.
  intros H1 H2. simpl in H1.
  assert (Hq : Forall quiet_event t2 -> Forall quiet_event (t1 ++ t2))
    by (intros; apply Forall_app; split; assumption).
  destruct r as [b|e|]; try exact (Hq H2).
  destruct e; try exact (Hq H2).
  destruct H2 as (t & q & Ht & ->).
  exists (t1 ++ t), q. split; [apply Forall_app; split; assumption|].
  now rewrite app_assoc.
Qed.

Lemma staged_ret {A} (a : A) : staged (ret a).
Proof.
  intros w. exists []. simpl. rewrite app_nil_r. repeat split. constructor.
Qed.

Lemma staged_bind {A B} (m : M A) (k : A -> M B) :
  staged m -> (forall a, staged (k a)) -> staged (bind m k).
Proof.
  intros Hm Hk w. unfold bind.
  destruct (Hm w) as (t1 & Ht1 & Hd1 & Hs1).
  destruct (m w) as [[a|e|] w1]; cbn [fst snd] in *.
  - destruct (Hk a w1) as (t2 & Ht2 & Hd2 & Hs2).
    exists (t1 ++ t2). split; [|split].
    + rewrite Ht2, Ht1. now rewrite app_assoc.
    + rewrite Hd2, Hd1. now rewrite replay_app.
    + exact (stage_app _ _ _ _ Hs1 Hs2).
  - exists t1. repeat split; assumption.
  - exists t1. repeat split; assumption.
Qed.

(** A step that only reads the terminal. *)
Lemma staged_reader {A} (m : M A) :
  (forall w, exists r rest, m w = (r, set_stdin rest w) /\ r <> Raise DbError) ->
  staged m.
Proof.
  intros H w. destruct (H w) as (r & rest & -> & Hr).
  exists []. cbn [fst snd]. simpl. rewrite app_nil_r. repeat split.
  destruct r as [a|e|]; try constructor.
  destruct e; try constructor. contradiction.
Qed.

Lemma staged_ask {A} (parse : string -> option A) : staged (ask parse).
Proof.
  apply staged_reader. intros w.
  destruct (ask_run parse w) as (r & rest & E & Hr & _).
  exists r, rest. split; [exact E|]. intros ->. exact Hr.
Qed.

Lemma staged_collect (fuel : nat) (count : Z) (indent : string) :
  staged (collect_category_names_multiline fuel count indent).
Proof.
  apply staged_reader. intros w.
  destruct (collect_run fuel count indent w) as (r & rest & E & Hr & _).
  now exists r, rest.
Qed.

Lemma staged_subcategory_question (indent name : string) :
  staged (get_yes_no (SubcategoryPrompt indent name)).
Proof.
  intros w.
  destruct (get_yes_no_run (SubcategoryPrompt indent name) w)
    as [(a & rest & ->)|(e & rest & -> & He)]; cbn [fst snd].
  - exists [EvAsk (SubcategoryPrompt indent name) a].
    repeat split. repeat constructor.
  - exists []. simpl. rewrite app_nil_r. repeat split.
    destruct e; try constructor. contradiction.
Qed.

Lemma staged_bulk_insert (cats : list (string * string)) (entity_id : string)
  (parent : option uuid) :
  staged (bulk_insert_categories accepts cats entity_id parent).
Proof.
  intros w.
  destruct cats as [|c cats].
  { exists []. simpl. rewrite app_nil_r. repeat split. constructor. }
  rewrite bulk_insert_categories_run by discriminate.
  destruct (connected (db w)); cbn [negb].
  2:{ exists []. simpl. rewrite app_nil_r. repeat split. constructor. }
  destruct (rows_accepted _ _ _); cbn [fst snd].
  - eexists [_]. split; [reflexivity|]. split; [|repeat constructor].
    unfold replay. cbn [fold_left apply_event].
    now rewrite rows_of_insert_query.
  - eexists [_; _]. split; [reflexivity|]. split; [reflexivity|].
    eexists [], _. split; [constructor|reflexivity].
Qed.

Lemma inserted_from_no_db (cats : list (string * string)) (ids : list uuid) :
  forall i acc, inserted_from i cats ids acc <> Raise DbError.
Proof.
  induction cats as [|[name desc] cats IH]; intros i acc; simpl.
  - discriminate.
  - destruct (nth_error ids i); [apply IH|discriminate].
Qed.

Lemma staged_inserted (cats : list (string * string)) (ids : list uuid) :
  staged (inserted cats ids).
Proof.
  intros w. exists []. unfold inserted. cbn [fst snd]. simpl.
  rewrite app_nil_r. repeat split.
  pose proof (inserted_from_no_db cats ids 0 []) as H.
  destruct (inserted_from 0 cats ids []) as [a|e|]; try constructor.
  destruct e; try constructor. contradiction.
Qed.

Lemma staged_cut {A} : staged (fun w => (@OutOfFuel A, w)).
Proof.
  intros w. exists []. simpl. rewrite app_nil_r. repeat split. constructor.
Qed.

Lemma staged_process (fuel : nat) (entity_id : string) :
  forall (cats : list category) (level : Z),
    staged (process_subcategories_depth_first py_int accepts fuel entity_id
              cats level).
Proof.
  induction fuel as [|fuel IHfuel]; intros cats level.
  - apply staged_cut.
  - induction cats as [|cat rest IHcats].
    + rewrite process_nil. apply staged_ret.
    + rewrite process_cons. apply staged_bind; [|intros _; exact IHcats].
      unfold process_category.
      apply staged_bind; [apply staged_subcategory_question|].
      intros [|]; [|apply staged_ret]. unfold expand.
      apply staged_bind; [apply staged_ask|]. intros sub_count.
      apply staged_bind; [apply staged_collect|]. intros sub_categories.
      apply staged_bind; [apply staged_bulk_insert|]. intros sub_ids.
      apply staged_bind; [apply staged_inserted|]. intros inserted_subs.
      apply IHfuel.
Qed.

Lemma closing_app {A B} (a : A) (r : outcome B) (t1 t2 : list event) :
  stage (Ret a) t1 -> closing r t2 -> closing r (t1 ++ t2).
Proof.
  intros H1 H2. destruct r as [b|e|].
  - destruct H2 as (t & x & Ht & ->).
    exists (t1 ++ t), x. split; [apply Forall_app; split; assumption|].
    now rewrite app_assoc.
  - exact (stage_app a (Raise e) _ _ H1 H2).
  - exact (stage_app a (@OutOfFuel B) _ _ H1 H2).
Qed.

Lemma finishing_bind {A B} (m : M A) (k : A -> M B) :
  staged m -> (forall a, finishing (k a)) -> finishing (bind m k).
Proof.
  intros Hm Hk w Hw. unfold bind.
  destruct (Hm w) as (t1 & Ht1 & Hd1 & Hs1).
  destruct (m w) as [[a|e|] w1]; cbn [fst snd] in *.
  - assert (Hw1 : connected (db w1) = true)
      by (now rewrite Hd1, replay_connected).
    destruct (Hk a w1 Hw1) as (t2 & Ht2 & Hd2 & Hs2).
    exists (t1 ++ t2). split; [|split].
    + rewrite Ht2, Ht1. now rewrite app_assoc.
    + rewrite Hd2, Hd1. now rewrite replay_app.
    + exact (closing_app _ _ _ _ Hs1 Hs2).
  - exists t1. repeat split; assumption.
  - exists t1. repeat split; assumption.
Qed.

(** The commit question and what follows it. *)
Lemma finishing_commit_question :
  finishing (confirm <- get_yes_no CommitPrompt ;;
             if confirm then commit else rollback).
Proof.
  intros w Hw. unfold bind.
  destruct (get_yes_no_run CommitPrompt w)
    as [(a & rest & ->)|(e & rest & -> & He)]; cbn [fst snd].
  - exists [EvAsk CommitPrompt a; if a then EvCommit else EvRollback].
    destruct a; unfold commit, rollback; cbn [db log set_db set_stdin];
      rewrite Hw; cbn [fst snd].
    + split; [|split; [reflexivity|]].
      * cbn. now rewrite <- app_assoc.
      * exists [], true. split; [constructor|reflexivity].
    + split; [|split; [reflexivity|]].
      * cbn. now rewrite <- app_assoc.
      * exists [], false. split; [constructor|reflexivity].
  - exists []. simpl. rewrite app_nil_r. repeat split.
    destruct e; try constructor. contradiction.
Qed.

Lemma finishing_main_body (fuel : nat) :
  finishing (main_body py_int accepts fuel).
Proof.
  unfold main_body.
  apply finishing_bind; [apply staged_ask|]. intros entity_id.
  apply finishing_bind; [apply staged_ask|]. intros top_count.
  apply finishing_bind; [apply staged_collect|]. intros top_categories.
  apply finishing_bind; [apply staged_bulk_insert|]. intros top_ids.
  apply finishing_bind; [apply staged_inserted|]. intros inserted_top.
  apply finishing_bind; [apply staged_process|]. intros _.
  apply finishing_commit_question.
Qed.


Lemma main_after_body (fuel : nat) (w : world) :
  reachable (db w) = true ->
  let w0 := snd (connect (DatabaseConnection w)) in
  w0 = mkWorld (stdin w)
         (mkDb true true false (committed (db w)) [] (next_id (db w))) (trace w)
  /\ main py_int accepts fuel w
     = match main_body py_int accepts fuel w0 with
       | (Ret _, w1) => (Finished, snd (disconnect w1))
       | (Raise _, w1) => (Finished, snd (disconnect (snd (rollback w1))))
       | (OutOfFuel, w1) => (Cut, w1)
       end.
Proof.
  intros Hr w0. subst w0.
  unfold main, connect, DatabaseConnection.
  cbn [db set_db reachable]. rewrite Hr. cbn [negb snd].
  split; [reflexivity|].
  destruct (main_body _ _ _ _) as [[u|[]|] w1]; reflexivity.
Qed.





End Tool.

Lemma process_subcategories_depth_first_order_witness :
  let typed := ["yes"; "2"; "Potholes"; "Lighting"; ""; "n"; "n"; "no"] in
  let run := process_subcategories_depth_first decimal unique_name 3
               demo_entity demo_categories 1 (demo_world typed) in
  fst run = Ret tt /\
  traversal decimal unique_name demo_entity 1 demo_categories
    (demo_world typed) (fst run) (snd run) /\
  exists t,
    trace (snd run) = trace (demo_world typed) ++ t /\
    df_run demo_entity 1 demo_categories (fst run) t /\
    (fst run = Ret tt -> depth_first demo_entity 1 demo_categories t).
Proof.
  intros typed run. split; [vm_compute; reflexivity|].
  apply (process_subcategories_depth_first_order decimal unique_name 3
           demo_entity demo_categories 1 (demo_world typed)).
Defined.

Lemma subcategories_only_when_confirmed_witness :
  let typed := ["yes"; "1"; "Potholes"; ""; "n"; "no"] in
  let w := demo_world typed in
  confirmed demo_entity
    (trace (snd (process_subcategories_depth_first decimal unique_name 3
                   demo_entity demo_categories 1 w))) /\
  process_subcategories_depth_first decimal unique_name 3 demo_entity
    demo_categories 1 (demo_world ["no"; "n"])
  = process_subcategories_depth_first decimal unique_name 3 demo_entity
      [mkCategory 1 "Water"] 1
      (mkWorld [Line "n"] (db (demo_world []))
         [EvAsk (subcategory_question 1 (mkCategory 0 "Roads")) false]).
Proof.
  intros typed w. split.
  - apply (proj1 (subcategories_only_when_confirmed decimal unique_name)
             3 demo_entity demo_categories 1%Z w).
    reflexivity.
  - apply (proj2 (subcategories_only_when_confirmed decimal unique_name)
             2 demo_entity (mkCategory 0 "Roads") [mkCategory 1 "Water"] 1%Z
             (demo_world ["no"; "n"])).
    reflexivity.
Defined.

Lemma bulk_insert_categories_ids_witness :
  let cats := [("Roads", "Contains all roads related entries");
               ("Water", "Contains all water related entries")] in
  let w := demo_world [] in
  let rows := category_rows (next_id (db w)) cats demo_entity None in
  exists ids,
    bulk_insert_categories unique_name cats demo_entity None w
    = (Ret ids,
       log [EvExecute (insert_query_for cats demo_entity None) (Some ids)]
         (set_db (add_rows (db w) rows) w)) /\
    List.length ids = List.length cats /\
    (forall k name description,
       nth_error cats k = Some (name, description) ->
       exists id,
         nth_error ids k = Some id /\
         nth_error rows k
         = Some (mkRow id name description "OTHER" "PUBLIC" demo_entity None)).
Proof.
  intros cats w rows.
  apply (bulk_insert_categories_ids unique_name cats demo_entity None w).
  - discriminate.
  - reflexivity.
  - reflexivity.
Defined.


(** On input without Ctrl-C, the inner loop of
    [collect_category_names_multiline] reads what [get_bulk_input] reads. *)
Lemma read_lines_get_bulk_input (typed lines : list string) (n : Z) :
  read_lines (map Line typed) lines n
  = (Ret (fst (FormFieldMapping.get_bulk_input_loop typed lines n)),
     map Line (snd (FormFieldMapping.get_bulk_input_loop typed lines n))).
Proof.
  revert lines n. induction typed as [|l typed IH]; intros lines n; simpl.
  - reflexivity.
  - destruct (strip l =? "")%string; [|apply IH].
    destruct (1 <=? n + 1)%Z; [reflexivity|apply IH].
Qed.

End CategoryManagerFacts.

(** ** FormFieldMapping: further properties *)

Module FormFieldMappingMore.

Import PyStr PyStrFacts FormFieldMapping FormFieldMappingFacts More.

Lemma filter_append (keep : ascii -> bool) (a b : string) :
  filter keep (a ++ b)%string = (filter keep a ++ filter keep b)%string.
Proof.
  induction a as [|c a IH]; simpl; [reflexivity|].
  destruct (keep c); simpl; now rewrite IH.
Qed.

Lemma lower_append (a b : string) :
  lower (a ++ b)%string = (lower a ++ lower b)%string.
Proof. induction a as [|c a IH]; simpl; [reflexivity|now rewrite IH]. Qed.

Lemma filter_all_chars (keep : ascii -> bool) (s : string) :
  all_chars (fun c => keep c = true) (filter keep s).
Proof.
  induction s as [|c s IH]; simpl; [exact I|].
  destruct (keep c) eqn:E; simpl; auto.
Qed.

Lemma special_lower_char (c : ascii) : special (lower_char c) = special c.
Proof. destruct c as [[] [] [] [] [] [] [] []]; reflexivity. Qed.

Lemma filter_lower (s : string) :
  filter (fun c => negb (special c)) (lower s)
  = lower (filter (fun c => negb (special c)) s).
Proof.
  induction s as [|c s IH]; simpl; [reflexivity|].
  rewrite special_lower_char. destruct (special c); simpl; now rewrite IH.
Qed.

Lemma lower_all_chars (s : string) :
  all_chars (fun c => lower_char c = c) (lower s).
Proof.
  induction s as [|c s IH]; simpl; [exact I|].
  split; [apply lower_char_idem|exact IH].
Qed.

(** X1: a normalized name holds no character of the class [[/\-_().,\s]] and no
    capital letter: lowercasing leaves each of its characters as it is. *)
Theorem normalize_field_name_clean (s : string) :
  all_chars (fun c => special c = false /\ lower_char c = c)
    (normalize_field_name s).
Proof.
  rewrite normalize_field_name_eq.
  induction s as [|c s IH]; simpl; [exact I|].
  destruct (special (lower_char c)) eqn:E; simpl; [exact IH|].
  split; [|exact IH]. split; [exact E|apply lower_char_idem].
Qed.

(** X2: for names written with code points below 256 (Latin-1, the strings
    of this development, on which [str.lower] goes character by character),
    matching by normalized name ignores case, and ignores the characters of
    the class wherever they stand: normalizing goes through concatenation,
    drops a character of the class, and gives the same for a name and its
    lowercase form.  The first two are facts of that range only: with a
    capital sigma in the name, [str.lower] depends on what follows it. *)
Theorem normalize_field_name_insensitive :
  (forall a b,
     normalize_field_name (a ++ b)%string
     = (normalize_field_name a ++ normalize_field_name b)%string) /\
  (forall a c b,
     special c = true ->
     normalize_field_name (a ++ String c b)%string
     = normalize_field_name (a ++ b)%string) /\
  (forall s, normalize_field_name (lower s) = normalize_field_name s).
Proof.
  split; [|split].
  - intros a b. rewrite !normalize_field_name_eq.
    now rewrite lower_append, filter_append.
  - intros a c b Hc. rewrite !normalize_field_name_eq.
    rewrite !lower_append, !filter_append. simpl.
    now rewrite special_lower_char, Hc.
  - intros s. rewrite !normalize_field_name_eq. now rewrite lower_idem.
Qed.

Lemma normalize_field_name_insensitive_witness :
  normalize_field_name ("First" ++ String "-" "Name")%string
  = normalize_field_name ("First" ++ "Name")%string.
Proof.
  apply (proj1 (proj2 normalize_field_name_insensitive) "First" "-"%char "Name").
  reflexivity.
Defined.

Section Transactions.

Variable accepts : list mapping -> mapping -> bool.
Variable commit_ok : list mapping -> list mapping -> bool.

(** X3: [insert_mappings] returns [True] exactly when every insert is
    accepted and the commit succeeds. *)
Theorem insert_mappings_true_iff (c : conn) (form_id : string)
  (fields : list resolved_field) :
  let rows := mappings_from form_id 1 fields in
  fst (insert_mappings accepts commit_ok c form_id fields) = true <->
  all_accepted accepts (committed c ++ pending c) rows = true /\
  commit_ok (committed c) (pending c ++ rows) = true.
Proof.
  intros rows. split.
  - intros H.
    destruct (insert_mappings accepts commit_ok c form_id fields) as [ok c'] eqn:E.
    simpl in H. subst ok.
    exact (insert_mappings_true_inv _ _ _ _ _ _ E).
  - intros [Hacc Hcommit]. unfold insert_mappings. fold rows.
    rewrite (insert_loop_accepted _ _ _ _ _ Hacc). fold rows.
    unfold commit. cbn [committed pending calls].
    now rewrite Hcommit.
Qed.

(** X4: when every insert is accepted but the commit fails,
    [insert_mappings] rolls back and returns [False]; none of the rows is
    committed and nothing is left pending. *)
Theorem insert_mappings_commit_failure (c : conn) (form_id : string)
  (fields : list resolved_field) :
  let rows := mappings_from form_id 1 fields in
  all_accepted accepts (committed c ++ pending c) rows = true ->
  commit_ok (committed c) (pending c ++ rows) = false ->
  insert_mappings accepts commit_ok c form_id fields
  = (false, mkConn (committed c) []
              (calls c ++ map Execute rows ++ [Commit; Rollback])).
Proof.
  intros rows Hacc Hcommit. unfold insert_mappings. fold rows.
  rewrite (insert_loop_accepted _ _ _ _ _ Hacc). fold rows.
  unfold commit, rollback. cbn [committed pending calls].
  rewrite Hcommit. now rewrite <- !app_assoc.
Qed.

Lemma insert_mappings_after (c : conn) (form_id : string)
  (fields : list resolved_field) :
  let run := insert_mappings accepts commit_ok c form_id fields in
  pending (snd run) = [] /\
  committed (snd run)
  = if fst run
    then committed c ++ pending c ++ mappings_from form_id 1 fields
    else committed c.
Proof.
  intros run. subst run.
  destruct (all_accepted accepts (committed c ++ pending c)
              (mappings_from form_id 1 fields)) eqn:Hacc.
  - destruct (commit_ok (committed c)
                (pending c ++ mappings_from form_id 1 fields)) eqn:Hc.
    + unfold insert_mappings.
      rewrite (insert_loop_accepted _ _ _ _ _ Hacc).
      unfold commit. cbn [committed pending calls]. rewrite Hc.
      cbn. now split.
    + rewrite (insert_mappings_commit_refused _ _ _ _ _ Hacc Hc).
      now split.
  - destruct (insert_loop_refused _ _ _ _ _ Hacc) as (attempted & c1 & E & Hc1 & _).
    unfold insert_mappings. rewrite E. cbn. now split.
Qed.

(** X5: whatever happens, [insert_mappings] leaves no transaction open, and
    the committed rows afterwards are those from before the call, followed,
    when it returns [True], by the rows that were pending and one row per
    field. *)
Theorem insert_mappings_closes_transaction (c : conn) (form_id : string)
  (fields : list resolved_field) :
  let run := insert_mappings accepts commit_ok c form_id fields in
  pending (snd run) = [] /\
  committed (snd run)
  = if fst run
    then committed c ++ pending c ++ mappings_from form_id 1 fields
    else committed c.
Proof.
  intros run. subst run.
  destruct (all_accepted accepts (committed c ++ pending c)
              (mappings_from form_id 1 fields)) eqn:Hacc.
  - unfold insert_mappings.
    rewrite (insert_loop_accepted _ _ _ _ _ Hacc).
    unfold commit, rollback. cbn [committed pending calls].
    destruct (commit_ok (committed c)
                (pending c ++ mappings_from form_id 1 fields));
      cbn; now split.
  - destruct (insert_loop_refused _ _ _ _ _ Hacc) as (attempted & c1 & E & Hc1 & _).
    unfold insert_mappings. rewrite E. cbn. now split.
Qed.

End Transactions.

Lemma insert_mappings_true_iff_witness :
  fst (insert_mappings once_per_form always (mkConn [] [] []) "form-9"
         [mkResolved "f-1" "Name" "name"; mkResolved "f-2" "E-mail" "email"])
  = true.
Proof.
  apply (proj2 (insert_mappings_true_iff once_per_form always
                  (mkConn [] [] []) "form-9"
                  [mkResolved "f-1" "Name" "name";
                   mkResolved "f-2" "E-mail" "email"])).
  split; reflexivity.
Defined.

Lemma insert_mappings_commit_failure_witness :
  insert_mappings once_per_form never (mkConn [] [] []) "form-9"
    [mkResolved "f-1" "Name" "name"]
  = (false,
     mkConn [] [] [Execute (mkMapping "form-9" "f-1" 1); Commit; Rollback]).
Proof.
  apply (insert_mappings_commit_failure once_per_form never
           (mkConn [] [] []) "form-9" [mkResolved "f-1" "Name" "name"]);
    reflexivity.
Defined.

(** *** The preview table *)

Lemma length_append (a b : string) :
  String.length (a ++ b)%string = String.length a + String.length b.
Proof. induction a as [|c a IH]; simpl; [reflexivity|now rewrite IH]. Qed.

Lemma length_str_repeat (s : string) (n : nat) :
  String.length (CategoryManager.str_repeat s n) = n * String.length s.
Proof.
  induction n as [|n IH]; simpl; [reflexivity|].
  now rewrite length_append, IH.
Qed.

Lemma length_slice_to (k : nat) (s : string) :
  String.length (slice_to k s) = Nat.min k (String.length s).
Proof.
  unfold slice_to. revert k. induction s as [|c s IH]; intros [|k]; simpl;
    try reflexivity.
  now rewrite IH.
Qed.

Lemma length_ljust (s : string) (width : nat) :
  String.length (ljust s width) = Nat.max (String.length s) width.
Proof.
  unfold ljust. rewrite length_append, length_str_repeat. simpl. lia.
Qed.

Lemma length_shorten (k : nat) (s : string) :
  String.length (shorten k s) <= k + 3.
Proof.
  unfold shorten. destruct (Nat.ltb_spec k (String.length s)).
  - rewrite length_append, length_slice_to. simpl. lia.
  - lia.
Qed.

Lemma length_ljust_shorten (k width : nat) (s : string) :
  k + 3 <= width -> String.length (ljust (shorten k s) width) = width.
Proof.
  intros H. rewrite length_ljust. pose proof (length_shorten k s). lia.
Qed.

Lemma preview_rows_length (field : resolved_field) :
  String.length (preview_row_by_name field) = 81 /\
  String.length (preview_row_by_id field)
  = 43 + Nat.max (String.length (r_field_name field)) 35.
Proof.
  unfold preview_row_by_name, preview_row_by_id.
  rewrite !length_append, !length_ljust_shorten by lia.
  rewrite length_ljust. simpl. split; lia.
Qed.

Lemma all_chars_str_repeat_space (n : nat) :
  all_chars (fun c => c = " "%char) (CategoryManager.str_repeat " " n).
Proof. induction n as [|n IH]; simpl; auto. Qed.

Lemma padded_ljust (s : string) (width : nat) : padded s width (ljust s width).
Proof.
  exists (CategoryManager.str_repeat " " (width - String.length s)).
  split; [reflexivity|]. split; [apply all_chars_str_repeat_space|].
  apply length_ljust.
Qed.

Lemma cut_to_shorten (k : nat) (s : string) : cut_to k s (shorten k s).
Proof.
  unfold cut_to, shorten, slice_to.
  destruct (Nat.ltb_spec k (String.length s)); [right|left]; auto.
Qed.

(** X6: [display_preview_table] prints six lines around one line per field,
    the line of the k-th field in place 5+k.  In Field ID mode that line is
    the field id, cut to 36 characters and three dots when it is longer, in
    a column exactly 40 wide, then [ | ], then the field name, in full, in
    a column of 35 or more when the name is longer; the line is
    43+max(len(name),35) long.  In Field Name mode it is the input cut to
    22, the name cut to 27 and the id cut to 16, in columns exactly 25, 30
    and 20 wide with [ | ] between them: 81 characters in all. *)
Theorem preview_table_aligned (fields : list resolved_field) (input_mode : Z) :
  List.length (display_preview_table fields input_mode)
  = List.length fields + 6 /\
  (forall k field,
     nth_error fields k = Some field ->
     exists line,
       nth_error (display_preview_table fields input_mode) (5 + k) = Some line /\
       if (input_mode =? 1)%Z
       then
         exists shown c1 c2,
           cut_to 36 (r_id field) shown /\
           padded shown 40 c1 /\ String.length c1 = 40 /\
           padded (r_field_name field) 35 c2 /\
           line = (c1 ++ " | " ++ c2)%string /\
           String.length line
           = 43 + Nat.max (String.length (r_field_name field)) 35
       else
         exists shown1 shown2 shown3 c1 c2 c3,
           cut_to 22 (r_input_name field) shown1 /\
           cut_to 27 (r_field_name field) shown2 /\
           cut_to 16 (r_id field) shown3 /\
           padded shown1 25 c1 /\ String.length c1 = 25 /\
           padded shown2 30 c2 /\ String.length c2 = 30 /\
           padded shown3 20 c3 /\ String.length c3 = 20 /\
           line = (c1 ++ " | " ++ c2 ++ " | " ++ c3)%string /\
           String.length line = 81).
Proof.
  unfold display_preview_table. split.
  - destruct (input_mode =? 1)%Z; rewrite !length_app, length_map; simpl; lia.
  - intros k field Hk.
    destruct (input_mode =? 1)%Z.
    + exists (preview_row_by_id field). split.
      * cbn [app nth_error Nat.add].
        rewrite nth_error_app1
          by (rewrite length_map; apply nth_error_Some; congruence).
        now rewrite nth_error_map, Hk.
      * exists (shorten 36 (r_id field)), (ljust (shorten 36 (r_id field)) 40),
          (ljust (r_field_name field) 35).
        split; [apply cut_to_shorten|]. split; [apply padded_ljust|].
        split; [apply length_ljust_shorten; lia|].
        split; [apply padded_ljust|]. split; [reflexivity|].
        apply preview_rows_length.
    + exists (preview_row_by_name field). split.
      * cbn [app nth_error Nat.add].
        rewrite nth_error_app1
          by (rewrite length_map; apply nth_error_Some; congruence).
        now rewrite nth_error_map, Hk.
      * exists (shorten 22 (r_input_name field)),
          (shorten 27 (r_field_name field)), (shorten 16 (r_id field)),
          (ljust (shorten 22 (r_input_name field)) 25),
          (ljust (shorten 27 (r_field_name field)) 30),
          (ljust (shorten 16 (r_id field)) 20).
        repeat (split; [first [apply cut_to_shorten | apply padded_ljust
                              | apply length_ljust_shorten; lia]|]).
        split; [reflexivity|]. apply preview_rows_length.
Qed.

Lemma preview_table_aligned_witness :
  let field := mkResolved "3f0c1c1e-0000-4000-8000-000000000001"
                 "Name of the applicant as in records" "applicant name" in
  exists line,
    nth_error (display_preview_table [mkResolved "f-0" "Age" "age"; field] 2) 6
    = Some line /\
    exists shown1 shown2 shown3 c1 c2 c3,
      cut_to 22 (r_input_name field) shown1 /\
      cut_to 27 (r_field_name field) shown2 /\
      cut_to 16 (r_id field) shown3 /\
      padded shown1 25 c1 /\ String.length c1 = 25 /\
      padded shown2 30 c2 /\ String.length c2 = 30 /\
      padded shown3 20 c3 /\ String.length c3 = 20 /\
      line = (c1 ++ " | " ++ c2 ++ " | " ++ c3)%string /\
      String.length line = 81.
Proof.
  intros field.
  apply (proj2 (preview_table_aligned
                  [mkResolved "f-0" "Age" "age"; field] 2) 1 field).
  reflexivity.
Defined.

(** *** The lines of [get_bulk_input] *)

Lemma get_bulk_input_loop_no_empty (stdin : list string) :
  forall lines n,
    ~ In "" lines ->
    ~ In "" (fst (get_bulk_input_loop stdin lines n)).
Proof.
  induction stdin as [|l stdin IH]; intros lines n H; simpl; [exact H|].
  destruct (strip l =? "")%string eqn:E.
  - destruct (1 <=? n + 1)%Z; [exact H|now apply IH].
  - apply IH. intros Hin. apply in_app_or in Hin as [Hin|[Hin|[]]]; [tauto|].
    rewrite Hin in E. discriminate.
Qed.

Lemma keep_truthy_id (lines : list string) :
  ~ In "" lines -> keep_truthy lines = lines.
Proof.
  induction lines as [|l lines IH]; intros H; simpl; [reflexivity|].
  destruct l as [|c l]; [exfalso; apply H; now left|].
  simpl. rewrite IH; [reflexivity|]. intros Hin. apply H. now right.
Qed.

Lemma read_lines_no_empty (pending_input : list CategoryManager.inp) :
  forall lines n ls,
    ~ In "" lines ->
    fst (CategoryManager.read_lines pending_input lines n)
    = CategoryManager.Ret ls ->
    ~ In "" ls.
Proof.
  induction pending_input as [|[l|] rest IH]; intros lines n ls H E; simpl in E.
  - now injection E as <-.
  - destruct (strip l =? "")%string eqn:El.
    + destruct (1 <=? n + 1)%Z; [now injection E as <-|].
      exact (IH _ _ _ H E).
    + refine (IH _ _ _ _ E).
      intros Hin. apply in_app_or in Hin as [Hin|[Hin|[]]]; [tauto|].
      rewrite Hin in El. discriminate.
  - discriminate.
Qed.

(** X7: the lines [get_bulk_input] returns are non-empty already, so the
    filter [[f for f in field_inputs if f]] that [main] applies to them
    keeps them all; the same holds of the filter that
    [collect_category_names_multiline] applies to the lines of its inner
    loop. *)
Theorem blank_line_filters_keep_all :
  (forall stdin,
     keep_truthy (fst (get_bulk_input stdin)) = fst (get_bulk_input stdin)) /\
  (forall w ls,
     fst (CategoryManager.read_block w) = CategoryManager.Ret ls ->
     CategoryManager.non_empty ls = ls).
Proof.
  split.
  - intros stdin. apply keep_truthy_id. unfold get_bulk_input.
    apply get_bulk_input_loop_no_empty. intros [].
  - intros w ls H. apply keep_truthy_id.
    unfold CategoryManager.read_block in H.
    destruct (CategoryManager.read_lines (CategoryManager.stdin w) [] 0)
      as [r rest] eqn:E.
    simpl in H. subst r.
    refine (read_lines_no_empty (CategoryManager.stdin w) [] 0%Z ls _ _).
    + intros [].
    + now rewrite E.
Qed.

Lemma blank_line_filters_keep_all_witness :
  CategoryManager.non_empty ["Roads"; "Water"] = ["Roads"; "Water"].
Proof.
  apply (proj2 blank_line_filters_keep_all
           (CategoryManager.demo_world [" Roads"; "Water "; ""; "x"])).
  reflexivity.
Defined.

End FormFieldMappingMore.

(** ** category_manager: further properties *)

Module CategoryManagerMore.

Import PyStr PyStrFacts CategoryManager CategoryManagerFacts More.

(** *** The input helpers *)

(** How the loop of the input helpers ends, read back from its result: the
    lines before the accepted one were all refused. *)
Lemma prompt_until_inv {A} (parse : string -> option A) (l : list inp) :
  match prompt_until parse l with
  | (Ret v, rest) =>
      exists pre a,
        l = map Line pre ++ Line a :: rest /\
        Forall (fun s => parse s = None) pre /\ parse a = Some v
  | (Raise EOFError, rest) =>
      exists pre,
        l = map Line pre /\ rest = [] /\ Forall (fun s => parse s = None) pre
  | (Raise KeyboardInterrupt, rest) =>
      exists pre,
        l = map Line pre ++ CtrlC :: rest /\
        Forall (fun s => parse s = None) pre
  | _ => False
  end.
Proof.
  induction l as [|[s|] l IH]; simpl.
  - exists []. repeat split. constructor.
  - destruct (parse s) as [v|] eqn:E.
    + exists [], s. repeat split; [constructor|exact E].
    + destruct (prompt_until parse l) as [[v|[]|] rest]; try contradiction.
      * destruct IH as (pre & a & -> & Hpre & Ha).
        exists (s :: pre), a. repeat split; [now constructor|exact Ha].
      * destruct IH as (pre & -> & -> & Hpre).
        exists (s :: pre). repeat split. now constructor.
      * destruct IH as (pre & -> & Hpre).
        exists (s :: pre). repeat split. now constructor.
  - exists []. repeat split. constructor.
Qed.

Lemma ask_inv {A} (parse : string -> option A) (w w' : world) (v : A) :
  ask parse w = (Ret v, w') ->
  w' = set_stdin (stdin w') w /\
  exists pre a,
    stdin w = map Line pre ++ Line a :: stdin w' /\
    Forall (fun s => parse s = None) pre /\ parse a = Some v.
Proof.
  unfold ask. pose proof (prompt_until_inv parse (stdin w)) as H.
  destruct (prompt_until parse (stdin w)) as [r rest].
  intros [= -> <-]. split; [reflexivity|exact H].
Qed.

Lemma yes_no_value_spec (s : string) :
  match yes_no_value s with
  | Some true => says_yes s
  | Some false => says_no s
  | None => ~ says_yes s /\ ~ says_no s
  end.
Proof.
  unfold yes_no_value, says_yes, says_no.
  destruct (String.eqb_spec (lower (strip s)) "y") as [E1|E1];
    [now left|].
  destruct (String.eqb_spec (lower (strip s)) "yes") as [E2|E2];
    [now right|].
  destruct (String.eqb_spec (lower (strip s)) "n") as [E3|E3];
    [now left|].
  destruct (String.eqb_spec (lower (strip s)) "no") as [E4|E4];
    [now right|].
  simpl. tauto.
Qed.

(** X8: when [get_yes_no] returns, it has skipped every line that is
    neither a yes nor a no and read one more line: a y or yes (in any case,
    spaces around it ignored) for [True], an n or no for [False].  The
    lines after it are left unread and the database is not touched. *)
Theorem get_yes_no_answer (p : prompt) (w w' : world) (b : bool) :
  get_yes_no p w = (Ret b, w') ->
  db w' = db w /\
  trace w' = trace w ++ [EvAsk p b] /\
  exists pre a,
    stdin w = map Line pre ++ Line a :: stdin w' /\
    Forall (fun s => ~ says_yes s /\ ~ says_no s) pre /\
    (if b then says_yes a else says_no a).
Proof.
  unfold get_yes_no, bind. intros H.
  destruct (ask yes_no_value w) as [[v|e|] w1] eqn:E; try discriminate.
  injection H as <- <-.
  destruct (ask_inv _ _ _ _ E) as (Hw1 & pre & a & Hs & Hpre & Ha).
  rewrite Hw1. cbn. repeat split.
  exists pre, a. split; [exact Hs|]. split.
  - eapply Forall_impl; [|exact Hpre]. intros s Hsn.
    pose proof (yes_no_value_spec s) as Hspec. now rewrite Hsn in Hspec.
  - pose proof (yes_no_value_spec a) as Hspec. now rewrite Ha in Hspec.
Qed.

Lemma get_yes_no_answer_witness :
  let w := demo_world ["maybe"; "  YES "; "n"] in
  db (snd (get_yes_no CommitPrompt w)) = db w /\
  trace (snd (get_yes_no CommitPrompt w)) = trace w ++ [EvAsk CommitPrompt true] /\
  exists pre a,
    stdin w = map Line pre ++ Line a :: stdin (snd (get_yes_no CommitPrompt w)) /\
    Forall (fun s => ~ says_yes s /\ ~ says_no s) pre /\
    says_yes a.
Proof.
  intros w.
  apply (get_yes_no_answer CommitPrompt w (snd (get_yes_no CommitPrompt w)) true).
  reflexivity.
Defined.

Section Tool.

Variable py_int : string -> option Z.

(** X9: when [get_positive_integer] returns, the value is positive and is
    what [int] makes of the line read last, stripped; every line before it
    was no integer or an integer not above zero. *)
Theorem get_positive_integer_positive (w w' : world) (v : Z) :
  get_positive_integer py_int w = (Ret v, w') ->
  (0 < v)%Z /\
  db w' = db w /\ trace w' = trace w /\
  exists pre a,
    stdin w = map Line pre ++ Line a :: stdin w' /\
    py_int (strip a) = Some v /\
    Forall (fun s => match py_int (strip s) with
                     | Some x => (x <= 0)%Z
                     | None => True
                     end) pre.
Proof.
  unfold get_positive_integer. intros H.
  destruct (ask_inv _ _ _ _ H) as (Hw & pre & a & Hs & Hpre & Ha).
  destruct (py_int (strip a)) as [x|] eqn:Ex; [|discriminate].
  destruct (Z.ltb_spec 0 x); [|discriminate]. injection Ha as ->.
  split; [assumption|]. rewrite Hw at 1 2. cbn. repeat split.
  exists pre, a. split; [exact Hs|]. split; [exact Ex|].
  eapply Forall_impl; [|exact Hpre]. intros s Hsn. cbv beta in Hsn.
  destruct (py_int (strip s)) as [y|]; [|exact I].
  destruct (Z.ltb_spec 0 y); [discriminate|assumption].
Qed.

End Tool.

Lemma get_positive_integer_positive_witness :
  let w := demo_world ["zero"; "0"; " 3 "; "Roads"] in
  let run := get_positive_integer decimal w in
  (0 < 3)%Z /\
  db (snd run) = db w /\ trace (snd run) = trace w /\
  exists pre a,
    stdin w = map Line pre ++ Line a :: stdin (snd run) /\
    decimal (strip a) = Some 3%Z /\
    Forall (fun s => match decimal (strip s) with
                     | Some x => (x <= 0)%Z
                     | None => True
                     end) pre.
Proof.
  intros w run.
  apply (get_positive_integer_positive decimal w (snd run) 3).
  reflexivity.
Defined.

(** *** [get_valid_uuid] *)

Lemma last_char_append (a b : string) :
  last_char (a ++ b)%string
  = match last_char b with
    | Some c => Some c
    | None => last_char a
    end.
Proof.
  induction a as [|x a IH]; simpl.
  - now destruct (last_char b).
  - rewrite IH. destruct (last_char b); [reflexivity|].
    reflexivity.
Qed.

Lemma rstrip_last_char (s : string) (c : ascii) :
  last_char (rstrip s) = Some c -> isspace c = false.
Proof.
  induction s as [|a s IH]; simpl; [discriminate|].
  destruct (rstrip s) as [|d r] eqn:R.
  - destruct (isspace a) eqn:E; simpl; [discriminate|].
    now intros [= <-].
  - intros H. apply IH. simpl in *.
    destruct (last_char r); [assumption|].
    now injection H as <-.
Qed.

Lemma strip_last_char (s : string) (c : ascii) :
  last_char (strip s) = Some c -> isspace c = false.
Proof. apply rstrip_last_char. Qed.

Lemma hex_run_inv (n : nat) :
  forall s r,
    hex_run n s = Some r ->
    exists h, s = (h ++ r)%string /\ hex_digits n h.
Proof.
  induction n as [|n IH]; intros s r H; simpl in H.
  - injection H as ->. exists ""%string. repeat split.
  - destruct s as [|c s]; [discriminate|].
    destruct (is_hex c) eqn:E; [|discriminate].
    destruct (IH _ _ H) as (h & -> & Hl & Hh).
    exists (String c h). repeat split; simpl; auto.
Qed.

Lemma dash_then_inv (n : nat) (s r : string) :
  dash_then n s = Some r ->
  exists h, s = ("-" ++ h ++ r)%string /\ hex_digits n h.
Proof.
  unfold dash_then. destruct s as [|c s]; [discriminate|].
  destruct (Ascii.eqb_spec c "-"); [|discriminate]. subst c.
  intros H. destruct (hex_run_inv _ _ _ H) as (h & -> & Hh).
  now exists h.
Qed.

Lemma and_then_inv {A B} (o : option A) (f : A -> option B) (b : B) :
  and_then o f = Some b -> exists a, o = Some a /\ f a = Some b.
Proof. destruct o as [a|]; [|discriminate]. intros H. now exists a. Qed.

(** X10: what [get_valid_uuid] returns is a UUID in text form: 36
    characters, five groups of 8, 4, 4, 4 and 12 hexadecimal digits with
    hyphens between them.  Since the line is stripped first, the newline
    that [$] would let through cannot follow. *)
Theorem get_valid_uuid_shape (w w' : world) (v : string) :
  get_valid_uuid w = (Ret v, w') ->
  String.length v = 36 /\
  exists a b c d e,
    v = (a ++ "-" ++ b ++ "-" ++ c ++ "-" ++ d ++ "-" ++ e)%string /\
    hex_digits 8 a /\ hex_digits 4 b /\ hex_digits 4 c /\
    hex_digits 4 d /\ hex_digits 12 e.
Proof.
  unfold get_valid_uuid. intros H.
  destruct (ask_inv _ _ _ _ H) as (_ & pre & line & _ & _ & Hv).
  destruct (uuid_pattern_match (strip line)) eqn:M; [|discriminate].
  injection Hv as Hv.
  unfold uuid_pattern_match in M.
  destruct (and_then _ (dash_then 12)) as [rest|] eqn:E5; [|discriminate].
  apply and_then_inv in E5 as (s4 & E4 & E5).
  apply and_then_inv in E4 as (s3 & E3 & E4).
  apply and_then_inv in E3 as (s2 & E2 & E3).
  apply and_then_inv in E2 as (s1 & E1 & E2).
  apply hex_run_inv in E1 as (a & Ea & Ha).
  apply dash_then_inv in E2 as (b & -> & Hb).
  apply dash_then_inv in E3 as (c & -> & Hc).
  apply dash_then_inv in E4 as (d & -> & Hd).
  apply dash_then_inv in E5 as (e & -> & He).
  assert (Hrest : rest = ""%string).
  { destruct rest as [|x [|y rest]]; [reflexivity| |discriminate].
    destruct (Ascii.eqb_spec x "010"); [|discriminate]. subst x.
    exfalso.
    assert (L : last_char (strip line) = Some "010"%char).
    { rewrite Ea. rewrite !last_char_append. reflexivity. }
    apply strip_last_char in L. discriminate. }
  subst rest. rewrite Hv in Ea. subst v.
  assert (R : forall x : string, (x ++ "")%string = x).
  { induction x as [|k x IH]; simpl; [reflexivity|now rewrite IH]. }
  rewrite R.
  split.
  - destruct Ha as [La _], Hb as [Lb _], Hc as [Lc _], Hd as [Ld _], He as [Le _].
    rewrite !FormFieldMappingMore.length_append, La, Lb, Lc, Ld, Le.
    reflexivity.
  - exists a, b, c, d, e. repeat split; try apply Ha; try apply Hb;
      try apply Hc; try apply Hd; try apply He.
Qed.

Lemma get_valid_uuid_shape_witness :
  let w := demo_world ["not-a-uuid"; "  12345678-abcd-ABCD-0000-123456789012 "] in
  String.length demo_entity = 36 /\
  exists a b c d e,
    demo_entity = (a ++ "-" ++ b ++ "-" ++ c ++ "-" ++ d ++ "-" ++ e)%string /\
    hex_digits 8 a /\ hex_digits 4 b /\ hex_digits 4 c /\
    hex_digits 4 d /\ hex_digits 12 e.
Proof.
  intros w.
  apply (get_valid_uuid_shape w (snd (get_valid_uuid w)) demo_entity).
  reflexivity.
Defined.

(** *** [generate_description] *)

Lemma append_assoc (a b c : string) :
  ((a ++ b) ++ c)%string = (a ++ b ++ c)%string.
Proof. induction a as [|x a IH]; simpl; [reflexivity|now rewrite IH]. Qed.

Lemma append_nil_r (a : string) : (a ++ "")%string = a.
Proof. induction a as [|x a IH]; simpl; [reflexivity|now rewrite IH]. Qed.

Lemma is_empty_append_char (a : string) (c : ascii) :
  is_empty (a ++ String c "") = false.
Proof. now destruct a. Qed.

(** Splitting goes through a whitespace character. *)
Lemma split_ws_sep (a b : string) (sp : ascii) :
  isspace sp = true ->
  forall word,
    split_ws (a ++ String sp b) word = split_ws a word ++ split b.
Proof.
  intros Hsp. induction a as [|c a IH]; intros word; simpl.
  - rewrite Hsp. unfold split. now destruct (is_empty word).
  - destruct (isspace c).
    + destruct (is_empty word); simpl; now rewrite IH.
    + apply IH.
Qed.

Lemma all_chars_append (P : ascii -> Prop) (a b : string) :
  all_chars P a -> all_chars P b -> all_chars P (a ++ b).
Proof. induction a as [|c a IH]; simpl; [auto|]. intros [H1 H2] H3. auto. Qed.

Lemma split_ws_words (s : string) :
  forall word,
    all_chars (fun c => isspace c = false) word ->
    Forall is_word (split_ws s word).
Proof.
  induction s as [|c s IH]; intros word Hw; simpl.
  - destruct word as [|x word]; simpl; [constructor|].
    constructor; [|constructor]. split; [discriminate|exact Hw].
  - destruct (isspace c) eqn:E.
    + destruct word as [|x word]; simpl; [now apply IH|].
      constructor; [split; [discriminate|exact Hw]|now apply IH].
    + apply IH. apply all_chars_append; [exact Hw|]. simpl. auto.
Qed.

(** A word runs into the word being read. *)
Lemma split_ws_word (w : string) :
  all_chars (fun c => isspace c = false) w ->
  forall s word, split_ws (w ++ s) word = split_ws s (word ++ w).
Proof.
  induction w as [|c w IH]; intros Hw s word; simpl.
  - now rewrite append_nil_r.
  - destruct Hw as [Hc Hw]. rewrite Hc. rewrite IH by exact Hw.
    now rewrite append_assoc.
Qed.

Lemma split_join (ws : list string) :
  Forall is_word ws -> split (join " " ws) = ws.
Proof.
  induction 1 as [|w ws [Hne Hw] Hws IH]; [reflexivity|].
  unfold split in *. cbn [join]. destruct ws as [|w' ws].
  - rewrite <- (append_nil_r w) at 1. rewrite split_ws_word by exact Hw.
    simpl. destruct w; [contradiction|reflexivity].
  - rewrite split_ws_word by exact Hw. cbn [append].
    change (split_ws (String " " (join " " (w' :: ws))) w)
      with (split_ws ("" ++ String " " (join " " (w' :: ws))) w).
    rewrite split_ws_sep by reflexivity. unfold split. rewrite IH.
    destruct w; [contradiction|reflexivity].
Qed.

Lemma Forall_firstn {A} (P : A -> Prop) (n : nat) (l : list A) :
  Forall P l -> Forall P (firstn n l).
Proof.
  intros H. revert n. induction H; intros [|n]; simpl; constructor; auto.
Qed.

(** The words of the five templates, before any cut. *)
Lemma template_split (clean_name : string) :
  let templates :=
    [ ("Category for managing " ++ clean_name ++ " related items")%string;
      ("Contains all " ++ clean_name ++ " related entries")%string;
      ("Handles " ++ clean_name ++ " classification and organization")%string;
      ("Groups items related to " ++ clean_name ++ " topic")%string;
      ("Organizes content under " ++ clean_name ++ " classification")%string ] in
  List.length
    (split (nth (Z.to_nat (len clean_name mod 5)) templates ""%string))
  = template_words clean_name + List.length (split clean_name).
Proof.
  intros templates. unfold template_words.
  assert (Hi : Z.to_nat (len clean_name mod 5) < 5).
  { pose proof (Z.mod_pos_bound (len clean_name) 5). lia. }
  assert (Hs : forall (a b : string),
             split (a ++ String " " (clean_name ++ String " " b))
             = split a ++ split clean_name ++ split b).
  { intros a b. unfold split at 1.
    rewrite split_ws_sep by reflexivity. fold (split a).
    unfold split at 2. rewrite split_ws_sep by reflexivity. reflexivity. }
  destruct (Z.to_nat (len clean_name mod 5)) as [|[|[|[|[|n]]]]]; [..|lia];
    cbn [nth templates].
  - change ("Category for managing " ++ clean_name ++ " related items")%string
      with ("Category for managing" ++ String " " (clean_name ++ String " " "related items"))%string.
    rewrite Hs, !length_app. simpl. lia.
  - change ("Contains all " ++ clean_name ++ " related entries")%string
      with ("Contains all" ++ String " " (clean_name ++ String " " "related entries"))%string.
    rewrite Hs, !length_app. simpl. lia.
  - change ("Handles " ++ clean_name ++ " classification and organization")%string
      with ("Handles" ++ String " " (clean_name ++ String " " "classification and organization"))%string.
    rewrite Hs, !length_app. simpl. lia.
  - change ("Groups items related to " ++ clean_name ++ " topic")%string
      with ("Groups items related to" ++ String " " (clean_name ++ String " " "topic"))%string.
    rewrite Hs, !length_app. simpl. lia.
  - change ("Organizes content under " ++ clean_name ++ " classification")%string
      with ("Organizes content under" ++ String " " (clean_name ++ String " " "classification"))%string.
    rewrite Hs, !length_app. simpl. lia.
Qed.

(** X11: the description [generate_description] builds has the four or
    five words of its template and the words of the cleaned name, cut to
    ten words when they are more.  So it never has more than ten words and
    never fewer than four; for a one-word name it has five or six. *)
Theorem generate_description_words (category_name : string) :
  let clean_name := lower (strip category_name) in
  let words := List.length (split (generate_description category_name)) in
  words = Nat.min 10 (template_words clean_name + List.length (split clean_name))
  /\ 4 <= template_words clean_name <= 5
  /\ 4 <= words <= 10.
Proof.
  intros clean_name words.
  assert (Hb : 4 <= template_words clean_name <= 5).
  { unfold template_words.
    assert (Hi : Z.to_nat (len clean_name mod 5) < 5).
    { pose proof (Z.mod_pos_bound (len clean_name) 5). lia. }
    destruct (Z.to_nat (len clean_name mod 5)) as [|[|[|[|[|n]]]]];
      simpl; lia. }
  assert (Hw : words
               = Nat.min 10 (template_words clean_name
                             + List.length (split clean_name))).
  { subst words. unfold generate_description. fold clean_name.
    pose proof (template_split clean_name) as T. cbv zeta in T.
    cbv zeta. cbn [List.length] in *.
    change (Z.of_nat 5) with 5%Z.
    set (description := nth _ _ _) in *.
    destruct (Z.ltb_spec 10 (Z.of_nat (List.length (split description)))) as [L|L].
    - rewrite split_join.
      + rewrite length_firstn. lia.
      + apply Forall_firstn. unfold split. apply split_ws_words. exact I.
    - lia. }
  split; [exact Hw|]. split; [exact Hb|]. lia.
Qed.

(** *** [collect_category_names_multiline] *)

Lemma read_lines_from_input (l : list inp) :
  forall lines n ls,
    fst (read_lines l lines n) = Ret ls ->
    (forall x, In x ls ->
       In x lines \/ exists s, In (Line s) l /\ x = strip s) /\
    (forall i, In i (snd (read_lines l lines n)) -> In i l).
Proof.
  induction l as [|[s|] l IH]; intros lines n ls H; simpl in *.
  - injection H as <-. split; [auto|tauto].
  - destruct (strip s =? "")%string.
    + destruct (1 <=? n + 1)%Z.
      * injection H as <-. split; [auto|]. simpl. auto.
      * destruct (IH _ _ _ H) as [H1 H2]. split; [|auto].
        intros x Hx. destruct (H1 x Hx) as [|(s' & Hs' & ->)]; [auto|].
        right. exists s'. auto.
    + destruct (IH _ _ _ H) as [H1 H2]. split; [|auto].
      intros x Hx. destruct (H1 x Hx) as [Hin|(s' & Hs' & ->)].
      * apply in_app_or in Hin as [Hin|[<-|[]]]; [auto|].
        right. exists s. auto.
      * right. exists s'. auto.
  - discriminate.
Qed.

(** X12: what [collect_category_names_multiline] returns has exactly
    [count] entries; each name is a line of the input, stripped, and not
    empty, and comes with the description generated for it.  The call only
    reads the terminal. *)
Theorem collect_category_names_result (fuel : nat) (count : Z) (indent : string)
  (w w' : world) (cats : list (string * string)) :
  collect_category_names_multiline fuel count indent w = (Ret cats, w') ->
  Z.of_nat (List.length cats) = count /\
  db w' = db w /\ trace w' = trace w /\
  Forall (fun c =>
            fst c <> ""%string /\
            (exists s, In (Line s) (stdin w) /\ fst c = strip s) /\
            snd c = generate_description (fst c)) cats.
Proof.
  revert w. induction fuel as [|fuel IH]; intros w H; simpl in H;
    [discriminate|].
  unfold bind, read_block in H.
  destruct (read_lines (stdin w) [] 0) as [r rest] eqn:E.
  destruct r as [ls|e|]; try discriminate.
  pose proof (read_lines_from_input (stdin w) [] 0%Z ls) as F.
  rewrite E in F. destruct (F eq_refl) as [F1 F2]. clear F.
  destruct (Z.eqb_spec (Z.of_nat (List.length (non_empty ls))) count) as [L|L];
    simpl in H.
  - injection H as <- <-. rewrite length_map. split; [exact L|].
    split; [reflexivity|]. split; [reflexivity|].
    rewrite Forall_map. apply Forall_forall. intros x Hx. cbn [fst snd].
    unfold non_empty in Hx. apply filter_In in Hx as [Hx Hne].
    split; [intros ->; discriminate|]. split; [|reflexivity].
    destruct (F1 x Hx) as [[]|Hs]. exact Hs.
  - destruct (IH _ H) as (H1 & H2 & H3 & H4).
    split; [exact H1|]. split; [exact H2|]. split; [exact H3|].
    eapply Forall_impl; [|exact H4].
    intros c (Hc1 & (s & Hs & Hc2) & Hc3). repeat split; try assumption.
    exists s. split; [|exact Hc2]. apply F2. exact Hs.
Qed.

Lemma collect_category_names_result_witness :
  let w := demo_world ["Roads"; ""; " Roads "; "Water"; ""; "y"] in
  let run := collect_category_names_multiline 3 2 "" w in
  Z.of_nat (List.length [("Roads", generate_description "Roads");
                         ("Water", generate_description "Water")]) = 2%Z /\
  db (snd run) = db w /\ trace (snd run) = trace w /\
  Forall (fun c =>
            fst c <> ""%string /\
            (exists s, In (Line s) (stdin w) /\ fst c = strip s) /\
            snd c = generate_description (fst c))
    [("Roads", generate_description "Roads");
     ("Water", generate_description "Water")].
Proof.
  intros w run.
  apply (collect_category_names_result 3 2 "" w (snd run)).
  reflexivity.
Defined.

(** X13: at the end of the input [collect_category_names_multiline] never
    returns when it is asked for a number of names other than zero: every
    round reads nothing, finds the count wrong and starts over. *)
Theorem collect_category_names_loops_at_eof (count : Z) (indent : string)
  (w : world) :
  stdin w = [] -> count <> 0%Z ->
  forall fuel,
    collect_category_names_multiline fuel count indent w = (OutOfFuel, w).
Proof.
  intros Hs Hc fuel. induction fuel as [|fuel IH]; [reflexivity|].
  simpl. unfold bind, read_block. rewrite Hs. cbn [read_lines non_empty
    List.filter List.length].
  destruct (Z.eqb_spec (Z.of_nat 0) count) as [E|E]; [simpl in E; congruence|].
  cbn [negb].
  replace (set_stdin [] w) with w by (destruct w; simpl in Hs; now subst).
  exact IH.
Qed.

Lemma collect_category_names_loops_at_eof_witness :
  collect_category_names_multiline 1000 2 "" (demo_world [])
  = (OutOfFuel, demo_world []).
Proof.
  apply (collect_category_names_loops_at_eof 2 "" (demo_world []));
    [reflexivity|discriminate].
Defined.

(** X14: on input without Ctrl-C the inner loop of
    [collect_category_names_multiline] reads what [get_bulk_input] of the
    other tool reads: the same lines returned, the same input left. *)
Theorem read_block_as_get_bulk_input (typed : list string) (d : database)
  (t : list event) :
  read_block (mkWorld (map Line typed) d t)
  = (Ret (fst (FormFieldMapping.get_bulk_input typed)),
     mkWorld (map Line (snd (FormFieldMapping.get_bulk_input typed))) d t).
Proof.
  unfold read_block, FormFieldMapping.get_bulk_input. cbn [stdin].
  now rewrite read_lines_get_bulk_input.
Qed.

(** *** [bulk_insert_categories] *)

Lemma placeholders_template : placeholders values_template = 6.
Proof. reflexivity. Qed.

(** X15: the statement [bulk_insert_categories] builds is well formed: one
    placeholder group per category, as many parameters as the groups have
    [%s] placeholders (six each), and the groups read back in order as the
    rows (name, description, OTHER, PUBLIC, entity_id, parent). *)
Theorem build_values_well_formed (cats : list (string * string))
  (entity_id : string) (parent : option uuid) :
  let q := build_values cats entity_id parent [] [] in
  List.length (fst q) = List.length cats /\
  list_sum (map placeholders (fst q)) = List.length (snd q) /\
  List.length (snd q) = 6 * List.length cats /\
  decode_values (fst q) (snd q) = Some (map (row_maker entity_id parent) cats).
Proof.
  intros q. subst q. rewrite build_values_eq. cbn [fst snd app].
  split; [apply repeat_length|].
  assert (L : List.length (flat_map (category_params entity_id parent) cats)
              = 6 * List.length cats).
  { induction cats as [|c cats IH]; [reflexivity|].
    cbn [flat_map List.length category_params app]. rewrite IH. lia. }
  split; [|split; [exact L|apply decode_values_for]].
  rewrite L. clear L. unfold list_sum.
  induction cats as [|c cats IH]; [reflexivity|].
  cbn [List.length repeat map fold_right].
  rewrite IH, placeholders_template. lia.
Qed.

Section Tool.

Variable accepts : list category_row -> category_row -> bool.

(** X16: when the server refuses the statement, [bulk_insert_categories]
    rolls back the whole open transaction before it raises again: the rows
    of earlier calls that were pending are dropped with it, and the
    committed rows stay as they were. *)
Theorem bulk_insert_categories_refused (cats : list (string * string))
  (entity_id : string) (parent : option uuid) (w : world) :
  cats <> [] ->
  connected (db w) = true ->
  rows_accepted accepts (committed (db w) ++ pending (db w))
    (category_rows (next_id (db w)) cats entity_id parent) = false ->
  let run := bulk_insert_categories accepts cats entity_id parent w in
  fst run = Raise DbError /\
  pending (db (snd run)) = [] /\
  committed (db (snd run)) = committed (db w) /\
  trace (snd run)
  = trace w ++ [EvExecute (insert_query_for cats entity_id parent) None;
                EvRollback].
Proof.
  intros Hne Hc Hr run. subst run.
  rewrite bulk_insert_categories_run by exact Hne.
  rewrite Hc, Hr. repeat split.
Qed.

End Tool.

Lemma bulk_insert_categories_refused_witness :
  let w := mkWorld []
             (mkDb true true false []
                [mkRow 0 "Roads" "d" "OTHER" "PUBLIC" demo_entity None] 1) [] in
  let run := bulk_insert_categories unique_name
               [("Water", "w"); ("Roads", "r")] demo_entity None w in
  fst run = Raise DbError /\
  pending (db (snd run)) = [] /\
  committed (db (snd run)) = committed (db w) /\
  trace (snd run)
  = trace w ++ [EvExecute (insert_query_for [("Water", "w"); ("Roads", "r")]
                             demo_entity None) None;
                EvRollback].
Proof.
  intros w.
  apply (bulk_insert_categories_refused unique_name
           [("Water", "w"); ("Roads", "r")] demo_entity None w).
  - discriminate.
  - reflexivity.
  - reflexivity.
Defined.

(** *** The traversal ends *)

Lemma prompt_until_shrinks {A} (parse : string -> option A) (l : list inp) :
  List.length (snd (prompt_until parse l)) <= List.length l.
Proof.
  induction l as [|[s|] l IH]; simpl; [lia| |lia].
  destruct (parse s); simpl; lia.
Qed.

Lemma read_lines_shrinks (l : list inp) :
  forall lines n,
    List.length (snd (read_lines l lines n)) <= List.length l /\
    (l <> [] -> List.length (snd (read_lines l lines n)) < List.length l).
Proof.
  induction l as [|[s|] l IH]; intros lines n; simpl.
  - split; [lia|congruence].
  - destruct (strip s =? "")%string.
    + destruct (1 <=? n + 1)%Z; simpl; [lia|].
      destruct (IH lines (n + 1)%Z). lia.
    + destruct (IH (lines ++ [strip s]) 0%Z). lia.
  - simpl. lia.
Qed.

Lemma shrinks_ret {A} (a : A) : shrinks (ret a).
Proof. intros w. simpl. lia. Qed.

Lemma shrinks_bind {A B} (m : M A) (k : A -> M B) :
  shrinks m -> (forall a, shrinks (k a)) -> shrinks (bind m k).
Proof.
  intros Hm Hk w. unfold bind. specialize (Hm w).
  destruct (m w) as [[a|e|] w1]; simpl in *; try lia.
  specialize (Hk a w1). lia.
Qed.

Lemma shrinks_ask {A} (parse : string -> option A) : shrinks (ask parse).
Proof.
  intros w. unfold ask.
  pose proof (prompt_until_shrinks parse (stdin w)).
  destruct (prompt_until parse (stdin w)). simpl in *. lia.
Qed.

Lemma shrinks_get_yes_no (p : prompt) : shrinks (get_yes_no p).
Proof.
  unfold get_yes_no. apply shrinks_bind; [apply shrinks_ask|].
  intros a w. simpl. lia.
Qed.

Lemma shrinks_read_block : shrinks read_block.
Proof.
  intros w. unfold read_block.
  pose proof (proj1 (read_lines_shrinks (stdin w) [] 0%Z)).
  destruct (read_lines (stdin w) [] 0). simpl in *. lia.
Qed.

Lemma shrinks_collect (fuel : nat) (count : Z) (indent : string) :
  shrinks (collect_category_names_multiline fuel count indent).
Proof.
  induction fuel as [|fuel IH]; simpl.
  - intros w. simpl. lia.
  - apply shrinks_bind; [apply shrinks_read_block|]. intros ls.
    destruct (negb _); [exact IH|apply shrinks_ret].
Qed.

Lemma ask_shorter {A} (parse : string -> option A) (w w' : world) (v : A) :
  ask parse w = (Ret v, w') ->
  List.length (stdin w') < List.length (stdin w).
Proof.
  intros H. destruct (ask_inv _ _ _ _ H) as (_ & pre & a & -> & _).
  rewrite length_app. simpl. lia.
Qed.

Lemma get_yes_no_shorter (p : prompt) (w w' : world) (b : bool) :
  get_yes_no p w = (Ret b, w') ->
  List.length (stdin w') < List.length (stdin w).
Proof.
  unfold get_yes_no, bind. intros H.
  destruct (ask yes_no_value w) as [[v|e|] w1] eqn:E; try discriminate.
  injection H as _ <-. apply ask_shorter in E. exact E.
Qed.

Lemma settled_bind {A B} (m m' : M A) (k k' : A -> M B) (w : world) :
  settled m m' w ->
  (forall a w1, m w = (Ret a, w1) -> settled (k a) (k' a) w1) ->
  settled (bind m k) (bind m' k') w.
Proof.
  intros [Hm Hcut] Hk. unfold settled, bind in *. rewrite Hm.
  destruct (m w) as [[a|e|] w1]; simpl in *.
  - exact (Hk a w1 eq_refl).
  - split; [reflexivity|discriminate].
  - split; [reflexivity|]. intros _. now apply Hcut.
Qed.

(** A step that takes no fuel. *)
Lemma settled_same {A} (m : M A) (w : world) :
  fst (m w) <> OutOfFuel -> settled m m w.
Proof. intros H. split; [reflexivity|contradiction]. Qed.

Lemma ask_settled {A} (parse : string -> option A) (w : world) :
  settled (ask parse) (ask parse) w.
Proof.
  apply settled_same.
  destruct (ask_run parse w) as (r & rest & -> & Hr & _).
  simpl. intros ->. exact Hr.
Qed.

Lemma get_yes_no_settled (p : prompt) (w : world) :
  settled (get_yes_no p) (get_yes_no p) w.
Proof.
  apply settled_same.
  destruct (get_yes_no_run p w) as [(a & rest & ->)|(e & rest & -> & _)];
    discriminate.
Qed.

Lemma collect_at_eof (fuel : nat) (count : Z) (indent : string) (w : world) :
  stdin w = [] -> count <> 0%Z ->
  collect_category_names_multiline fuel count indent w = (OutOfFuel, w).
Proof.
  intros Hs Hc. induction fuel as [|fuel IH]; [reflexivity|].
  simpl. unfold bind, read_block. rewrite Hs.
  cbn [read_lines non_empty List.filter List.length].
  destruct (Z.eqb_spec (Z.of_nat 0) count) as [E|E]; [simpl in E; congruence|].
  cbn [negb].
  replace (set_stdin [] w) with w by (destruct w; simpl in Hs; now subst).
  exact IH.
Qed.

Lemma collect_settled (fuel : nat) (count : Z) (indent : string) :
  forall fuel' w,
    List.length (stdin w) < fuel -> fuel <= fuel' ->
    settled (collect_category_names_multiline fuel count indent)
      (collect_category_names_multiline fuel' count indent) w.
Proof.
  induction fuel as [|fuel IH]; intros fuel' w Hl Hf; [lia|].
  destruct fuel' as [|fuel']; [lia|].
  cbn [collect_category_names_multiline].
  apply settled_bind.
  - apply settled_same. unfold read_block.
    destruct (read_lines_run (stdin w) [] 0) as [(ls & H)|H];
      destruct (read_lines (stdin w) [] 0) as [r rest]; simpl in *; subst r;
      discriminate.
  - intros ls w1 E.
    destruct (Z.eqb_spec (Z.of_nat (List.length (non_empty ls))) count) as [L|L];
      cbn [negb].
    + apply settled_same. discriminate.
    + unfold read_block in E.
      pose proof (read_lines_shrinks (stdin w) [] 0%Z) as [S1 S2].
      destruct (read_lines (stdin w) [] 0) as [r rest] eqn:R.
      injection E as -> <-. cbn [snd] in *.
      destruct (stdin w) as [|i l] eqn:Hw.
      * simpl in R. injection R as <- <-. simpl in L.
        assert (Hc : count <> 0%Z) by congruence.
        unfold settled.
        rewrite !collect_at_eof by (reflexivity || exact Hc).
        split; reflexivity.
      * apply IH; [|lia]. cbn [stdin set_stdin].
        assert (List.length rest < List.length (i :: l)) by (apply S2; discriminate).
        simpl in *. lia.
Qed.

Lemma inserted_from_not_cut (cats : list (string * string)) (ids : list uuid) :
  forall i acc, inserted_from i cats ids acc <> OutOfFuel.
Proof.
  induction cats as [|[name desc] cats IH]; intros i acc; simpl.
  - discriminate.
  - destruct (nth_error ids i); [apply IH|discriminate].
Qed.

Section Traversal.

Variable py_int : string -> option Z.
Variable accepts : list category_row -> category_row -> bool.

Lemma bulk_insert_stdin (cats : list (string * string)) (entity_id : string)
  (parent : option uuid) (w : world) :
  stdin (snd (bulk_insert_categories accepts cats entity_id parent w)) = stdin w /\
  fst (bulk_insert_categories accepts cats entity_id parent w) <> OutOfFuel.
Proof.
  destruct cats as [|c cats]; [split; [reflexivity|discriminate]|].
  rewrite bulk_insert_categories_run by discriminate.
  destruct (negb _); [split; [reflexivity|discriminate]|].
  destruct (rows_accepted _ _ _); split; (reflexivity || discriminate).
Qed.

Lemma shrinks_bulk_insert (cats : list (string * string)) (entity_id : string)
  (parent : option uuid) :
  shrinks (bulk_insert_categories accepts cats entity_id parent).
Proof.
  intros w. rewrite (proj1 (bulk_insert_stdin cats entity_id parent w)). lia.
Qed.

Lemma shrinks_inserted (cats : list (string * string)) (ids : list uuid) :
  shrinks (inserted cats ids).
Proof. intros w. unfold inserted. simpl. lia. Qed.

Lemma shrinks_process (fuel : nat) (entity_id : string) :
  forall cats level,
    shrinks (process_subcategories_depth_first py_int accepts fuel entity_id
               cats level).
Proof.
  induction fuel as [|fuel IHfuel]; intros cats level.
  - intros w. simpl. lia.
  - induction cats as [|cat rest IHcats].
    + rewrite process_nil. apply shrinks_ret.
    + rewrite process_cons. apply shrinks_bind; [|intros _; exact IHcats].
      unfold process_category.
      apply shrinks_bind; [apply shrinks_get_yes_no|].
      intros [|]; [|apply shrinks_ret]. unfold expand.
      apply shrinks_bind; [apply shrinks_ask|]. intros sub_count.
      apply shrinks_bind; [apply shrinks_collect|]. intros sub_categories.
      apply shrinks_bind; [apply shrinks_bulk_insert|]. intros sub_ids.
      apply shrinks_bind; [apply shrinks_inserted|]. intros inserted_subs.
      apply IHfuel.
Qed.

Lemma process_settled (fuel : nat) (entity_id : string) :
  forall fuel' cats level w,
    List.length (stdin w) < fuel -> fuel <= fuel' ->
    settled
      (process_subcategories_depth_first py_int accepts fuel entity_id cats level)
      (process_subcategories_depth_first py_int accepts fuel' entity_id cats level)
      w.
Proof.
  induction fuel as [|fuel IHfuel]; intros fuel' cats level w Hl Hf; [lia|].
  destruct fuel' as [|fuel']; [lia|].
  revert w Hl. induction cats as [|cat rest IHcats]; intros w Hl.
  - rewrite !process_nil. apply settled_same. discriminate.
  - rewrite !process_cons. apply settled_bind.
    + unfold process_category. apply settled_bind; [apply get_yes_no_settled|].
      intros [|] w1 E1; [|apply settled_same; discriminate].
      apply get_yes_no_shorter in E1.
      unfold expand. apply settled_bind; [apply ask_settled|].
      intros sub_count w2 E2. apply ask_shorter in E2.
      apply settled_bind; [apply collect_settled; lia|].
      intros sub_categories w3 E3.
      pose proof (shrinks_collect fuel sub_count (indent_of level) w2) as S3.
      rewrite E3 in S3. cbn [snd] in S3.
      apply settled_bind;
        [apply settled_same; apply bulk_insert_stdin|].
      intros sub_ids w4 E4.
      pose proof (proj1 (bulk_insert_stdin sub_categories entity_id
                           (Some (cat_id cat)) w3)) as S4.
      rewrite E4 in S4. cbn [snd] in S4.
      apply settled_bind;
        [apply settled_same; unfold inserted; apply inserted_from_not_cut|].
      intros inserted_subs w5 E5. unfold inserted in E5.
      injection E5 as _ <-.
      apply IHfuel; [rewrite S4|]; lia.
    + intros u w' E. apply IHcats.
      assert (S : shrinks
                    (process_category py_int accepts fuel
                       (process_subcategories_depth_first py_int accepts fuel
                          entity_id) entity_id cat level)).
      { unfold process_category.
        apply shrinks_bind; [apply shrinks_get_yes_no|].
        intros [|]; [|apply shrinks_ret]. unfold expand.
        apply shrinks_bind; [apply shrinks_ask|]. intros sub_count.
        apply shrinks_bind; [apply shrinks_collect|]. intros sub_categories.
        apply shrinks_bind; [apply shrinks_bulk_insert|]. intros sub_ids.
        apply shrinks_bind; [apply shrinks_inserted|]. intros inserted_subs.
        apply shrinks_process. }
      specialize (S w). rewrite E in S. cbn [snd] in S. lia.
Qed.

(** X17: on a finite input the traversal ends, unless the input runs out
    inside a block of names.  With fuel above the number of pending input
    lines, more fuel changes nothing in the run; and when such a run is cut
    off, all the input has been read. *)
Theorem process_subcategories_ends (fuel : nat) (entity_id : string)
  (cats : list category) (level : Z) (w : world) :
  List.length (stdin w) < fuel ->
  let run := process_subcategories_depth_first py_int accepts fuel entity_id
               cats level w in
  (forall fuel',
     fuel <= fuel' ->
     process_subcategories_depth_first py_int accepts fuel' entity_id cats
       level w = run) /\
  (fst run = OutOfFuel -> stdin (snd run) = []).
Proof.
  intros Hl run. split.
  - intros fuel' Hf. exact (proj1 (process_settled fuel entity_id fuel' cats level w Hl Hf)).
  - exact (proj2 (process_settled fuel entity_id fuel cats level w Hl (le_n _))).
Qed.

End Traversal.

Lemma process_subcategories_ends_witness :
  let w := demo_world ["y"; "2"; "Potholes"] in
  let run := process_subcategories_depth_first decimal unique_name 4
               demo_entity demo_categories 1 w in
  (forall fuel',
     4 <= fuel' ->
     process_subcategories_depth_first decimal unique_name fuel' demo_entity
       demo_categories 1 w = run) /\
  (fst run = OutOfFuel -> stdin (snd run) = []).
Proof.
  intros w.
  apply (process_subcategories_ends decimal unique_name 4 demo_entity
           demo_categories 1 w).
  simpl. lia.
Defined.

(** *** The rows of the traversal *)

Lemma questions_app (a b : list event) :
  questions (a ++ b) = questions a + questions b.
Proof.
  induction a as [|e a IH]; [reflexivity|].
  destruct e; simpl; rewrite IH; reflexivity.
Qed.

Lemma length_categories_of (subs : list (string * string)) :
  forall ids,
    List.length ids = List.length subs ->
    List.length (categories_of subs ids) = List.length subs /\
    map cat_id (categories_of subs ids) = ids.
Proof.
  induction subs as [|c subs IH]; intros [|i ids] H; try discriminate.
  - split; reflexivity.
  - injection H as H. destruct (IH ids H) as [H1 H2].
    simpl. now rewrite H1, H2.
Qed.

Lemma with_ids_facts (entity_id : string) (p : uuid)
  (subs : list (string * string)) :
  forall ids,
    List.length ids = List.length subs ->
    let rows := with_ids (map (row_maker entity_id (Some p)) subs) ids in
    List.length rows = List.length subs /\
    map c_id rows = ids /\
    Forall (of_entity entity_id) rows /\
    Forall (fun r => c_parent_category_id r = Some p) rows.
Proof.
  induction subs as [|c subs IH]; intros [|i ids] H; try discriminate.
  - repeat split; constructor.
  - injection H as H. destruct (IH ids H) as (H1 & H2 & H3 & H4).
    cbn [map with_ids]. simpl. rewrite H1, H2.
    repeat split; constructor; try assumption; repeat split.
Qed.

Lemma rows_of_facts (entity_id : string) (p : uuid)
  (subs : list (string * string)) (ids : list uuid) :
  List.length ids = List.length subs ->
  let rows := rows_of (insert_query_for subs entity_id (Some p)) ids in
  List.length rows = List.length subs /\
  map c_id rows = ids /\
  Forall (of_entity entity_id) rows /\
  Forall (fun r => c_parent_category_id r = Some p) rows.
Proof.
  intros H. unfold rows_of, insert_query_for. cbn [values_list params].
  rewrite decode_values_for. exact (with_ids_facts entity_id p subs ids H).
Qed.

Lemma parents_known_incl (rows : list category_row) :
  forall known known',
    incl known known' -> parents_known known rows -> parents_known known' rows.
Proof.
  induction rows as [|r rows IH]; intros known known' Hi; simpl; [auto|].
  intros [(p & Hp & Hin) Hrest]. split.
  - exists p. auto.
  - apply (IH (c_id r :: known)); [|exact Hrest].
    intros x [<-|Hx]; [now left|right; auto].
Qed.

Lemma parents_known_app (a : list category_row) :
  forall known b,
    parents_known known a ->
    parents_known (rev (map c_id a) ++ known) b ->
    parents_known known (a ++ b).
Proof.
  induction a as [|r a IH]; intros known b Ha Hb; simpl in *; [exact Hb|].
  destruct Ha as [Hr Ha]. split; [exact Hr|].
  apply IH; [exact Ha|]. now rewrite <- app_assoc in Hb.
Qed.

Lemma parents_known_same (p : uuid) (rows : list category_row) :
  Forall (fun r => c_parent_category_id r = Some p) rows ->
  forall known, In p known -> parents_known known rows.
Proof.
  induction 1 as [|r rows Hr _ IH]; intros known Hin; simpl; [exact I|].
  split; [now exists p|]. apply IH. now right.
Qed.

(** What a traversal wrote, read off its trace. *)
Lemma depth_first_rows (entity_id : string) (level : Z) (cats : list category)
  (t : list event) :
  depth_first entity_id level cats t ->
  questions t = List.length cats + List.length (inserted_rows t) /\
  Forall (of_entity entity_id) (inserted_rows t) /\
  (forall known,
     incl (map cat_id cats) known -> parents_known known (inserted_rows t)).
Proof.
  induction 1 as [level|level cat rest t Hd IH
                  |level cat rest subs ids t_sub t_rest Hne Hlen Hsub IHsub Hrest IHrest].
  - split; [reflexivity|]. split; [constructor|]. intros known _. exact I.
  - destruct IH as (H1 & H2 & H3). cbn [questions inserted_rows List.length].
    split; [lia|]. split; [exact H2|].
    intros known Hi. apply H3. intros x Hx. apply Hi. now right.
  - destruct IHsub as (S1 & S2 & S3), IHrest as (R1 & R2 & R3).
    destruct (rows_of_facts entity_id (cat_id cat) subs ids Hlen)
      as (F1 & F2 & F3 & F4).
    destruct (length_categories_of subs ids Hlen) as [C1 C2].
    cbn [questions inserted_rows List.length].
    rewrite questions_app, inserted_rows_app, !length_app.
    split; [lia|]. split.
    + apply Forall_app. split; [exact F3|].
      apply Forall_app. split; assumption.
    + intros known Hi.
      apply parents_known_app.
      * apply (parents_known_same (cat_id cat)); [exact F4|].
        apply Hi. now left.
      * rewrite F2. apply parents_known_app.
        -- apply S3. rewrite C2. intros x Hx.
           apply in_or_app. left. now apply -> in_rev.
        -- apply R3. intros x Hx. apply in_or_app. right.
           apply in_or_app. right. apply Hi. now right.
Qed.

Section Rows.

Variable py_int : string -> option Z.
Variable accepts : list category_row -> category_row -> bool.

(** A run of the traversal that returns: its trace and its rows. *)
Lemma process_returns (fuel : nat) (entity_id : string) (cats : list category)
  (level : Z) (w w' : world) :
  process_subcategories_depth_first py_int accepts fuel entity_id cats level w
  = (Ret tt, w') ->
  exists t,
    trace w' = trace w ++ t /\
    depth_first entity_id level cats t /\
    db w' = replay t (db w) /\
    Forall quiet_event t.
Proof.
  intros H.
  destruct (process_shape py_int accepts fuel entity_id cats level w)
    as (t & Ht & Hdf).
  destruct (staged_process py_int accepts fuel entity_id cats level w)
    as (t' & Ht' & Hd & Hs).
  rewrite H in *. cbn [fst snd] in *.
  assert (t' = t) by (rewrite Ht in Ht'; now apply app_inv_head in Ht').
  subst t'. exists t. repeat split; try assumption.
  now apply (df_run_complete _ _ _ _ _ Hdf).
Qed.

(** X18: in a traversal that returns, every category is asked about once:
    the questions are as many as the categories given and the rows the
    traversal wrote, taken together. *)
Theorem process_subcategories_asks_each_once (fuel : nat) (entity_id : string)
  (cats : list category) (level : Z) (w w' : world) :
  autocommit (db w) = false ->
  process_subcategories_depth_first py_int accepts fuel entity_id cats level w
  = (Ret tt, w') ->
  exists t rows,
    trace w' = trace w ++ t /\
    pending (db w') = pending (db w) ++ rows /\
    questions t = List.length cats + List.length rows.
Proof.
  intros Ha H.
  destruct (process_returns _ _ _ _ _ _ H) as (t & Ht & Hdf & Hd & Hq).
  exists t, (inserted_rows t). split; [exact Ht|].
  rewrite Hd, (replay_quiet t _ Ha Hq). split; [reflexivity|].
  apply (depth_first_rows _ _ _ _ Hdf).
Qed.

(** X19: the rows a returning traversal adds to the open transaction form
    a forest under the categories given: every row belongs to the entity
    of the run, has type OTHER and scope PUBLIC, and hangs under one of the
    categories given or under a row written before it.  The committed rows
    are not touched. *)
Theorem process_subcategories_writes_forest (fuel : nat) (entity_id : string)
  (cats : list category) (level : Z) (w w' : world) :
  autocommit (db w) = false ->
  process_subcategories_depth_first py_int accepts fuel entity_id cats level w
  = (Ret tt, w') ->
  exists rows,
    pending (db w') = pending (db w) ++ rows /\
    committed (db w') = committed (db w) /\
    Forall (of_entity entity_id) rows /\
    parents_known (map cat_id cats) rows.
Proof.
  intros Ha H.
  destruct (process_returns _ _ _ _ _ _ H) as (t & Ht & Hdf & Hd & Hq).
  exists (inserted_rows t).
  rewrite Hd, (replay_quiet t _ Ha Hq). cbn [pending committed].
  split; [reflexivity|]. split; [reflexivity|].
  destruct (depth_first_rows _ _ _ _ Hdf) as (_ & H2 & H3).
  split; [exact H2|]. apply H3. apply incl_refl.
Qed.

End Rows.

Lemma process_subcategories_asks_each_once_witness :
  let w := demo_world ["yes"; "2"; "Potholes"; "Lighting"; ""; "n"; "n"; "no"] in
  let run := process_subcategories_depth_first decimal unique_name 3
               demo_entity demo_categories 1 w in
  exists t rows,
    trace (snd run) = trace w ++ t /\
    pending (db (snd run)) = pending (db w) ++ rows /\
    questions t = List.length demo_categories + List.length rows.
Proof.
  intros w run.
  apply (process_subcategories_asks_each_once decimal unique_name 3
           demo_entity demo_categories 1 w (snd run)).
  - reflexivity.
  - vm_compute. reflexivity.
Defined.

Lemma process_subcategories_writes_forest_witness :
  let w := demo_world ["yes"; "2"; "Potholes"; "Lighting"; ""; "n"; "n"; "no"] in
  let run := process_subcategories_depth_first decimal unique_name 3
               demo_entity demo_categories 1 w in
  exists rows,
    pending (db (snd run)) = pending (db w) ++ rows /\
    committed (db (snd run)) = committed (db w) /\
    Forall (of_entity demo_entity) rows /\
    parents_known (map cat_id demo_categories) rows.
Proof.
  intros w run.
  apply (process_subcategories_writes_forest decimal unique_name 3
           demo_entity demo_categories 1 w (snd run)).
  - reflexivity.
  - vm_compute. reflexivity.
Defined.

(** *** What a confirmed run commits *)

Lemma bind_ret_inv {A B} (m : M A) (k : A -> M B) (w w' : world) (b : B) :
  bind m k w = (Ret b, w') ->
  exists a w1, m w = (Ret a, w1) /\ k a w1 = (Ret b, w').
Proof.
  unfold bind. destruct (m w) as [[a|e|] w1]; try discriminate.
  intros H. now exists a, w1.
Qed.

Lemma category_rows_top (cats : list (string * string)) (entity_id : string) :
  forall id,
    Forall (fun r => c_parent_category_id r = None /\ of_entity entity_id r)
      (category_rows id cats entity_id None).
Proof.
  induction cats as [|c cats IH]; intros id; simpl; constructor.
  - repeat split.
  - apply IH.
Qed.

Section Main.

Variable py_int : string -> option Z.
Variable accepts : list category_row -> category_row -> bool.

(** The [try] block of [main] when it returns, step by step. *)
Lemma main_body_returns (fuel : nat) (w w' : world) :
  connected (db w) = true ->
  autocommit (db w) = false ->
  main_body py_int accepts fuel w = (Ret tt, w') ->
  exists entity_id tops subs a,
    tops <> [] /\
    Forall (fun r => c_parent_category_id r = None /\ of_entity entity_id r) tops /\
    Forall (of_entity entity_id) subs /\
    parents_known (map c_id tops) subs /\
    (exists t, trace w'
               = trace w ++ t ++ [EvAsk CommitPrompt a;
                                  if a then EvCommit else EvRollback]) /\
    committed (db w')
    = (if a then committed (db w) ++ pending (db w) ++ tops ++ subs
       else committed (db w)) /\
    exists top_count top_names w1 w2 w3 w4 w5,
      get_valid_uuid w = (Ret entity_id, w1) /\
      get_positive_integer py_int w1 = (Ret top_count, w2) /\
      collect_category_names_multiline fuel top_count "" w2
      = (Ret top_names, w3) /\
      tops = category_rows (next_id (db w)) top_names entity_id None /\
      bulk_insert_categories accepts top_names entity_id None w3
      = (Ret (map c_id tops), w4) /\
      traversal py_int accepts entity_id 1
        (categories_of top_names (map c_id tops)) w4 (Ret tt) w5 /\
      pending (db w5) = pending (db w) ++ tops ++ subs.
Proof.
  intros Hc Ha H. unfold main_body in H.
  apply bind_ret_inv in H as (entity_id & w1 & E1 & H).
  apply bind_ret_inv in H as (top_count & w2 & E2 & H).
  apply bind_ret_inv in H as (tops & w3 & E3 & H).
  apply bind_ret_inv in H as (top_ids & w4 & E4 & H).
  apply bind_ret_inv in H as (inserted_top & w5 & E5 & H).
  apply bind_ret_inv in H as ([] & w6 & E6 & H).
  apply bind_ret_inv in H as (a & w7 & E7 & H).
  pose proof E1 as S1. pose proof E2 as S2. pose proof E3 as S3.
  pose proof E4 as S4. pose proof E6 as S6.
  (* the terminal steps leave database and trace alone *)
  unfold get_valid_uuid in E1. apply ask_inv in E1 as (W1 & _).
  destruct (get_positive_integer_run py_int w1)
    as [(v & rest2 & G & Hv)|(e & rest2 & G & _)];
    rewrite G in E2; [|discriminate].
  injection E2 as -> <-.
  destruct (collect_run fuel top_count "" (set_stdin rest2 w1))
    as (r3 & rest3 & C & _ & Hlen).
  rewrite C in E3. injection E3 as -> <-.
  specialize (Hlen tops eq_refl).
  assert (Htops : tops <> []).
  { intros ->. simpl in Hlen. lia. }
  set (w3 := set_stdin rest3 (set_stdin rest2 w1)) in *.
  assert (D3 : db w3 = db w) by (unfold w3; rewrite W1; reflexivity).
  assert (T3 : trace w3 = trace w) by (unfold w3; rewrite W1; reflexivity).
  (* the statement for the top-level categories *)
  rewrite (bulk_insert_categories_run accepts tops entity_id None w3 Htops) in E4.
  rewrite D3, Hc in E4. cbn [negb] in E4.
  set (rows := category_rows (next_id (db w)) tops entity_id None) in *.
  destruct (rows_accepted accepts (committed (db w) ++ pending (db w)) rows);
    [|discriminate].
  injection E4 as <- <-.
  assert (Lids : List.length (map c_id rows) = List.length tops).
  { unfold rows. now rewrite category_rows_ids, length_seq. }
  rewrite (inserted_run tops (map c_id rows) _ Lids) in E5.
  injection E5 as <- <-.
  (* the traversal *)
  apply process_returns in E6 as (t & T6 & Hdf & D6 & Hq).
  destruct (depth_first_rows _ _ _ _ Hdf) as (_ & R2 & R3).
  specialize (R3 (map c_id rows)).
  rewrite (proj2 (length_categories_of tops (map c_id rows) Lids)) in R3.
  specialize (R3 (incl_refl _)).
  cbn [db trace log set_db] in T6, D6. rewrite T3 in T6.
  assert (Hadd : add_rows (db w) rows
                 = mkDb (reachable (db w)) true false (committed (db w))
                     (pending (db w) ++ rows)
                     (next_id (db w) + List.length rows)).
  { unfold add_rows. now rewrite Ha, Hc. }
  rewrite Hadd in D6. rewrite replay_quiet in D6 by (reflexivity || exact Hq).
  cbn [reachable connected committed pending next_id] in D6.
  (* the commit question *)
  destruct (get_yes_no_run CommitPrompt w6)
    as [(a' & rest7 & Y)|(e & rest7 & Y & _)];
    rewrite Y in E7; [|discriminate].
  injection E7 as -> <-.
  exists entity_id, rows, (inserted_rows t), a.
  split; [unfold rows; destruct tops; [contradiction|discriminate]|].
  split; [apply category_rows_top|].
  split; [exact R2|]. split; [exact R3|].
  assert (Hrun : exists top_count top_names w1 w2 w3 w4 w5,
            get_valid_uuid w = (Ret entity_id, w1) /\
            get_positive_integer py_int w1 = (Ret top_count, w2) /\
            collect_category_names_multiline fuel top_count "" w2
            = (Ret top_names, w3) /\
            rows = category_rows (next_id (db w)) top_names entity_id None /\
            bulk_insert_categories accepts top_names entity_id None w3
            = (Ret (map c_id rows), w4) /\
            traversal py_int accepts entity_id 1
              (categories_of top_names (map c_id rows)) w4 (Ret tt) w5 /\
            pending (db w5) = pending (db w) ++ rows ++ inserted_rows t).
  { exists top_count, tops, w1, (set_stdin rest2 w1), w3.
    eexists. exists w6.
    split; [exact S1|]. split; [exact S2|]. split; [exact S3|].
    split; [reflexivity|]. split; [exact S4|].
    split; [exact (process_traversal_returns py_int accepts _ _ _ _ _ _ S6)|].
    rewrite D6. cbn [pending]. now rewrite <- app_assoc. }
  destruct a; unfold commit, rollback in H;
    cbn [db log set_db set_stdin] in H; rewrite D6 in H;
    cbn [connected] in H; injection H as <-;
    cbn [trace db log set_db set_stdin committed server_commit server_rollback].
  - split; [|split; [|exact Hrun]].
    + exists (EvExecute (insert_query_for tops entity_id None)
                (Some (map c_id rows)) :: t).
      rewrite T6, <- !app_assoc. reflexivity.
    + now rewrite <- !app_assoc.
  - split; [|split; [reflexivity|exact Hrun]].
    exists (EvExecute (insert_query_for tops entity_id None)
              (Some (map c_id rows)) :: t).
    rewrite T6, <- !app_assoc. reflexivity.
Qed.

(** X20: what a run of [main] commits is the forest that was typed.  When
    the run ends with the commit, the committed rows are those from before,
    then the top-level rows (no parent), then rows that each hang under a
    top-level row or under a row before them; all of them carry the entity
    id, type OTHER and scope PUBLIC.  The entity id is the UUID that
    [get_valid_uuid] read after the connection was opened; the top-level
    rows are the rows of the names that [get_positive_integer] and
    [collect_category_names_multiline] read next, under that id and with
    the next free ids; the rows after them are what the [traversal] of
    these top-level categories, from level 1, added to the transaction. *)
Theorem main_commits_forest (fuel : nat) (w : world) (t' : list event) :
  reachable (db w) = true ->
  let run := main py_int accepts fuel w in
  trace (snd run) = trace w ++ t' ++ [EvCommit] ->
  exists entity_id tops subs,
    committed (db (snd run)) = committed (db w) ++ tops ++ subs /\
    tops <> [] /\
    Forall (fun r => c_parent_category_id r = None /\ of_entity entity_id r) tops /\
    Forall (of_entity entity_id) subs /\
    parents_known (map c_id tops) subs /\
    exists top_count top_names w1 w2 w3 w4 w5,
      get_valid_uuid (snd (connect (DatabaseConnection w)))
      = (Ret entity_id, w1) /\
      get_positive_integer py_int w1 = (Ret top_count, w2) /\
      collect_category_names_multiline fuel top_count "" w2
      = (Ret top_names, w3) /\
      tops = category_rows (next_id (db w)) top_names entity_id None /\
      bulk_insert_categories accepts top_names entity_id None w3
      = (Ret (map c_id tops), w4) /\
      traversal py_int accepts entity_id 1
        (categories_of top_names (map c_id tops)) w4 (Ret tt) w5 /\
      pending (db w5) = tops ++ subs.
Proof.
  intros Hr run Ht.
  destruct (main_after_body py_int accepts fuel w Hr) as [Hw0 Hmain].
  fold run in Hmain.
  set (w0 := snd (connect (DatabaseConnection w))) in *.
  assert (Hc0 : connected (db w0) = true) by now rewrite Hw0.
  assert (Ha0 : autocommit (db w0) = false) by now rewrite Hw0.
  destruct (finishing_main_body py_int accepts fuel w0 Hc0)
    as (t & Tb & Db & Cb).
  assert (Hc1 : connected (db (snd (main_body py_int accepts fuel w0))) = true)
    by (now rewrite Db, replay_connected).
  destruct (main_body py_int accepts fuel w0) as [[[]|e|] w1] eqn:B;
    cbn [fst snd] in *.
  - (* the block returned *)
    destruct (main_body_returns fuel w0 w1 Hc0 Ha0 B)
      as (entity_id & tops & subs & a & H1 & H2 & H3 & H4 & (tb & H5) & H6
          & top_count & top_names & u1 & u2 & u3 & u4 & u5
          & U1 & U2 & U3 & U4 & U5 & U6 & U7).
    assert (Hrun : trace (snd run) = trace w1 /\
                   committed (db (snd run)) = committed (db w1)).
    { rewrite Hmain. unfold disconnect. rewrite Hc1. now split. }
    destruct Hrun as [Rt Rc]. rewrite Rt in Ht. rewrite Rc.
    rewrite H5 in Ht. rewrite Hw0 in Ht. cbn [trace] in Ht.
    apply app_inv_head in Ht.
    change [EvAsk CommitPrompt a; if a then EvCommit else EvRollback]
      with ([EvAsk CommitPrompt a] ++ [if a then EvCommit else EvRollback]) in Ht.
    rewrite !app_assoc in Ht. apply app_inj_tail in Ht as [_ Ht].
    destruct a; [|discriminate].
    exists entity_id, tops, subs. rewrite H6, Hw0. cbn [db committed pending].
    split; [reflexivity|]. split; [exact H1|]. split; [exact H2|].
    split; [exact H3|]. split; [exact H4|].
    exists top_count, top_names, u1, u2, u3, u4, u5.
    rewrite Hw0 in U1, U4, U7. cbn [db next_id pending app] in U4, U7.
    repeat (split; [assumption|]). exact U7.
  - (* the block raised: the trace ends with the rollback *)
    exfalso.
    assert (Hrun : trace (snd run) = trace w1 ++ [EvRollback]).
    { rewrite Hmain. unfold rollback, disconnect. cbv beta iota.
      rewrite Hc1. cbn [snd db log set_db connected server_rollback].
      rewrite Hc1. destruct e; reflexivity. }
    rewrite Hrun, Tb, Hw0 in Ht. cbn [trace] in Ht.
    rewrite <- app_assoc in Ht. apply app_inv_head in Ht.
    apply app_inj_tail in Ht as [_ Ht]. discriminate.
  - (* the run was cut off *)
    exfalso. rewrite Hmain in Ht. cbn [snd] in Ht.
    rewrite Tb, Hw0 in Ht. cbn [trace] in Ht. apply app_inv_head in Ht.
    simpl in Cb. rewrite Ht in Cb. apply Forall_app in Cb as [_ Cb].
    inversion Cb as [|? ? Hq _]. exact Hq.
Qed.

End Main.

Lemma main_commits_forest_witness :
  let w := demo_world [demo_entity; "2"; "Roads"; " Water "; "";
                       "y"; "1"; "Potholes"; ""; "n"; "no"; "yes"] in
  let run := main decimal unique_name 5 w in
  exists entity_id tops subs,
    committed (db (snd run)) = committed (db w) ++ tops ++ subs /\
    tops <> [] /\
    Forall (fun r => c_parent_category_id r = None /\ of_entity entity_id r) tops /\
    Forall (of_entity entity_id) subs /\
    parents_known (map c_id tops) subs /\
    exists top_count top_names w1 w2 w3 w4 w5,
      get_valid_uuid (snd (connect (DatabaseConnection w)))
      = (Ret entity_id, w1) /\
      get_positive_integer decimal w1 = (Ret top_count, w2) /\
      collect_category_names_multiline 5 top_count "" w2
      = (Ret top_names, w3) /\
      tops = category_rows (next_id (db w)) top_names entity_id None /\
      bulk_insert_categories unique_name top_names entity_id None w3
      = (Ret (map c_id tops), w4) /\
      traversal decimal unique_name entity_id 1
        (categories_of top_names (map c_id tops)) w4 (Ret tt) w5 /\
      pending (db w5) = tops ++ subs.
Proof.
  intros w run.
  apply (main_commits_forest decimal unique_name 5 w
           (removelast (trace (snd run)))).
  - reflexivity.
  - vm_compute. reflexivity.
Defined.

End CategoryManagerMore.

(** ** FormFieldMapping: the lookups and the wizard *)

Module WizardFacts.

Import PyStr FormFieldMapping FormFieldMappingFacts Wizard.

Lemma untouched_one_batch (s0 s : session) : untouched s0 s -> one_batch s0 s.
Proof. intros (H1 & H2 & H3 & H4). repeat split; auto. Qed.

Lemma then_input {B} (s0 : session) (k : string -> W B) (s : session) :
  untouched s0 s ->
  (forall line s1, untouched s0 s1 -> one_batch s0 (snd (k line s1))) ->
  one_batch s0 (snd (then_ input k s)).
Proof.
  intros Hs Hk. unfold then_, input.
  destruct (s_stdin s) as [|line rest].
  - now apply untouched_one_batch.
  - apply Hk. exact Hs.
Qed.

Section Tool.

Variable py_int : string -> option Z.
Variable accepts : list mapping -> mapping -> bool.
Variable commit_ok : list mapping -> list mapping -> bool.
Variable query_ok : list string -> bool.

(** A lookup leaves the committed rows alone when no transaction is open. *)
Lemma lookup_clean {A} (params : list string) (result failure : A) (c : conn) :
  pending c = [] ->
  let run := lookup commit_ok query_ok params result failure c in
  committed (snd run) = committed c /\ pending (snd run) = [] /\
  (fst run = result \/ fst run = failure).
Proof.
  intros Hp. unfold lookup, commit, rollback.
  destruct (query_ok params); [|simpl; auto].
  rewrite Hp. destruct (commit_ok (committed c) []); simpl;
    rewrite ?app_nil_r; auto.
Qed.

Lemma then_on_conn {A B} (s0 : session) (f : conn -> A * conn) (k : A -> W B)
  (s : session) :
  untouched s0 s ->
  committed (snd (f (s_conn s))) = committed (s_conn s) ->
  pending (snd (f (s_conn s))) = [] ->
  (forall s1, untouched s0 s1 ->
     one_batch s0 (snd (k (fst (f (s_conn s))) s1))) ->
  one_batch s0 (snd (then_ (on_conn f) k s)).
Proof.
  intros (H1 & H2 & H3 & H4) Hc Hp Hk. unfold then_, on_conn.
  destruct (f (s_conn s)) as [a c]. cbn [fst snd] in *.
  apply Hk. repeat split; cbn; congruence.
Qed.

Lemma resolve_by_id_facts (form_fields : list field_row) (form_id : string)
  (field_inputs : list string) :
  forall r c,
    pending c = [] ->
    Forall (listed form_fields) (resolved_fields r) ->
    let run := resolve_by_id commit_ok query_ok form_fields form_id
                 field_inputs r c in
    committed (snd run) = committed c /\ pending (snd run) = [] /\
    Forall (listed form_fields) (resolved_fields (fst run)) /\
    List.length (resolved_fields (fst run))
    + List.length (unresolved_inputs (fst run))
    + List.length (duplicate_mappings (fst run))
    = List.length (resolved_fields r) + List.length (unresolved_inputs r)
      + List.length (duplicate_mappings r) + List.length field_inputs.
Proof.
  induction field_inputs as [|x rest IH]; intros r c Hp Hr; cbn [resolve_by_id].
  - cbn. repeat split; auto; lia.
  - unfold get_field_by_id.
    destruct (lookup_clean [x]
                (find (fun row => (fst row =? x)%string) form_fields) None c Hp)
      as (L1 & L2 & L3).
    destruct (lookup commit_ok query_ok [x] _ None c) as [field c1].
    cbn [fst snd] in *.
    destruct field as [row|].
    + assert (Hrow : In row form_fields).
      { destruct L3 as [L3|L3]; [|discriminate].
        symmetry in L3. now apply find_some in L3. }
      unfold check_existing_mapping.
      match goal with |- context [lookup _ _ ?p ?res false c1] =>
        destruct (lookup_clean p res false c1 L2) as (M1 & M2 & _);
        destruct (lookup commit_ok query_ok p res false c1) as [dup c2]
      end.
      cbn [fst snd] in *.
      destruct dup.
      * destruct (IH (mkResolution (resolved_fields r) (unresolved_inputs r)
                        (duplicate_mappings r ++ [x])) c2 M2 Hr)
          as (I1 & I2 & I3 & I4).
        cbn [resolved_fields unresolved_inputs duplicate_mappings] in I4.
        rewrite length_app in I4. cbn [List.length] in *.
        repeat split; try assumption; [congruence|lia].
      * destruct (IH (mkResolution
                        (resolved_fields r ++ [mkResolved (fst row) (snd row) x])
                        (unresolved_inputs r) (duplicate_mappings r)) c2 M2)
          as (I1 & I2 & I3 & I4).
        { apply Forall_app. split; [exact Hr|]. constructor; [|constructor].
          unfold listed. cbn. now rewrite <- surjective_pairing. }
        cbn [resolved_fields unresolved_inputs duplicate_mappings] in I4.
        rewrite length_app in I4. cbn [List.length] in *.
        repeat split; try assumption; [congruence|lia].
    + destruct (IH (mkResolution (resolved_fields r)
                      (unresolved_inputs r ++ [x]) (duplicate_mappings r)) c1 L2 Hr)
        as (I1 & I2 & I3 & I4).
      cbn [resolved_fields unresolved_inputs duplicate_mappings] in I4.
      rewrite length_app in I4. cbn [List.length] in *.
      repeat split; try assumption; [congruence|lia].
Qed.

Lemma resolve_loop_listed (rows : list field_row) (input n : string)
  (f : resolved_field) :
  resolve_loop (FormFieldMapping.get_all_fields rows) input n = Some f ->
  listed rows f.
Proof.
  induction rows as [|row rows IH]; simpl; [discriminate|].
  destruct (normalize_field_name (snd row) =? n)%string.
  - intros [= <-]. left. cbn. now rewrite <- surjective_pairing.
  - intros H. right. now apply IH.
Qed.

Lemma resolve_by_name_facts (form_fields : list field_row) (form_id : string)
  (field_inputs : list string) :
  forall r c,
    pending c = [] ->
    Forall (listed form_fields) (resolved_fields r) ->
    let run := resolve_by_name commit_ok query_ok
                 (FormFieldMapping.get_all_fields form_fields) form_id
                 field_inputs r c in
    committed (snd run) = committed c /\ pending (snd run) = [] /\
    Forall (listed form_fields) (resolved_fields (fst run)) /\
    List.length (resolved_fields (fst run))
    + List.length (unresolved_inputs (fst run))
    + List.length (duplicate_mappings (fst run))
    = List.length (resolved_fields r) + List.length (unresolved_inputs r)
      + List.length (duplicate_mappings r) + List.length field_inputs.
Proof.
  induction field_inputs as [|x rest IH]; intros r c Hp Hr; cbn [resolve_by_name].
  - cbn. repeat split; auto; lia.
  - destruct (resolve_field_by_name (FormFieldMapping.get_all_fields form_fields) x)
      as [field|] eqn:E.
    + apply resolve_loop_listed in E.
      unfold check_existing_mapping.
      match goal with |- context [lookup _ _ ?p ?res false c] =>
        destruct (lookup_clean p res false c Hp) as (M1 & M2 & _);
        destruct (lookup commit_ok query_ok p res false c) as [dup c2]
      end.
      cbn [fst snd] in *.
      destruct dup.
      * destruct (IH (mkResolution (resolved_fields r) (unresolved_inputs r)
                        (duplicate_mappings r ++ [x])) c2 M2 Hr)
          as (I1 & I2 & I3 & I4).
        cbn [resolved_fields unresolved_inputs duplicate_mappings] in I4.
        rewrite length_app in I4. cbn [List.length] in *.
        repeat split; try assumption; [congruence|lia].
      * destruct (IH (mkResolution (resolved_fields r ++ [field])
                        (unresolved_inputs r) (duplicate_mappings r)) c2 M2)
          as (I1 & I2 & I3 & I4).
        { apply Forall_app. split; [exact Hr|]. now repeat constructor. }
        cbn [resolved_fields unresolved_inputs duplicate_mappings] in I4.
        rewrite length_app in I4. cbn [List.length] in *.
        repeat split; try assumption; [congruence|lia].
    + destruct (IH (mkResolution (resolved_fields r)
                      (unresolved_inputs r ++ [x]) (duplicate_mappings r)) c Hp Hr)
        as (I1 & I2 & I3 & I4).
      cbn [resolved_fields unresolved_inputs duplicate_mappings] in I4.
      rewrite length_app in I4. cbn [List.length] in *.
      repeat split; try assumption; lia.
Qed.

Lemma then_lookup {A B} (s0 : session) (m : W A) (params : list string)
  (result failure : A) (k : A -> W B) (s : session) :
  m s = on_conn (lookup commit_ok query_ok params result failure) s ->
  untouched s0 s ->
  (forall a s1,
     a = result \/ a = failure -> untouched s0 s1 ->
     one_batch s0 (snd (k a s1))) ->
  one_batch s0 (snd (then_ m k s)).
Proof.
  intros Hm (H1 & H2 & H3 & H4) Hk. unfold then_. rewrite Hm. unfold on_conn.
  destruct (lookup_clean params result failure (s_conn s) H3) as (L1 & L2 & L3).
  destruct (lookup commit_ok query_ok params result failure (s_conn s))
    as [a c]. cbn [fst snd] in *.
  apply Hk; [exact L3|]. repeat split; cbn; congruence.
Qed.

Lemma then_input_after {B} (s0 : session) (k : string -> W B) (s : session) :
  one_batch s0 s ->
  (forall line s1, one_batch s0 s1 -> one_batch s0 (snd (k line s1))) ->
  one_batch s0 (snd (then_ input k s)).
Proof.
  intros Hs Hk. unfold then_, input.
  destruct (s_stdin s) as [|line rest]; [exact Hs|].
  apply Hk. exact Hs.
Qed.

(** The last part of a round: the confirmation and the insert. *)
Lemma confirm_and_insert (s0 s : session) (form_id : string)
  (fields : list resolved_field) :
  untouched s0 s ->
  In form_id (s_forms s0) ->
  fields <> [] ->
  Forall (listed (s_form_fields s0)) fields ->
  one_batch s0
    (snd ((confirm <~ input ;;
           if negb (answered_y confirm) then
             retry <~ input ;;
             if answered_y retry then continue_ else break_
           else
             inserted <~ on_conn (fun c =>
                                    insert_mappings accepts commit_ok c form_id
                                      fields) ;;
             another <~ input ;;
             if negb (answered_y another) then break_ else go tt) s)).
Proof.
  intros Hs Hform Hne Hl.
  apply then_input; [exact Hs|]. intros confirm s1 H1.
  destruct (answered_y confirm); cbn [negb].
  - unfold then_ at 1, on_conn.
    destruct H1 as (U1 & U2 & U3 & U4).
    pose proof (FormFieldMappingMore.insert_mappings_after accepts commit_ok
                  (s_conn s1) form_id fields)
      as [P C].
    destruct (insert_mappings accepts commit_ok (s_conn s1) form_id fields)
      as [ok c2]. cbn [fst snd] in *.
    apply then_input_after.
    + repeat split; cbn; try assumption.
      destruct ok; [right|left; congruence].
      exists (mappings_from form_id 1 fields). split.
      * exists form_id, fields. repeat split; assumption.
      * rewrite C, U3, U4. reflexivity.
    + intros another s2 H2. now destruct (answered_y another).
  - apply then_input; [exact H1|]. intros retry s2 H2.
    destruct (answered_y retry); now apply untouched_one_batch.
Qed.

Lemma round_one_batch (s : session) :
  pending (s_conn s) = [] ->
  one_batch s (snd (round py_int accepts commit_ok query_ok s)).
Proof.
  intros Hp. unfold round.
  apply then_input; [now repeat split|]. intros line s1 H1.
  destruct (is_empty (strip line)); [now apply untouched_one_batch|].
  eapply then_lookup; [reflexivity|exact H1|]. intros valid s2 Hvalid H2.
  destruct valid; cbn [negb]; [|now apply untouched_one_batch].
  assert (Hform : In (strip line) (s_forms s)).
  { destruct Hvalid as [E|E]; [|discriminate]. symmetry in E.
    apply existsb_exists in E as (id & Hin & Hid).
    apply String.eqb_eq in Hid. subst id.
    destruct H1 as (F1 & _). now rewrite <- F1. }
  apply then_input; [exact H2|]. intros l1 s3 H3.
  destruct (py_int (strip l1)) as [num_fields|];
    [|now apply untouched_one_batch].
  destruct (Z.leb_spec num_fields 0); [now apply untouched_one_batch|].
  apply then_input; [exact H3|]. intros l2 s4 H4.
  destruct (py_int (strip l2)) as [input_mode|];
    [|now apply untouched_one_batch].
  destruct ((input_mode =? 1)%Z || (input_mode =? 2)%Z); cbn [negb];
    [|now apply untouched_one_batch].
  unfold then_ at 1.
  destruct (get_bulk_input (s_stdin s4)) as [lines rest].
  set (s5 := mkSession rest (s_conn s4) (s_forms s4) (s_form_fields s4)).
  assert (H5 : untouched s s5) by exact H4.
  clearbody s5.
  destruct (Z.eqb_spec (Z.of_nat (List.length (More.keep_truthy lines))) num_fields)
    as [Hlen|Hlen]; cbn [negb]; [|now apply untouched_one_batch].
  (* what the two ways of resolving have in common *)
  assert (Hfinish : forall (r : resolution) (s6 : session),
            untouched s s6 ->
            Forall (listed (s_form_fields s)) (resolved_fields r) ->
            List.length (resolved_fields r) + List.length (unresolved_inputs r)
            + List.length (duplicate_mappings r)
            = List.length (More.keep_truthy lines) ->
            one_batch s
              (snd ((if negb (is_nil (unresolved_inputs r)) then continue_ else
                     if negb (is_nil (duplicate_mappings r)) then continue_ else
                     confirm <~ input ;;
                     if negb (answered_y confirm) then
                       retry <~ input ;;
                       if answered_y retry then continue_ else break_
                     else
                       inserted <~ on_conn (fun c =>
                                              insert_mappings accepts commit_ok c
                                                (strip line) (resolved_fields r)) ;;
                       another <~ input ;;
                       if negb (answered_y another) then break_ else go tt) s6))).
  { intros r s6 H6 Hl Hsum.
    destruct (unresolved_inputs r) as [|u us]; cbn [is_nil negb];
      [|now apply untouched_one_batch].
    destruct (duplicate_mappings r) as [|d ds]; cbn [is_nil negb];
      [|now apply untouched_one_batch].
    apply confirm_and_insert; try assumption.
    intros E. rewrite E in Hsum. simpl in Hsum. lia. }
  destruct (input_mode =? 1)%Z.
  - unfold then_ at 1, on_conn.
    destruct H5 as (U1 & U2 & U3 & U4).
    pose proof (resolve_by_id_facts (s_form_fields s5) (strip line)
                  (More.keep_truthy lines) (mkResolution [] [] []) (s_conn s5)
                  U3 (Forall_nil _)) as (R1 & R2 & R3 & R4).
    destruct (resolve_by_id commit_ok query_ok (s_form_fields s5) (strip line)
                (More.keep_truthy lines) (mkResolution [] [] []) (s_conn s5))
      as [r c6]. cbn [fst snd] in *.
    apply Hfinish.
    + repeat split; cbn; congruence.
    + now rewrite <- U2.
    + cbn in R4. lia.
  - unfold then_ at 1 2. unfold on_conn at 1, Wizard.get_all_fields.
    cbv beta.
    destruct H5 as (U1 & U2 & U3 & U4).
    destruct (lookup_clean []
                (FormFieldMapping.get_all_fields (s_form_fields s5)) []
                (s_conn s5) U3) as (L1 & L2 & L3).
    destruct (lookup commit_ok query_ok []
                (FormFieldMapping.get_all_fields (s_form_fields s5)) []
                (s_conn s5)) as [all_fields c6]. cbn [fst snd] in *.
    assert (H6 : untouched s (set_conn c6 s5))
      by (repeat split; cbn; congruence).
    destruct all_fields as [|f0 fs] eqn:Eall; cbn [is_nil].
    { cbn. now apply untouched_one_batch. }
    destruct L3 as [L3|L3]; [|discriminate].
    unfold on_conn.
    set (s6 := set_conn c6 s5) in *.
    pose proof (resolve_by_name_facts (s_form_fields s5) (strip line)
                  (More.keep_truthy lines) (mkResolution [] [] []) (s_conn s6)
                  L2 (Forall_nil _)) as (R1 & R2 & R3 & R4).
    rewrite <- L3 in *.
    destruct (resolve_by_name commit_ok query_ok (f0 :: fs) (strip line)
                (More.keep_truthy lines) (mkResolution [] [] []) (s_conn s6))
      as [r c7]. cbn [fst snd] in *.
    apply Hfinish.
    + destruct H6 as (V1 & V2 & V3 & V4). repeat split; cbn; congruence.
    + now rewrite <- U2.
    + cbn in R4. lia.
Qed.

Lemma lookup_value {A} (params : list string) (result failure : A) (c : conn) :
  fst (lookup commit_ok query_ok params result failure c) = result \/
  fst (lookup commit_ok query_ok params result failure c) = failure.
Proof.
  unfold lookup. destruct (query_ok params); [|now right].
  destruct (commit commit_ok c); [now left|now right].
Qed.

(** When nothing stayed unresolved and nothing was a duplicate, the loop by
    id resolved every line, in order. *)
Lemma resolve_by_id_entered (form_fields : list field_row) (form_id : string)
  (field_inputs : list string) :
  forall r c r' c',
    resolve_by_id commit_ok query_ok form_fields form_id field_inputs r c
    = (r', c') ->
    unresolved_inputs r' = [] ->
    duplicate_mappings r' = [] ->
    unresolved_inputs r = [] /\ duplicate_mappings r = [] /\
    exists fields,
      resolved_fields r' = resolved_fields r ++ fields /\
      map r_input_name fields = field_inputs /\
      Forall (resolves 1 form_fields) fields.
Proof.
  induction field_inputs as [|x rest IH]; intros r c r' c' H Hu Hd;
    cbn [resolve_by_id] in H.
  - injection H as <- <-. split; [exact Hu|]. split; [exact Hd|].
    exists []. rewrite app_nil_r. repeat split. constructor.
  - unfold get_field_by_id in H.
    pose proof (lookup_value [x]
                  (find (fun row => (fst row =? x)%string) form_fields) None c)
      as L.
    destruct (lookup commit_ok query_ok [x] _ None c) as [field c1].
    cbn [fst] in L.
    destruct field as [row|].
    + destruct L as [L|L]; [|discriminate].
      destruct (check_existing_mapping commit_ok query_ok form_id (fst row) c1)
        as [dup c2].
      destruct dup.
      * destruct (IH _ _ _ _ H Hu Hd) as (_ & D & _). cbn in D.
        apply app_eq_nil in D as [_ D]. discriminate.
      * destruct (IH _ _ _ _ H Hu Hd) as (U & D & fs & F1 & F2 & F3).
        cbn [resolved_fields unresolved_inputs duplicate_mappings] in *.
        split; [exact U|]. split; [exact D|].
        exists (mkResolved (fst row) (snd row) x :: fs).
        rewrite F1, <- app_assoc. split; [reflexivity|].
        split; [cbn; now rewrite F2|].
        constructor; [|exact F3].
        unfold resolves. cbn. rewrite <- L. now rewrite <- surjective_pairing.
    + destruct (IH _ _ _ _ H Hu Hd) as (U & _). cbn in U.
      apply app_eq_nil in U as [_ U]. discriminate.
Qed.

Lemma resolve_loop_input (all_fields : list field) (input n : string)
  (f : resolved_field) :
  resolve_loop all_fields input n = Some f -> r_input_name f = input.
Proof.
  induction all_fields as [|fld rest IH]; simpl; [discriminate|].
  destruct (f_normalized_name fld =? n)%string; [|exact IH].
  now intros [= <-].
Qed.

(** The same for the loop by name. *)
Lemma resolve_by_name_entered (form_fields : list field_row) (form_id : string)
  (field_inputs : list string) :
  forall r c r' c',
    resolve_by_name commit_ok query_ok
      (FormFieldMapping.get_all_fields form_fields) form_id field_inputs r c
    = (r', c') ->
    unresolved_inputs r' = [] ->
    duplicate_mappings r' = [] ->
    unresolved_inputs r = [] /\ duplicate_mappings r = [] /\
    exists fields,
      resolved_fields r' = resolved_fields r ++ fields /\
      map r_input_name fields = field_inputs /\
      Forall (resolves 2 form_fields) fields.
Proof.
  induction field_inputs as [|x rest IH]; intros r c r' c' H Hu Hd;
    cbn [resolve_by_name] in H.
  - injection H as <- <-. split; [exact Hu|]. split; [exact Hd|].
    exists []. rewrite app_nil_r. repeat split. constructor.
  - destruct (resolve_field_by_name
                (FormFieldMapping.get_all_fields form_fields) x)
      as [field|] eqn:E.
    + destruct (check_existing_mapping commit_ok query_ok form_id (r_id field) c)
        as [dup c1].
      destruct dup.
      * destruct (IH _ _ _ _ H Hu Hd) as (_ & D & _). cbn in D.
        apply app_eq_nil in D as [_ D]. discriminate.
      * destruct (IH _ _ _ _ H Hu Hd) as (U & D & fs & F1 & F2 & F3).
        cbn [resolved_fields unresolved_inputs duplicate_mappings] in *.
        split; [exact U|]. split; [exact D|].
        pose proof (resolve_loop_input _ _ _ _ E) as Hin.
        exists (field :: fs).
        rewrite F1, <- app_assoc. split; [reflexivity|].
        split; [cbn; now rewrite F2, Hin|].
        constructor; [|exact F3].
        unfold resolves. cbn. now rewrite Hin.
    + destruct (IH _ _ _ _ H Hu Hd) as (U & _). cbn in U.
      apply app_eq_nil in U as [_ U]. discriminate.
Qed.

Lemma resolves_listed (input_mode : Z) (form_fields : list field_row)
  (f : resolved_field) :
  resolves input_mode form_fields f -> listed form_fields f.
Proof.
  unfold resolves, listed. destruct (input_mode =? 1)%Z; intros H.
  - now apply find_some in H.
  - now apply resolve_loop_listed in H.
Qed.

(** The last part of a round writes the fields when, and only when, the
    line it reads first says [y]. *)
Lemma confirm_and_insert_entered (s : session) (form_id : string)
  (fields : list resolved_field) :
  pending (s_conn s) = [] ->
  let s' :=
    snd ((confirm <~ input ;;
          if negb (answered_y confirm) then
            retry <~ input ;;
            if answered_y retry then continue_ else break_
          else
            inserted <~ on_conn (fun c =>
                                   insert_mappings accepts commit_ok c form_id
                                     fields) ;;
            another <~ input ;;
            if negb (answered_y another) then break_ else go tt) s) in
  committed (s_conn s') = committed (s_conn s) \/
  (committed (s_conn s')
   = committed (s_conn s) ++ mappings_from form_id 1 fields /\
   exists confirm rest,
     s_stdin s = confirm :: rest /\ answered_y confirm = true).
Proof.
  intros Hp s'. pose proof (eq_refl s') as Hs'. unfold s' at 2 in Hs'.
  clearbody s'. unfold then_ at 1, input at 1 in Hs'.
  destruct (s_stdin s) as [|confirm rest]; [left; now subst s'|].
  destruct (answered_y confirm) eqn:Ey; cbn [negb] in Hs'.
  - unfold then_ at 1, on_conn in Hs'. cbn [s_conn] in Hs'.
    pose proof (FormFieldMappingMore.insert_mappings_after accepts commit_ok
                  (s_conn s) form_id fields) as [P C].
    destruct (insert_mappings accepts commit_ok (s_conn s) form_id fields)
      as [ok c2]. cbn [fst snd] in *.
    assert (E : s_conn s' = c2).
    { subst s'. unfold then_, input. cbn [s_stdin set_conn].
      destruct rest as [|another rest']; [reflexivity|].
      now destruct (answered_y another). }
    rewrite E. destruct ok.
    + right. split; [now rewrite C, Hp|]. now exists confirm, rest.
    + left. exact C.
  - left. subst s'. unfold then_, input. cbn [s_stdin].
    destruct rest as [|retry rest']; [reflexivity|].
    now destruct (answered_y retry).
Qed.

Ltac unchanged :=
  left;
  match goal with H : ?s' = _ |- context [?s'] => rewrite H end;
  cbn [snd s_conn set_conn continue_ break_]; congruence.

(** A round that writes has read the form id, the number of fields, the
    mode, the block of lines and the [y], and writes the fields of the
    lines in their order. *)
Lemma round_entered (s : session) :
  pending (s_conn s) = [] ->
  let s' := snd (round py_int accepts commit_ok query_ok s) in
  committed (s_conn s') = committed (s_conn s) \/
  exists form_id fields,
    fields <> [] /\
    In form_id (s_forms s) /\
    Forall (listed (s_form_fields s)) fields /\
    committed (s_conn s')
    = committed (s_conn s) ++ mappings_from form_id 1 fields /\
    entered py_int s form_id fields.
Proof.
  intros Hp s'. pose proof (eq_refl s') as Hs'. unfold s' at 2 in Hs'.
  clearbody s'. unfold round in Hs'.
  unfold then_ at 1, input at 1 in Hs'.
  destruct (s_stdin s) as [|l0 st0] eqn:E0; [left; now subst s'|].
  destruct (is_empty (strip l0)); [left; now subst s'|].
  unfold then_ at 1, on_conn at 1, validate_form_exists in Hs'. cbv beta in Hs'.
  cbn [s_conn s_forms s_stdin s_form_fields] in Hs'.
  destruct (lookup_clean [strip l0]
              (existsb (fun id => (id =? strip l0)%string) (s_forms s)) false
              (s_conn s) Hp) as (L1 & L2 & L3).
  destruct (lookup commit_ok query_ok [strip l0] _ false (s_conn s))
    as [valid c1].
  cbn [fst snd] in L1, L2, L3.
  destruct valid; cbn [negb] in Hs'; [|unchanged].
  assert (Hform : In (strip l0) (s_forms s)).
  { destruct L3 as [E|E]; [|discriminate]. symmetry in E.
    apply existsb_exists in E as (id & Hin & Hid).
    apply String.eqb_eq in Hid. now subst id. }
  unfold then_ at 1, input at 1 in Hs'. cbn [s_stdin set_conn] in Hs'.
  destruct st0 as [|l1 st1]; [unchanged|].
  destruct (py_int (strip l1)) as [num_fields|] eqn:E1; [|unchanged].
  destruct (Z.leb_spec num_fields 0) as [Hn|Hn]; [unchanged|].
  unfold then_ at 1, input at 1 in Hs'. cbn [s_stdin] in Hs'.
  destruct st1 as [|l2 st2]; [unchanged|].
  destruct (py_int (strip l2)) as [input_mode|] eqn:E2; [|unchanged].
  destruct ((input_mode =? 1)%Z || (input_mode =? 2)%Z) eqn:Em;
    cbn [negb] in Hs'; [|unchanged].
  unfold then_ at 1 in Hs'. cbn [s_stdin s_conn s_forms s_form_fields] in Hs'.
  destruct (get_bulk_input st2) as [lines rest] eqn:Eb.
  destruct (Z.eqb_spec (Z.of_nat (List.length (More.keep_truthy lines)))
              num_fields) as [Hlen|Hlen]; cbn [negb] in Hs'; [|unchanged].
  cbn [s_stdin s_conn s_forms s_form_fields set_conn] in Hs'.
  (* what the two ways of resolving have in common *)
  assert (Hfinish : forall (r : resolution) (c6 : conn),
            pending c6 = [] ->
            committed c6 = committed (s_conn s) ->
            (unresolved_inputs r = [] -> duplicate_mappings r = [] ->
             map r_input_name (resolved_fields r) = More.keep_truthy lines /\
             Forall (resolves input_mode (s_form_fields s))
               (resolved_fields r)) ->
            s' = snd ((if negb (is_nil (unresolved_inputs r)) then continue_ else
                       if negb (is_nil (duplicate_mappings r)) then continue_ else
                       confirm <~ input ;;
                       if negb (answered_y confirm) then
                         retry <~ input ;;
                         if answered_y retry then continue_ else break_
                       else
                         inserted <~ on_conn (fun c =>
                                                insert_mappings accepts commit_ok c
                                                  (strip l0) (resolved_fields r)) ;;
                         another <~ input ;;
                         if negb (answered_y another) then break_ else go tt)
                        (mkSession rest c6 (s_forms s) (s_form_fields s))) ->
            committed (s_conn s') = committed (s_conn s) \/
            exists form_id fields,
              fields <> [] /\
              In form_id (s_forms s) /\
              Forall (listed (s_form_fields s)) fields /\
              committed (s_conn s')
              = committed (s_conn s) ++ mappings_from form_id 1 fields /\
              entered py_int s form_id fields).
  { clear Hs'. intros r c6 P6 C6 Hres Hs'.
    destruct (unresolved_inputs r) as [|u us]; cbn [is_nil negb] in Hs';
      [|unchanged].
    destruct (duplicate_mappings r) as [|d ds]; cbn [is_nil negb] in Hs';
      [|unchanged].
    destruct (Hres eq_refl eq_refl) as (Hmap & Hall).
    destruct (confirm_and_insert_entered
                (mkSession rest c6 (s_forms s) (s_form_fields s))
                (strip l0) (resolved_fields r) P6)
      as [T|(T & confirm & rest' & Tc & Ty)].
    - left. rewrite Hs'. etransitivity; [exact T|exact C6].
    - right. exists (strip l0), (resolved_fields r).
      split.
      { intros E. rewrite E in Hmap. cbn in Hmap. rewrite <- Hmap in Hlen.
        cbn in Hlen. lia. }
      split; [exact Hform|].
      split.
      { eapply Forall_impl; [|exact Hall]. intros f. apply resolves_listed. }
      split.
      { rewrite Hs'. etransitivity; [exact T|]. cbn [s_conn]. now rewrite C6. }
      exists l0, l1, l2, st2, input_mode.
      split; [exact E0|]. split; [reflexivity|].
      split.
      { rewrite E1. f_equal. rewrite <- Hlen, <- Hmap. now rewrite length_map. }
      split; [exact E2|].
      split.
      { apply orb_true_iff in Em as [Em|Em]; apply Z.eqb_eq in Em; auto. }
      rewrite Eb. cbn [fst snd].
      split; [exact Hmap|]. split; [exact Hall|].
      now exists confirm, rest'. }
  destruct (Z.eqb_spec input_mode 1) as [Hm|Hm].
  - unfold then_ at 1, on_conn at 1 in Hs'.
    cbn [s_stdin s_conn s_forms s_form_fields set_conn] in Hs'.
    pose proof (resolve_by_id_facts (s_form_fields s) (strip l0)
                  (More.keep_truthy lines) (mkResolution [] [] []) c1
                  L2 (Forall_nil _)) as (R1 & R2 & _).
    destruct (resolve_by_id commit_ok query_ok (s_form_fields s) (strip l0)
                (More.keep_truthy lines) (mkResolution [] [] []) c1)
      as [r c6] eqn:Er.
    cbn [fst snd] in R1, R2.
    apply (Hfinish r c6); [exact R2|congruence| |exact Hs'].
    intros Hu Hd.
    destruct (resolve_by_id_entered _ _ _ _ _ _ _ Er Hu Hd)
      as (_ & _ & fs & F1 & F2 & F3).
    cbn [resolved_fields app] in F1. rewrite F1, Hm. now split.
  - assert (Hm2 : input_mode = 2%Z).
    { cbn [orb] in Em. now apply Z.eqb_eq in Em. }
    unfold then_ at 1 2 in Hs'. unfold on_conn at 1, Wizard.get_all_fields in Hs'.
    cbv beta in Hs'.
    cbn [s_stdin s_conn s_forms s_form_fields set_conn] in Hs'.
    destruct (lookup_clean []
                (FormFieldMapping.get_all_fields (s_form_fields s)) []
                c1 L2) as (G1 & G2 & G3).
    destruct (lookup commit_ok query_ok []
                (FormFieldMapping.get_all_fields (s_form_fields s)) [] c1)
      as [all_fields c6].
    cbn [fst snd] in G1, G2, G3.
    destruct all_fields as [|f0 fs]; cbn [is_nil] in Hs'; [unchanged|].
    destruct G3 as [G3|G3]; [|discriminate].
    unfold on_conn in Hs'.
    cbn [s_stdin s_conn s_forms s_form_fields set_conn] in Hs'.
    pose proof (resolve_by_name_facts (s_form_fields s) (strip l0)
                  (More.keep_truthy lines) (mkResolution [] [] []) c6
                  G2 (Forall_nil _)) as (R1 & R2 & _).
    rewrite <- G3 in R1, R2.
    destruct (resolve_by_name commit_ok query_ok (f0 :: fs) (strip l0)
                (More.keep_truthy lines) (mkResolution [] [] []) c6)
      as [r c7] eqn:Er.
    cbn [fst snd] in R1, R2.
    apply (Hfinish r c7); [exact R2|congruence| |exact Hs'].
    intros Hu Hd. rewrite G3 in Er.
    destruct (resolve_by_name_entered _ _ _ _ _ _ _ Er Hu Hd)
      as (_ & _ & fields & F1 & F2 & F3).
    cbn [resolved_fields app] in F1. rewrite F1, Hm2. now split.
Qed.

(** X21: one round of the wizard writes all or nothing, and what it writes
    is what was typed.  Started with no transaction open, a round leaves
    none open, leaves the forms and form_fields tables as they are, and
    either leaves the committed mappings as they were or adds one batch to
    them.  The batch is for the form whose id was the first line of the
    round, a form of the forms table; the second line gave the number of
    fields, the third the mode, 1 or 2; the fields are those of the lines
    of the block that follows, one for one and in their order, each found
    in the form_fields table by its id (mode 1) or by its normalized name
    (mode 2); the line after the block said [y]; and the rows are these
    fields, at least one, numbered from 1 in that order. *)
Theorem round_writes_one_batch (s : session) :
  pending (s_conn s) = [] ->
  let s' := snd (round py_int accepts commit_ok query_ok s) in
  s_forms s' = s_forms s /\
  s_form_fields s' = s_form_fields s /\
  pending (s_conn s') = [] /\
  (committed (s_conn s') = committed (s_conn s) \/
   exists form_id fields,
     fields <> [] /\
     In form_id (s_forms s) /\
     Forall (listed (s_form_fields s)) fields /\
     committed (s_conn s')
     = committed (s_conn s) ++ mappings_from form_id 1 fields /\
     entered py_int s form_id fields).
Proof.
  intros Hp s'. destruct (round_one_batch s Hp) as (H1 & H2 & H3 & _).
  fold s' in H1, H2, H3.
  split; [exact H1|]. split; [exact H2|]. split; [exact H3|].
  exact (round_entered s Hp).
Qed.

Lemma rounds_batches (fuel : nat) :
  forall s,
    pending (s_conn s) = [] ->
    batches s (snd (rounds py_int accepts commit_ok query_ok fuel s)).
Proof.
  induction fuel as [|fuel IH]; intros s Hp; cbn [rounds].
  - repeat split; try assumption. exists []. split; [constructor|].
    simpl. now rewrite app_nil_r.
  - destruct (round_one_batch s Hp) as (H1 & H2 & H3 & H4).
    assert (Hone : batches s (snd (round py_int accepts commit_ok query_ok s))).
    { repeat split; try assumption.
      destruct H4 as [H4|(rows & Hb & H4)].
      - exists []. split; [constructor|]. simpl. now rewrite app_nil_r.
      - exists [rows]. split; [now repeat constructor|].
        simpl. now rewrite app_nil_r. }
    destruct (round py_int accepts commit_ok query_ok s) as [[u| | |] s1];
      cbn [snd] in *; try exact Hone.
    + destruct (IH s1 H3) as (I1 & I2 & I3 & bs & Hbs & I4).
      destruct Hone as (_ & _ & _ & bs0 & Hbs0 & O4).
      repeat split; try congruence.
      exists (bs0 ++ bs). split.
      * apply Forall_app. split; [exact Hbs0|].
        eapply Forall_impl; [|exact Hbs].
        intros rows (form_id & fields & B1 & B2 & B3 & B4).
        exists form_id, fields. repeat split; try assumption; congruence.
      * rewrite I4, O4, concat_app, app_assoc. reflexivity.
    + destruct (IH s1 H3) as (I1 & I2 & I3 & bs & Hbs & I4).
      destruct Hone as (_ & _ & _ & bs0 & Hbs0 & O4).
      repeat split; try congruence.
      exists (bs0 ++ bs). split.
      * apply Forall_app. split; [exact Hbs0|].
        eapply Forall_impl; [|exact Hbs].
        intros rows (form_id & fields & B1 & B2 & B3 & B4).
        exists form_id, fields. repeat split; try assumption; congruence.
      * rewrite I4, O4, concat_app, app_assoc. reflexivity.
Qed.

(** X22: whatever is typed and however it ends, [main] only ever adds
    whole batches to the mapping table: the committed rows from before stay
    in place, every row added belongs to a batch numbered from 1 for a form
    of the forms table and fields of the form_fields table, and no
    transaction is left open.  Without a connection nothing happens. *)
Theorem main_adds_batches (fuel : nat) (reachable : bool) (s : session) :
  pending (s_conn s) = [] ->
  let run := main py_int accepts commit_ok query_ok fuel reachable s in
  batches s (snd run) /\
  (reachable = false -> run = (NoConnection, s)).
Proof.
  intros Hp run. subst run. unfold main. destruct reachable; cbn [negb].
  - split; [now apply rounds_batches|discriminate].
  - split; [|reflexivity]. repeat split; try assumption.
    exists []. split; [constructor|]. simpl. now rewrite app_nil_r.
Qed.

End Tool.

Lemma round_writes_one_batch_witness :
  let s := demo_session ["form-9"; "2"; "2"; "First Name"; "e-mail"; "";
                         "y"; "n"] in
  let s' := snd (round CategoryManager.decimal once_per_form always any_query s) in
  s_forms s' = s_forms s /\
  s_form_fields s' = s_form_fields s /\
  pending (s_conn s') = [] /\
  (committed (s_conn s') = committed (s_conn s) \/
   exists form_id fields,
     fields <> [] /\
     In form_id (s_forms s) /\
     Forall (listed (s_form_fields s)) fields /\
     committed (s_conn s')
     = committed (s_conn s) ++ mappings_from form_id 1 fields /\
     entered CategoryManager.decimal s form_id fields).
Proof.
  intros s.
  apply (round_writes_one_batch CategoryManager.decimal once_per_form always
           any_query s).
  reflexivity.
Defined.

Lemma main_adds_batches_witness :
  let s := demo_session ["form-9"; "1"; "1"; "f-2"; ""; "y"; "y";
                         "form-9"; "1"; "2"; "First-Name"; ""; "Y"; "n"] in
  let run := main CategoryManager.decimal once_per_form always any_query 5 true s in
  batches s (snd run) /\
  (true = false -> run = (NoConnection, s)).
Proof.
  intros s.
  apply (main_adds_batches CategoryManager.decimal once_per_form always
           any_query 5 true s).
  reflexivity.
Defined.

End WizardFacts.
